(** * Voice-driven appointment booking: form filler, intent service, recorder

  A shallow embedding of the TypeScript sources

    - [formFiller.ts]  (class [PlaywrightFormFiller]),
    - the OpenAI service (class [OpenAIService]),
    - the audio recorder (class [NodeAudioRecorder]),

  together with the properties their specification states about them.

  Conventions.  A JavaScript string is a [string] of 8-bit code units
  (the Latin-1 range of UTF-16); a string is truthy when it is not
  empty.  The rendered page is a list of elements in document order.
  Code that can throw runs in a small monad carrying the trace of
  observable actions and either a value or the thrown message. *)

From Stdlib Require Import String Ascii List Bool Arith ZArith Lia.
From Stdlib Require Import DecimalString.
Import ListNotations.

Local Open Scope list_scope.
Local Open Scope string_scope.

(* ===================================================================== *)
(** ** JavaScript strings *)
(* ===================================================================== *)

Module Js.

(** Truthiness of a string: [!s] is [isEmpty s]. *)
Definition isEmpty (s : string) : bool :=
  match s with EmptyString => true | String _ _ => false end.

Definition truthy (s : string) : bool := negb (isEmpty s).

(** [a || b] on strings. *)
Definition or (a b : string) : string := if truthy a then a else b.

(** [a || b] where [a] is a nullable string ([getAttribute]). *)
Definition orNull (a : option string) (b : string) : string :=
  match a with Some s => or s b | None => b end.

(** White space as [String.prototype.trim] and the regexp class [\s]
    see it, on the Latin-1 range: TAB, LF, VT, FF, CR, SP, NBSP. *)
Definition isWhiteSpace (c : ascii) : bool :=
  let n := nat_of_ascii c in
  (Nat.leb 9 n && Nat.leb n 13) || Nat.eqb n 32 || Nat.eqb n 160.

Definition isDigit (c : ascii) : bool :=
  let n := nat_of_ascii c in Nat.leb 48 n && Nat.leb n 57.

Fixpoint trimStart (s : string) : string :=
  match s with
  | String c r => if isWhiteSpace c then trimStart r else s
  | EmptyString => EmptyString
  end.

(** Drops the trailing white space: a character is kept when something
    that is kept follows it, or when it is not white space. *)
Fixpoint trimEnd (s : string) : string :=
  match s with
  | EmptyString => EmptyString
  | String c r =>
      match trimEnd r with
      | EmptyString => if isWhiteSpace c then EmptyString else String c EmptyString
      | r' => String c r'
      end
  end.

Definition trim (s : string) : string := trimEnd (trimStart s).

(** [String.prototype.toLowerCase] on the Latin-1 range. *)
Definition lowerChar (c : ascii) : ascii :=
  let n := nat_of_ascii c in
  if (Nat.leb 65 n && Nat.leb n 90)
     || (Nat.leb 192 n && Nat.leb n 222 && negb (Nat.eqb n 215))
  then ascii_of_nat (n + 32) else c.

Fixpoint toLowerCase (s : string) : string :=
  match s with
  | EmptyString => EmptyString
  | String c r => String (lowerChar c) (toLowerCase r)
  end.

(** [s.includes(sub)]. *)
Fixpoint includes (sub s : string) : bool :=
  prefix sub s ||
  match s with
  | EmptyString => false
  | String _ r => includes sub r
  end.

(** [s.replace(/[:\*]/g, '')]. *)
Fixpoint stripColonStar (s : string) : string :=
  match s with
  | EmptyString => EmptyString
  | String c r =>
      if Ascii.eqb c ":" || Ascii.eqb c "*" then stripColonStar r
      else String c (stripColonStar r)
  end.

(** [s.replace(/\s+/g, '_')]: every maximal run of white space becomes
    one underscore. *)
Fixpoint underscoreRuns (inRun : bool) (s : string) : string :=
  match s with
  | EmptyString => EmptyString
  | String c r =>
      if isWhiteSpace c
      then (if inRun then underscoreRuns true r
            else String "_" (underscoreRuns true r))
      else String c (underscoreRuns false r)
  end.

Definition underscoreSpaces (s : string) : string := underscoreRuns false s.

(** [/\d+:\d+/.test(s)].  [skipDigits] is the greedy [\d+]; giving
    digits back cannot help, because the character after a shorter run
    of digits is a digit and not the colon. *)
Fixpoint skipDigits (s : string) : string :=
  match s with
  | String c r => if isDigit c then skipDigits r else s
  | EmptyString => EmptyString
  end.

Definition timeShapeHere (s : string) : bool :=
  match s with
  | String c r =>
      isDigit c &&
      match skipDigits r with
      | String c1 (String c2 _) => Ascii.eqb c1 ":" && isDigit c2
      | _ => false
      end
  | EmptyString => false
  end.

Fixpoint testTimeShape (s : string) : bool :=
  timeShapeHere s ||
  match s with
  | EmptyString => false
  | String _ r => testTimeShape r
  end.

(** [parts.join(sep)]. *)
Fixpoint join (sep : string) (parts : list string) : string :=
  match parts with
  | [] => EmptyString
  | [p] => p
  | p :: rest => p ++ sep ++ join sep rest
  end.

(** [String(n)] for a non-negative integer. *)
Definition ofNat (n : nat) : string :=
  NilZero.string_of_uint (Nat.to_uint n).

(** [String(z)] for an integer. *)
Definition ofZ (z : Z) : string :=
  NilZero.string_of_int (Z.to_int z).

End Js.

(* ===================================================================== *)
(** ** The rendered document *)
(* ===================================================================== *)

Module Dom.

(** An [<option>] of a [<select>]: its [text] and [value] properties. *)
Record SelectOption : Type := mkOption {
  text : string;
  value : string
}.

(** One element of the page.  What the code reads through selectors and
    DOM calls is kept as data of the element: its lower-cased tag name,
    its attributes, its text content, whether it is rendered, whether
    [fill] / [selectOption] and [click] pass their actionability checks
    within the time-out, the form it descends from (the position of
    that [<form>] in the document), whether it is the last child of its
    parent, the text of the closest enclosing [<label>], and its
    options. *)
Record Element : Type := mkElement {
  tagName : string;
  attributes : list (string * string);
  textContent : string;
  visible : bool;
  editable : bool;
  clickable : bool;
  inForm : option nat;
  lastChild : bool;
  closestLabel : option string;
  options : list SelectOption
}.

(** The page: its elements in document order, and its [<label for=..>]
    elements as pairs of the [for] attribute and the text content. *)
Record Page : Type := mkPage {
  elements : list Element;
  labelsFor : list (string * string)
}.

Fixpoint assoc (k : string) (l : list (string * string)) : option string :=
  match l with
  | [] => None
  | (k', v) :: rest => if String.eqb k k' then Some v else assoc k rest
  end.

(** [el.getAttribute(name)]: [None] is JavaScript's [null]. *)
Definition getAttribute (name : string) (el : Element) : option string :=
  assoc name (attributes el).

(** The reflecting properties [el.name] and [el.id]. *)
Definition name (el : Element) : string := Js.orNull (getAttribute "name" el) "".
Definition id (el : Element) : string := Js.orNull (getAttribute "id" el) "".

(** [document.querySelector(`label[for="${id}"]`)], as its text. *)
Definition labelFor (p : Page) (i : string) : option string :=
  assoc i (labelsFor p).

Definition isTag (t : string) (el : Element) : bool := String.eqb (tagName el) t.

(** Position of the first [<form>], [document.querySelector('form')]. *)
Fixpoint findIndex {A} (f : A -> bool) (l : list A) (from : nat) : option nat :=
  match l with
  | [] => None
  | x :: rest => if f x then Some from else findIndex f rest (S from)
  end.

Definition firstForm (p : Page) : option nat :=
  findIndex (isTag "form") (elements p) 0.

Definition descendsFrom (f : nat) (el : Element) : bool :=
  match inForm el with Some g => Nat.eqb f g | None => false end.

End Dom.

(* ===================================================================== *)
(** ** Field-name inference ([getFormFields], [getFieldName]) *)
(* ===================================================================== *)

Module FieldNames.
Import Dom.

(** [Array.from(select.options).map(opt => opt.text || '')
      .filter(t => t.trim())] *)
Definition optionTexts (el : Element) : list string :=
  filter (fun t => Js.truthy (Js.trim t))
         (map (fun opt => Js.or (text opt) "") (options el)).

(** [options.join(' ')] *)
Definition allOptionsText (el : Element) : string :=
  Js.join " " (optionTexts el).

Definition looksLikeTime (t : string) : bool :=
  Js.includes "AM" t || Js.includes "PM" t || Js.testTimeShape t.

(** The label of a control: [labelFor || parentLabel]. *)
Definition labelOf (p : Page) (el : Element) : option string :=
  let labelFor := if Js.truthy (id el) then Dom.labelFor p (id el) else None in
  match labelFor with
  | Some l => Some l
  | None => closestLabel el
  end.

(** The name [getFormFields] gives the control [element], the
    [index]-th of the form's [input, textarea, select] descendants
    (the body of the [forEach] callback, up to the fallback). *)
Definition inferName (p : Page) (element : Element) (index : nat) : string :=
  (* let name = element.name || element.id; *)
  let name := Js.or (Dom.name element) (Dom.id element) in
  (* if (!name) name = element.getAttribute('aria-label') || ''; *)
  let name :=
    if Js.isEmpty name
    then Js.orNull (getAttribute "aria-label" element) ""
    else name in
  (* if (!name) { ... label ... } *)
  let name :=
    if Js.isEmpty name
    then match labelOf p element with
         | Some textContent =>
             Js.or (Js.underscoreSpaces
                      (Js.toLowerCase (Js.stripColonStar (Js.trim textContent))))
                   ""
         | None => name
         end
    else name in
  (* if (!name) name = data-name || data-field || ''; *)
  let name :=
    if Js.isEmpty name
    then Js.orNull (getAttribute "data-name" element)
                   (Js.orNull (getAttribute "data-field" element) "")
    else name in
  (* if (!name && element.tagName.toLowerCase() === 'select') { ... } *)
  let name :=
    if Js.isEmpty name && isTag "select" element
    then
      let allOptionsText := allOptionsText element in
      if looksLikeTime allOptionsText then "appointment_time"
      else if Js.includes "Checkup" allOptionsText
              || Js.includes "Cleaning" allOptionsText
              || Js.includes "Consultation" allOptionsText
      then "service_type"
      else if Js.includes "Extraction" allOptionsText
              || Js.includes "Root Canal" allOptionsText
              || Js.includes "Whitening" allOptionsText
      then "service_type"
      else name
    else name in
  (* if (!name) name = `field_${index}`; *)
  if Js.isEmpty name then "field_" ++ Js.ofNat index else name.

(** [form.querySelectorAll('input, textarea, select')] on the first
    form of the document. *)
Definition isControl (el : Element) : bool :=
  isTag "input" el || isTag "textarea" el || isTag "select" el.

Definition controls (p : Page) : list Element :=
  match firstForm p with
  | None => []
  | Some f => filter (fun el => descendsFrom f el && isControl el) (elements p)
  end.

Fixpoint inferAll (p : Page) (cs : list Element) (index : nat) : list string :=
  match cs with
  | [] => []
  | c :: rest => inferName p c index :: inferAll p rest (S index)
  end.

(** The names under which [getFormFields] records the controls, in
    document order (a later control overwrites an equal earlier key). *)
Definition getFormFields_names (p : Page) : list string :=
  inferAll p (controls p) 0.

(** The private helper [getFieldName(element)]: it has neither the
    [aria-label] and data-attribute stages nor a positional fallback,
    and answers the empty string when nothing is found (its callers
    write [getFieldName(el) || defaultName]). *)
Definition getFieldName (p : Page) (element : Element) : string :=
  (* getAttribute('name') || getAttribute('id') *)
  let fieldName :=
    match getAttribute "name" element with
    | Some n => if Js.truthy n then Some n else getAttribute "id" element
    | None => getAttribute "id" element
    end in
  let falsy := match fieldName with Some s => Js.isEmpty s | None => true end in
  if falsy then
    match labelOf p element with
    | Some textContent => Js.or (Js.stripColonStar (Js.trim textContent)) ""
    | None =>
        if isTag "select" element then
          let allOptionsText := allOptionsText element in
          if looksLikeTime allOptionsText then "appointment_time"
          else if Js.includes "Checkup" allOptionsText
                  || Js.includes "Cleaning" allOptionsText
                  || Js.includes "Consultation" allOptionsText
                  || Js.includes "Extraction" allOptionsText
                  || Js.includes "Root Canal" allOptionsText
                  || Js.includes "Whitening" allOptionsText
          then "service_type"
          else ""
        else ""
    end
  else match fieldName with Some s => s | None => "" end.

(** The resolution order as the specification words it: the signals of
    a control in order of precedence; the first non-empty one wins. *)
Definition serviceWords : list string :=
  ["Checkup"; "Cleaning"; "Consultation"; "Extraction"; "Root Canal"; "Whitening"].

Definition sniffSignal (el : Element) : string :=
  if isTag "select" el then
    if looksLikeTime (allOptionsText el) then "appointment_time"
    else if existsb (fun w => Js.includes w (allOptionsText el)) serviceWords
    then "service_type"
    else ""
  else "".

(** What the pattern [\d+:\d+] asks of a string, in words: a digit, a
    colon and a digit in a row. *)
Definition hasTimeShape (s : string) : Prop :=
  exists pre d1 d2 post,
    s = pre ++ String d1 (String ":" (String d2 post))
    /\ Js.isDigit d1 = true /\ Js.isDigit d2 = true.

Definition labelSignal (p : Page) (el : Element) : string :=
  match labelOf p el with
  | Some t => Js.underscoreSpaces (Js.toLowerCase (Js.stripColonStar (Js.trim t)))
  | None => ""
  end.

Definition signals (p : Page) (el : Element) (index : nat) : list string :=
  [ Js.orNull (getAttribute "name" el) "";
    Js.orNull (getAttribute "id" el) "";
    Js.orNull (getAttribute "aria-label" el) "";
    labelSignal p el;
    Js.orNull (getAttribute "data-name" el)
              (Js.orNull (getAttribute "data-field" el) "");
    sniffSignal el;
    "field_" ++ Js.ofNat index ].

Fixpoint firstNonEmpty (l : list string) : string :=
  match l with
  | [] => ""
  | s :: rest => if Js.truthy s then s else firstNonEmpty rest
  end.

Definition spec_inferFieldName (p : Page) (el : Element) (index : nat) : string :=
  firstNonEmpty (signals p el index).

End FieldNames.

(* ===================================================================== *)
(** ** Exceptions *)
(* ===================================================================== *)

(** A thrown value: an [Error] with its message, or some other value. *)
Inductive Exn : Type :=
| Error (message : string)
| NotAnError.

(** [error instanceof Error ? error.message : 'Unknown error'] *)
Definition messageOf (e : Exn) : string :=
match e with
| Error m => m
| NotAnError => "Unknown error"
end.

(** How a call ends. *)
Inductive Outcome (A : Type) : Type :=
| Returned (a : A)
| Threw (e : Exn).

Arguments Returned {A} a.
Arguments Threw {A} e.

(* ===================================================================== *)
(** ** The audio recorder ([NodeAudioRecorder]) *)
(* ===================================================================== *)

Module Recorder.

(** The fields of the recorder object; a child process is its pid. *)
Record State : Type := mkState {
  isCurrentlyRecording : bool;
  recordingProcess : option nat;
  audioFilePath : string;
  startTime : Z
}.

(** The field initialisers of the class. *)
Definition initial : State :=
  {| isCurrentlyRecording := false;
     recordingProcess := None;
     audioFilePath := "";
     startTime := 0 |}.

(** What the operating system answers during one [startRecording]:
    whether [fs.ensureDir] throws, the directory [cwd/temp], the clock,
    and whether [spawn] throws or yields a process. *)
Record StartEnv : Type := mkStartEnv {
  ensureDir : option Exn;
  audioDir : string;
  dateNow : Z;
  spawn : Exn + nat
}.

(** What it answers during one [stopRecording]: whether [kill] throws,
    the clock, whether the file exists, and its size (or [fs.stat]
    throwing). *)
Record StopEnv : Type := mkStopEnv {
  kill : option Exn;
  pathExists : bool;
  stat : Exn + Z
}.

Definition setRecording (b : bool) (s : State) : State :=
  {| isCurrentlyRecording := b;
     recordingProcess := recordingProcess s;
     audioFilePath := audioFilePath s;
     startTime := startTime s |}.

(** The [catch] block of [startRecording]. *)
Definition startFailed (s : State) (error : Exn) : Outcome unit * State :=
  (Threw (Error ("Failed to start recording: " ++ messageOf error)),
   setRecording false s).

Definition startRecording (env : StartEnv) (s : State) : Outcome unit * State :=
  if isCurrentlyRecording s then
    (Threw (Error "Recording is already in progress"), s)
  else
    match ensureDir env with
    | Some error => startFailed s error
    | None =>
        (* this.audioFilePath = path.join(audioDir, `recording_${Date.now()}.wav`);
           this.startTime = Date.now(); *)
        let s1 :=
          {| isCurrentlyRecording := isCurrentlyRecording s;
             recordingProcess := recordingProcess s;
             audioFilePath :=
               audioDir env ++ "/recording_" ++ Js.ofZ (dateNow env) ++ ".wav";
             startTime := dateNow env |} in
        match spawn env with
        | inl error => startFailed s1 error
        | inr process =>
            (Returned tt,
             {| isCurrentlyRecording := true;
                recordingProcess := Some process;
                audioFilePath := audioFilePath s1;
                startTime := startTime s1 |})
        end
    end.

(** The ['error'] listener registered on the spawned process. *)
Definition onProcessError (s : State) : State := setRecording false s.

(** The three assignments that end both branches of [stopRecording]. *)
Definition reset (s : State) : State :=
  {| isCurrentlyRecording := false;
     recordingProcess := None;
     audioFilePath := "";
     startTime := startTime s |}.

(** The [catch] block of [stopRecording]. *)
Definition stopFailed (s : State) (error : Exn) : Outcome string * State :=
  (Threw (Error ("Failed to stop recording: " ++ messageOf error)), reset s).

Definition stopRecording (env : StopEnv) (s : State) : Outcome string * State :=
  if negb (isCurrentlyRecording s)
     || match recordingProcess s with None => true | Some _ => false end
  then (Threw (Error "No recording in progress"), s)
  else
    match kill env with
    | Some error => stopFailed s error
    | None =>
        let audioFilePath := audioFilePath s in
        if pathExists env then
          match stat env with
          | inl error => stopFailed s error
          | inr _ => (Returned audioFilePath, reset s)
          end
        else stopFailed s (Error "Recording file was not created")
    end.

Definition isRecording (s : State) : bool := isCurrentlyRecording s.

(** While the recorder says it is recording it holds a process. *)
Definition holdsProcess (s : State) : Prop :=
  isCurrentlyRecording s = true -> recordingProcess s <> None.

(** The states a recorder object can be in: it is constructed, and then
    its methods are called and its process listener fires, in any order. *)
Inductive reachable : State -> Prop :=
| reach_new : reachable initial
| reach_start : forall env s, reachable s -> reachable (snd (startRecording env s))
| reach_stop : forall env s, reachable s -> reachable (snd (stopRecording env s))
| reach_error : forall s, reachable s -> recordingProcess s <> None ->
                          reachable (onProcessError s).

End Recorder.

(* ===================================================================== *)
(** ** The intent service ([OpenAIService]) *)
(* ===================================================================== *)

Module OpenAI.

(** A JavaScript value, as far as [JSON.parse] produces them. *)
#[warnings="-register-all"]
Inductive JsValue : Type :=
| JUndefined
| JNull
| JBool (b : bool)
| JNumber (n : Z)
| JString (s : string)
| JArray (items : list JsValue)
| JObject (fields : list (string * JsValue)).

(** The object the methods return.  The declared type of [intent] is a
    union of three literals; at run time it holds whatever the model's
    JSON held, until it is validated.  [failure] is the status
    ['error']. *)
Inductive Status : Type := success | failure.

Record IntentResult : Type := mkIntentResult {
  intent : JsValue;
  response : JsValue;
  status : Status
}.

Fixpoint field (k : string) (fs : list (string * JsValue)) : JsValue :=
  match fs with
  | [] => JUndefined
  | (k', v) :: rest => if String.eqb k k' then v else field k rest
  end.

(** [v.k]: a [TypeError] on [null] and [undefined], [undefined] when the
    value has no such property. *)
Definition getProp (v : JsValue) (k : string) : Outcome JsValue :=
  match v with
  | JUndefined | JNull => Threw (Error "Cannot read properties")
  | JObject fs => Returned (field k fs)
  | _ => Returned JUndefined
  end.

(** [!v] *)
Definition falsy (v : JsValue) : bool :=
  match v with
  | JUndefined | JNull => true
  | JBool b => negb b
  | JNumber n => Z.eqb n 0
  | JString s => Js.isEmpty s
  | JArray _ | JObject _ => false
  end.

(** [['book_appointment', 'other', 'unclear'].includes(v)] *)
Definition isKnownIntent (v : JsValue) : bool :=
  match v with
  | JString s =>
      existsb (String.eqb s) ["book_appointment"; "other"; "unclear"]
  | _ => false
  end.

Section Service.

(** The collaborators: the file system, the transcription endpoint, the
    chat endpoint (its answer is [choices[0]?.message?.content], [None]
    for [null] or [undefined]), and [JSON.parse] ([None]: it throws). *)
Variable fs_pathExists : string -> bool.
Variable transcriptions_create : string -> Exn + string.
Variable completions_create : string -> Exn + option string.
Variable JSON_parse : string -> option JsValue.

Definition transcribeAudio (audioFilePath : string) : Outcome string :=
  if negb (fs_pathExists audioFilePath) then
    Threw (Error ("Audio file not found: " ++ audioFilePath))
  else
    match transcriptions_create audioFilePath with
    | inl e => Threw e
    | inr transcription => Returned transcription
    end.

(** The [try] block around [JSON.parse]: any throw inside it, the
    parser's or a property read on [null], selects the fallback. *)
Definition parseResult (content : string) : IntentResult :=
  let fallback :=
    {| intent := JString "unclear";
       response := JString "Could not parse AI response";
       status := failure |} in
  match JSON_parse content with
  | None => fallback
  | Some ret =>
      match getProp ret "intent", getProp ret "response" with
      | Returned i, Returned r =>
          {| intent := i; response := r; status := success |}
      | _, _ => fallback
      end
  end.

(** The validation step that follows. *)
Definition validate (result : IntentResult) : IntentResult :=
  if falsy (intent result) || negb (isKnownIntent (intent result))
  then {| intent := JString "unclear";
          response := response result;
          status := status result |}
  else result.

Definition analyzeIntent (transcription : string) : Outcome IntentResult :=
  match completions_create transcription with
  | inl e => Threw e
  | inr content =>
      match content with
      | None => Threw (Error "No response from OpenAI")
      | Some content =>
          if Js.isEmpty content then Threw (Error "No response from OpenAI")
          else Returned (validate (parseResult content))
      end
  end.

Definition processAudioCommand (audioFilePath : string) : Outcome IntentResult :=
  let attempt :=
    match transcribeAudio audioFilePath with
    | Threw e => Threw e
    | Returned transcription => analyzeIntent transcription
    end in
  match attempt with
  | Returned intentResult => Returned intentResult
  | Threw error =>
      Returned
        {| intent := JString "unclear";
           response :=
             JString ("Failed to process audio command: " ++ messageOf error);
           status := failure |}
  end.

End Service.

End OpenAI.

(* ===================================================================== *)
(** ** JavaScript dates *)
(* ===================================================================== *)

Module JsDate.

Local Open Scope Z_scope.

(** A time value is a number of milliseconds since the epoch, in UTC. *)
Definition msPerDay : Z := 86400000.

Definition Day (t : Z) : Z := t / msPerDay.
Definition TimeWithinDay (t : Z) : Z := t mod msPerDay.
Definition MakeDate (day time : Z) : Z := day * msPerDay + time.

(** The proleptic Gregorian calendar: the day number (days since
    1970-01-01) of a year, month (1..12) and day of the month, and back.
    Years are counted from March in eras of 400 years. *)
Definition daysFromCivil (y m d : Z) : Z :=
  let y := if m <=? 2 then y - 1 else y in
  let era := y / 400 in
  let yoe := y - era * 400 in
  let doy := (153 * (if 2 <? m then m - 3 else m + 9) + 2) / 5 + d - 1 in
  let doe := yoe * 365 + yoe / 4 - yoe / 100 + doy in
  era * 146097 + doe - 719468.

Definition civilFromDays (z : Z) : Z * Z * Z :=
  let z := z + 719468 in
  let era := z / 146097 in
  let doe := z - era * 146097 in
  let yoe := (doe - doe / 1460 + doe / 36524 - doe / 146096) / 365 in
  let y := yoe + era * 400 in
  let doy := doe - (365 * yoe + yoe / 4 - yoe / 100) in
  let mp := (5 * doy + 2) / 153 in
  let d := doy - (153 * mp + 2) / 5 + 1 in
  let m := if mp <? 10 then mp + 3 else mp - 9 in
  (if m <=? 2 then y + 1 else y, m, d).

(** ECMAScript's [YearFromTime], [MonthFromTime] (0..11), [DateFromTime]. *)
Definition YearFromTime (t : Z) : Z := fst (fst (civilFromDays (Day t))).
Definition MonthFromTime (t : Z) : Z := snd (fst (civilFromDays (Day t))) - 1.
Definition DateFromTime (t : Z) : Z := snd (civilFromDays (Day t)).

(** [MakeDay(year, month, date)]: the day number of the first of the
    month, plus [date - 1]; [month] and [date] may overflow. *)
Definition MakeDay (year month date : Z) : Z :=
  daysFromCivil (year + month / 12) (month mod 12 + 1) 1 + date - 1.

(** The host's clock: the current time value, and [LocalTZA(t, isUTC)],
    the offset of local time in milliseconds at the UTC time value [t]
    ([isUTC = true]) or at the local time value [t] ([isUTC = false]). *)
Record Clock : Type := mkClock {
  now : Z;
  LocalTZA : Z -> bool -> Z
}.

Definition LocalTime (c : Clock) (t : Z) : Z := t + LocalTZA c t true.
Definition UTC (c : Clock) (t : Z) : Z := t - LocalTZA c t false.

(** [date.getDate()] and [date.setDate(dt)] on a [Date] holding [t]. *)
Definition getDate (c : Clock) (t : Z) : Z := DateFromTime (LocalTime c t).

Definition setDate (c : Clock) (t dt : Z) : Z :=
  let lt := LocalTime c t in
  let newDate :=
    MakeDate (MakeDay (YearFromTime lt) (MonthFromTime lt) dt) (TimeWithinDay lt) in
  UTC c newDate.

(** Decimal digits of fixed width, as the date-time string format has
    them. *)
Definition digitChar (d : Z) : ascii := ascii_of_nat (48 + Z.to_nat d).

Fixpoint digits (width : nat) (n : Z) : string :=
  match width with
  | O => EmptyString
  | S w => (digits w (n / 10) ++ String (digitChar (n mod 10)) EmptyString)%string
  end.

(** The year of an ISO string: four digits, or a sign and six digits. *)
Definition isoYear (y : Z) : string :=
  if (0 <=? y) && (y <=? 9999) then digits 4 y
  else String.append (if 0 <=? y then "+"%string else "-"%string)
                     (digits 6 (Z.abs y)).

Definition isoDate (y m d : Z) : string :=
  (isoYear y ++ "-" ++ digits 2 m ++ "-" ++ digits 2 d)%string.

(** [date.toISOString()]: always in UTC. *)
Definition toISOString (t : Z) : string :=
  let tod := TimeWithinDay t in
  (isoDate (YearFromTime t) (MonthFromTime t + 1) (DateFromTime t)
   ++ "T" ++ digits 2 (tod / 3600000)
   ++ ":" ++ digits 2 (tod / 60000 mod 60)
   ++ ":" ++ digits 2 (tod / 1000 mod 60)
   ++ "." ++ digits 3 (tod mod 1000) ++ "Z")%string.

(** [s.split(sep)[0]] for a one-character separator. *)
Fixpoint splitHead (sep : ascii) (s : string) : string :=
  match s with
  | EmptyString => EmptyString
  | String c r => if Ascii.eqb c sep then EmptyString else String c (splitHead sep r)
  end.

(** The separator does not occur in the string. *)
Fixpoint freeOf (sep : ascii) (s : string) : bool :=
  match s with
  | EmptyString => true
  | String c r => negb (Ascii.eqb c sep) && freeOf sep r
  end.

(** The shape [YYYY-MM-DD]: ten characters, digits around two hyphens. *)
Definition isYMD (s : string) : bool :=
  match s with
  | String y1 (String y2 (String y3 (String y4 (String h1
      (String m1 (String m2 (String h2 (String d1 (String d2 EmptyString))))))))) =>
      Js.isDigit y1 && Js.isDigit y2 && Js.isDigit y3 && Js.isDigit y4
      && Ascii.eqb h1 "-"
      && Js.isDigit m1 && Js.isDigit m2
      && Ascii.eqb h2 "-"
      && Js.isDigit d1 && Js.isDigit d2
  | _ => false
  end.

(** [const defaultDate = new Date();
     defaultDate.setDate(defaultDate.getDate() + 7);
     const dateString = defaultDate.toISOString().split('T')[0];] *)
Definition defaultDateString (c : Clock) : string :=
  let defaultDate := now c in
  let defaultDate := setDate c defaultDate (getDate c defaultDate + 7) in
  splitHead "T" (toISOString defaultDate).

End JsDate.

(* ===================================================================== *)
(** ** Selectors and locators *)
(* ===================================================================== *)

Module Locator.
Import Dom.

(** An attribute test of a CSS selector. *)
Inductive AttrTest : Type :=
| AttrIs (name value : string)          (* [name="value"] *)
| AttrHas (name value : string)         (* [name*="value"] *)
| AttrHasI (name value : string).       (* [name*="value" i] *)

(** A compound selector, optionally under [form] (a descendant
    combinator), with the pseudo-classes [:last-child] and
    [:has-text("..")] of the automation library. *)
Record Compound : Type := mkCompound {
  underForm : bool;
  onTag : option string;
  tests : list AttrTest;
  isLastChild : bool;
  hasText : option string
}.

(** A selector list: alternatives separated by commas (and the [or] of
    two locators). *)
Definition Selector : Type := list Compound.

(** In an HTML document the value of the [type] attribute is compared
    without regard to ASCII case; other attribute values are compared
    exactly unless the test carries the [i] flag. *)
Definition attrTest (el : Element) (t : AttrTest) : bool :=
  match t with
  | AttrIs n v =>
      match getAttribute n el with
      | Some a =>
          if String.eqb n "type"
          then String.eqb (Js.toLowerCase a) (Js.toLowerCase v)
          else String.eqb a v
      | None => false
      end
  | AttrHas n v =>
      match getAttribute n el with
      | Some a => Js.includes v a
      | None => false
      end
  | AttrHasI n v =>
      match getAttribute n el with
      | Some a => Js.includes (Js.toLowerCase v) (Js.toLowerCase a)
      | None => false
      end
  end.

(** Text matching of [:has-text] and of [filter({ hasText })]: a
    substring, case-insensitively. *)
Definition containsText (needle : string) (el : Element) : bool :=
  Js.includes (Js.toLowerCase needle) (Js.toLowerCase (textContent el)).

Definition matchesCompound (c : Compound) (el : Element) : bool :=
  (if underForm c then match inForm el with Some _ => true | None => false end
   else true)
  && match onTag c with Some t => isTag t el | None => true end
  && forallb (attrTest el) (tests c)
  && (if isLastChild c then lastChild el else true)
  && match hasText c with Some t => containsText t el | None => true end.

Definition matches (sel : Selector) (el : Element) : bool :=
  existsb (fun c => matchesCompound c el) sel.

(** Positions, in document order, of the elements of [l] (the first of
    which stands at position [from]) that satisfy [f]. *)
Fixpoint positions (f : Element -> bool) (l : list Element) (from : nat) : list nat :=
  match l with
  | [] => []
  | el :: rest =>
      if f el then from :: positions f rest (S from)
      else positions f rest (S from)
  end.

(** [page.locator(sel).all()] *)
Definition all (p : Page) (sel : Selector) : list nat :=
  positions (matches sel) (elements p) 0.

(** [.first()], [.nth(k)]: a locator that may resolve to nothing. *)
Definition first (p : Page) (sel : Selector) : option nat := hd_error (all p sel).
Definition nth (p : Page) (sel : Selector) (k : nat) : option nat :=
  nth_error (all p sel) k.

Definition element (p : Page) (i : nat) : option Element := nth_error (elements p) i.

(** [locator.isVisible()]: [false] when nothing matches. *)
Definition isVisible (p : Page) (target : option nat) : bool :=
  match target with
  | Some i => match element p i with Some el => visible el | None => false end
  | None => false
  end.

(** Shorthands for the selectors of the source. *)
Definition sel (tag : string) (ts : list AttrTest) : Compound :=
  {| underForm := false; onTag := Some tag; tests := ts;
     isLastChild := false; hasText := None |}.

Definition withText (tag : option string) (ts : list AttrTest) (t : string) : Compound :=
  {| underForm := false; onTag := tag; tests := ts;
     isLastChild := false; hasText := Some t |}.

Definition formButton (last : bool) : Compound :=
  {| underForm := true; onTag := Some "button"; tests := [];
     isLastChild := last; hasText := None |}.

End Locator.

(* ===================================================================== *)
(** ** The form filler ([PlaywrightFormFiller]) *)
(* ===================================================================== *)

Module Filler.
Import Dom Locator.

Record AppointmentData : Type := mkData {
  name : string;
  email : string;
  phone : string;
  appointmentDate : string;
  appointmentTime : string;
  serviceType : string;
  comments : option string
}.

(** What a run does to the outside world, in order.  [Strategy n] is the
    console line that announces submission strategy [n]; [Log] stands
    for the console lines of the [catch] blocks and of the final failure
    (the progress lines of the successful paths are not recorded). *)
Inductive Event : Type :=
| Navigate (url : string)
| Fill (target : nat) (value : string)
| Select (target : nat) (index : nat)
| Click (target : nat)
| ScriptClick (target : nat)
| Screenshot
| Strategy (n : nat)
| Log (message : string).

(** A computation: the trace of its events, and how it ended. *)
Definition M (A : Type) : Type := list Event * Outcome A.

Definition ret {A : Type} (a : A) : M A := ([], Returned a).
Definition throw {A : Type} (e : Exn) : M A := ([], Threw e).
Definition emit (ev : Event) : M unit := ([ev], Returned tt).

Definition bind {A B : Type} (m : M A) (k : A -> M B) : M B :=
  match m with
  | (t, Returned a) => (t ++ fst (k a), snd (k a))%list
  | (t, Threw e) => (t, Threw e)
  end.

(** [try { m } catch (e) { handler e }] *)
Definition tryCatch {A : Type} (m : M A) (handler : Exn -> M A) : M A :=
  match m with
  | (t, Threw e) => (t ++ fst (handler e), snd (handler e))%list
  | (t, Returned a) => (t, Returned a)
  end.

Notation "x <- m ;; k" := (bind m (fun x => k))
  (at level 61, m at next level, right associativity).
Notation "m ;; k" := (bind m (fun _ => k))
  (at level 61, right associativity).

(** The filler object and its surroundings during one call: whether
    [this.page] is set, the configured URL, whether navigation and
    screenshots throw, and the clock. *)
Record Session : Type := mkSession {
  initialized : bool;
  dentistUrl : string;
  gotoFails : option Exn;
  screenshotFails : option Exn;
  clock : JsDate.Clock
}.

(** *** The automation library's actions *)

Definition timeout (action : string) : Exn :=
  Error (action ++ ": Timeout exceeded").

(** An action on a locator waits until the element is there and passes
    the action's checks; it throws when the time-out ends the wait. *)
Definition act (p : Page) (action : string) (target : option nat)
    (ready : Element -> bool) (ev : nat -> Element -> option Event) : M unit :=
  match target with
  | None => throw (timeout action)
  | Some i =>
      match element p i with
      | None => throw (timeout action)
      | Some el =>
          if ready el then
            match ev i el with
            | Some e => emit e
            | None => throw (timeout action)
            end
          else throw (timeout action)
      end
  end.

(** [locator.fill(value)] *)
Definition fill (p : Page) (target : option nat) (v : string) : M unit :=
  act p "locator.fill" target
      (fun el => visible el && editable el)
      (fun i _ => Some (Fill i v)).

(** [locator.selectOption({ label })]: the first option whose label is
    exactly [label]. *)
Definition selectOptionLabel (p : Page) (target : option nat) (label : string) : M unit :=
  act p "locator.selectOption" target
      (fun el => visible el && editable el)
      (fun i el =>
         match findIndex (fun opt => String.eqb (text opt) label) (options el) 0 with
         | Some k => Some (Select i k)
         | None => None
         end).

(** [locator.selectOption({ index })] *)
Definition selectOptionIndex (p : Page) (target : option nat) (index : nat) : M unit :=
  act p "locator.selectOption" target
      (fun el => visible el && editable el)
      (fun i el =>
         if Nat.ltb index (length (options el)) then Some (Select i index)
         else None).

(** [locator.click({ timeout })] *)
Definition click (p : Page) (target : option nat) : M unit :=
  act p "locator.click" target
      (fun el => visible el && clickable el)
      (fun i _ => Some (Click i)).

(** [page.goto(url, ..)] *)
Definition goto (s : Session) : M unit :=
  match gotoFails s with
  | Some e => throw e
  | None => emit (Navigate (dentistUrl s))
  end.

(** [page.waitForSelector('form', ..)]: until the form is visible. *)
Definition waitForForm (p : Page) : M unit :=
  if isVisible p (firstForm p) then ret tt
  else throw (timeout "page.waitForSelector").

(** [this.takeScreenshot()] *)
Definition takeScreenshot (s : Session) : M unit :=
  if negb (initialized s) then throw (Error "Browser not initialized")
  else
    match screenshotFails s with
    | Some e => throw (Error ("Failed to take screenshot: " ++ messageOf e))
    | None => emit Screenshot
    end.

(** *** The selectors of [fillAppointmentForm] *)

Definition nameSelector : Selector :=
  [ sel "input" [AttrHas "name" "name"];
    sel "input" [AttrHas "placeholder" "Name"];
    sel "input" [AttrHas "placeholder" "First Last"] ].

Definition phoneSelector : Selector :=
  [ sel "input" [AttrHas "name" "phone"];
    sel "input" [AttrIs "type" "tel"];
    sel "input" [AttrHas "placeholder" "Phone"] ].

Definition emailSelector : Selector :=
  [ sel "input" [AttrHas "name" "email"];
    sel "input" [AttrIs "type" "email"];
    sel "input" [AttrHas "placeholder" "Email"] ].

Definition dateSelector : Selector :=
  [ sel "input" [AttrIs "type" "date"];
    sel "input" [AttrHasI "name" "date"];
    sel "input" [AttrHasI "id" "date"] ].

Definition dateInputSelector : Selector := [ sel "input" [AttrIs "type" "date"] ].

(** [locator('select').filter({ hasText: 'AM' })
      .or(locator('select').filter({ hasText: 'PM' }))] *)
Definition timeSelector : Selector :=
  [ withText (Some "select") [] "AM"; withText (Some "select") [] "PM" ].

Definition selectSelector : Selector := [ sel "select" [] ].

Definition commentsSelector : Selector :=
  [ sel "textarea" [AttrHas "name" "comment"];
    sel "textarea" [AttrHas "name" "question"];
    sel "textarea" [AttrHas "placeholder" "Question"];
    sel "textarea" [AttrHas "placeholder" "Comments"] ].

Definition submitSelectors : list Selector :=
  [ [ sel "button" [AttrIs "type" "submit"] ];
    [ sel "input" [AttrIs "type" "submit"] ];
    [ formButton true ];
    [ formButton false ] ].

Definition textButtons : list Selector :=
  [ [ withText (Some "button") [] "Submit" ];
    [ withText (Some "button") [] "Book" ];
    [ withText (Some "button") [] "Send" ];
    [ withText (Some "button") [] "Confirm" ];
    [ withText None [AttrIs "role" "button"] "Submit" ];
    [ withText None [AttrIs "role" "button"] "Book" ] ].

(** *** Filling the fields *)

(** [const f = page.locator(sel).first();
     if (await f.isVisible()) { await f.fill(value); }] *)
Definition fillFirst (p : Page) (selector : Selector) (v : string) : M unit :=
  let field := first p selector in
  if isVisible p field then fill p field v else ret tt.

(** [const d = page.locator('select').nth(k);
     if (await d.isVisible()) { await d.selectOption({ index: 1 }); }]
    The [inputValue()] read that follows only feeds a console line. *)
Definition selectDefault (p : Page) (k : nat) : M unit :=
  let dropdown := nth p selectSelector k in
  if isVisible p dropdown then selectOptionIndex p dropdown 1 else ret tt.

Definition fillName (p : Page) (data : AppointmentData) : M unit :=
  if Js.truthy (name data) then fillFirst p nameSelector (name data) else ret tt.

Definition fillPhone (p : Page) (data : AppointmentData) : M unit :=
  if Js.truthy (phone data) then fillFirst p phoneSelector (phone data) else ret tt.

Definition fillEmail (p : Page) (data : AppointmentData) : M unit :=
  if Js.truthy (email data) then fillFirst p emailSelector (email data) else ret tt.

Definition fillDate (s : Session) (p : Page) (data : AppointmentData) : M unit :=
  if Js.truthy (appointmentDate data) then
    tryCatch (fillFirst p dateSelector (appointmentDate data))
             (fun e => emit (Log "Could not fill appointment date"))
  else
    tryCatch
      (let dateInput := first p dateInputSelector in
       if isVisible p dateInput then
         let dateString := JsDate.defaultDateString (clock s) in
         fill p dateInput dateString
       else ret tt)
      (fun e => emit (Log "Could not fill default date")).

Definition fillTime (p : Page) (data : AppointmentData) : M unit :=
  if Js.truthy (appointmentTime data) then
    tryCatch
      (let timeDropdown := first p timeSelector in
       if isVisible p timeDropdown then
         selectOptionLabel p timeDropdown (appointmentTime data)
       else ret tt)
      (fun e =>
         tryCatch (selectDefault p 0)
                  (fun e2 => emit (Log "Could not select appointment time")))
  else
    tryCatch (selectDefault p 0)
             (fun e => emit (Log "Could not select appointment time")).

(** [options.find(opt => opt.text.toLowerCase()
                            .includes(data.serviceType.toLowerCase()))] *)
Definition matchingOption (opts : list SelectOption) (wanted : string) : option nat :=
  findIndex (fun opt => Js.includes (Js.toLowerCase wanted) (Js.toLowerCase (text opt)))
            opts 0.

Definition optionsOf (p : Page) (target : option nat) : list SelectOption :=
  match target with
  | Some i => match element p i with Some el => options el | None => [] end
  | None => []
  end.

Definition fillService (p : Page) (data : AppointmentData) : M unit :=
  if Js.truthy (serviceType data) then
    tryCatch
      (let serviceDropdown := nth p selectSelector 1 in
       if isVisible p serviceDropdown then
         let options := optionsOf p serviceDropdown in
         match matchingOption options (serviceType data) with
         | Some index => selectOptionIndex p serviceDropdown index
         | None => selectOptionIndex p serviceDropdown 1
         end
       else ret tt)
      (fun e => emit (Log "Could not select service type"))
  else
    tryCatch (selectDefault p 1)
             (fun e => emit (Log "Could not select service type")).

Definition fillComments (p : Page) (data : AppointmentData) : M unit :=
  match comments data with
  | Some c => if Js.truthy c then fillFirst p commentsSelector c else ret tt
  | None => ret tt
  end.

(** The part of [fillAppointmentForm] between the navigation and the
    submission. *)
Definition fillFields (s : Session) (p : Page) (data : AppointmentData) : M unit :=
  fillName p data ;;
  fillPhone p data ;;
  fillEmail p data ;;
  fillDate s p data ;;
  fillTime p data ;;
  fillService p data ;;
  fillComments p data.

(** *** Submitting *)

(** The [for] loop of strategies 1 and 2 over a list of selectors:
    [true] when a button was clicked. *)
Fixpoint clickFirstVisible (p : Page) (selectors : list Selector) : M bool :=
  match selectors with
  | [] => ret false
  | selector :: rest =>
      clicked <-
        tryCatch
          (let button := first p selector in
           if isVisible p button
           then click p button ;; ret true        (* buttonClicked = true; break *)
           else ret false)
          (fun e => ret false) ;;                 (* catch (e) { continue; } *)
      if clicked then ret true else clickFirstVisible p rest
  end.

(** Strategy 3: the last of [page.locator('form button').all()].  This
    click is not inside a [try] of its own: a time-out leaves the
    strategies.  Reading the text and scrolling the button into view
    come before the click and fail only where the click itself would. *)
Definition clickLastFormButton (p : Page) : M bool :=
  let formButtons := all p [ formButton false ] in
  match formButtons with
  | [] => ret false
  | _ :: _ =>
      let lastButton := Some (last formButtons 0) in
      click p lastButton ;; ret true
  end.

(** Strategy 4: the script run inside the page. *)
Definition looksLikeSubmit (el : Element) : bool :=
  let text := Js.toLowerCase (textContent el) in
  let type := match getAttribute "type" el with
              | Some t => Js.toLowerCase t
              | None => ""
              end in
  String.eqb type "submit" || Js.includes "submit" text
  || Js.includes "book" text || Js.includes "send" text.

Definition scriptButtons (p : Page) (f : nat) : list nat :=
  positions
    (fun el => descendsFrom f el
               && (isTag "button" el
                   || (isTag "input" el && attrTest el (AttrIs "type" "submit"))))
    (elements p) 0.

Definition isSubmitAt (p : Page) (i : nat) : bool :=
  match element p i with Some el => looksLikeSubmit el | None => false end.

Definition scriptClick (p : Page) : M bool :=
  match firstForm p with
  | None => ret false
  | Some f =>
      let buttons := scriptButtons p f in
      let submitButton :=
        match find (isSubmitAt p) buttons with
        | Some b => Some b
        | None => match buttons with
                  | [] => None
                  | _ :: _ => Some (last buttons 0)
                  end
        end in
      match submitButton with
      | Some b => emit (ScriptClick b) ;; ret true
      | None => ret false
      end
  end.

(** The four strategies in sequence; each later one runs only while
    [buttonClicked] is still false. *)
Definition strategies (p : Page) : M bool :=
  emit (Strategy 1) ;;
  buttonClicked <- clickFirstVisible p submitSelectors ;;
  buttonClicked <-
    (if negb buttonClicked
     then emit (Strategy 2) ;; clickFirstVisible p textButtons
     else ret buttonClicked) ;;
  buttonClicked <-
    (if negb buttonClicked
     then emit (Strategy 3) ;; clickLastFormButton p
     else ret buttonClicked) ;;
  (if negb buttonClicked
   then emit (Strategy 4) ;; scriptClick p
   else ret buttonClicked).

(** The inner [try]: the strategies, then the report. *)
Definition submit (s : Session) (p : Page) : M bool :=
  tryCatch
    (buttonClicked <- strategies p ;;
     if buttonClicked then
       takeScreenshot s ;; ret true
     else
       emit (Log "Could not find or click submit button with any strategy") ;;
       ret false)
    (fun error => emit (Log "Error clicking submit button") ;; ret false).

(** Everything [fillAppointmentForm] does before it looks for the submit
    button: navigation, the wait for the form, the fields, and the
    screenshot taken before submitting.  Scrolling the form into view
    and the fixed pauses have no part in what follows and are left out. *)
Definition prepare (s : Session) (p : Page) (data : AppointmentData) : M unit :=
  goto s ;;
  waitForForm p ;;
  fillFields s p data ;;
  takeScreenshot s.

Definition fillAppointmentForm (s : Session) (p : Page) (data : AppointmentData)
  : M bool :=
  if negb (initialized s) then
    throw (Error "Browser not initialized. Call initialize() first.")
  else
    tryCatch
      (prepare s p data ;;
       submit s p)
      (fun error =>
         emit (Log "Error filling form") ;;
         takeScreenshot s ;;
         throw (Error ("Failed to fill appointment form: " ++ messageOf error))).

(** *** Reading a trace *)

Definition isClick (ev : Event) : bool :=
  match ev with
  | Click _ | ScriptClick _ => true
  | _ => false
  end.

Definition isWrite (ev : Event) : bool :=
  match ev with
  | Fill _ _ | Select _ _ => true
  | _ => false
  end.

(** A screenshot or a console line. *)
Definition isReport (ev : Event) : bool :=
  match ev with
  | Screenshot | Log _ => true
  | _ => false
  end.

(** Neither a click nor the announcement of a strategy. *)
Definition isQuiet (ev : Event) : bool :=
  match ev with
  | Click _ | ScriptClick _ | Strategy _ => false
  | _ => true
  end.

Definition quiet (tr : list Event) : Prop := forallb isQuiet tr = true.

(** What follows the first click of a trace. *)
Fixpoint afterFirstClick (tr : list Event) : list Event :=
  match tr with
  | [] => []
  | ev :: rest => if isClick ev then rest else afterFirstClick rest
  end.

(** The number of clicks in a trace. *)
Definition clicks (tr : list Event) : nat := length (filter isClick tr).

(** The strategies a trace announces, in order. *)
Fixpoint announced (tr : list Event) : list nat :=
  match tr with
  | [] => []
  | Strategy n :: rest => n :: announced rest
  | _ :: rest => announced rest
  end.

(** The text an input holds after a trace: the value of the last [fill]
    on it, if any. *)
Fixpoint valueAfter (tr : list Event) (target : nat) (before : option string)
  : option string :=
  match tr with
  | [] => before
  | Fill i v :: rest =>
      valueAfter rest target (if Nat.eqb i target then Some v else before)
  | _ :: rest => valueAfter rest target before
  end.

End Filler.

(* ===================================================================== *)
(** ** Concrete pages, sessions and recordings *)
(* ===================================================================== *)

Module Examples.
Import Dom.

(** A visible, enabled element inside the form at position 0. *)
Definition node (tag : string) (attrs : list (string * string)) (text : string)
  : Element :=
  mkElement tag attrs text true true true (Some 0) false None [].

Definition formNode : Element :=
  mkElement "form" [] "" true true true None false None [].

Definition dropdown (attrs : list (string * string)) (texts : list string) : Element :=
  mkElement "select" attrs (Js.join " " texts) true true true (Some 0) false None
            (map (fun t => mkOption t t) texts).

Definition hidden (el : Element) : Element :=
  mkElement (tagName el) (attributes el) (textContent el) false (editable el)
            (clickable el) (inForm el) (lastChild el) (closestLabel el) (options el).

Definition disabled (el : Element) : Element :=
  mkElement (tagName el) (attributes el) (textContent el) (visible el) false
            false (inForm el) (lastChild el) (closestLabel el) (options el).

Definition asLastChild (el : Element) : Element :=
  mkElement (tagName el) (attributes el) (textContent el) (visible el)
            (editable el) (clickable el) (inForm el) true (closestLabel el)
            (options el).

Definition timeDropdown : Element := dropdown [] ["-"; "9:00 AM"; "10:00 AM"].
Definition serviceDropdown : Element := dropdown [] ["-"; "Checkup"; "Cleaning"].
Definition submitButton : Element :=
  asLastChild (node "button" [("type", "submit")] "Book Appointment").

(** The booking form: name, phone, e-mail, date, two dropdowns, a
    comment box and a submit button. *)
Definition bookingForm : list Element :=
  [ formNode;
    node "input" [("name", "name"); ("placeholder", "First Last")] "";
    node "input" [("type", "tel"); ("placeholder", "Phone")] "";
    node "input" [("type", "email"); ("placeholder", "Email")] "";
    node "input" [("type", "date")] "";
    timeDropdown;
    serviceDropdown;
    node "textarea" [("placeholder", "Questions or Comments")] "" ].

Definition bookingPage : Page := mkPage (bookingForm ++ [submitButton])%list [].

(** The same form with a hidden copy of the submit button before the
    visible one, and a note after it. *)
Definition hiddenFirstPage : Page :=
  mkPage (bookingForm
          ++ [ hidden (node "button" [("type", "submit")] "");
               node "button" [("type", "submit")] "Submit";
               node "p" [] "We will call you back." ])%list [].

(** The same form with its only submit button disabled. *)
Definition disabledSubmitPage : Page :=
  mkPage (bookingForm ++ [disabled submitButton])%list [].

(** The same form without any button. *)
Definition noButtonPage : Page := mkPage bookingForm [].

(** A form whose name input is read-only. *)
Definition readOnlyNamePage : Page :=
  mkPage [ formNode;
           disabled (node "input" [("name", "name")] "");
           node "input" [("type", "email")] "";
           submitButton ] [].

(** A form whose date input is read-only. *)
Definition readOnlyDatePage : Page :=
  mkPage [ formNode;
           node "input" [("name", "name")] "";
           disabled (node "input" [("type", "date")] "");
           submitButton ] [].

(** A form whose native date input is hidden behind a date-picker
    widget. *)
Definition hiddenDatePage : Page :=
  mkPage [ formNode;
           node "input" [("name", "name")] "";
           hidden (node "input" [("type", "date")] "");
           node "button" [("aria-label", "Choose date")] "Select date";
           submitButton ] [].

(** 2025-11-02T17:45:00Z on a host whose local time is UTC. *)
Definition utcClock : JsDate.Clock := JsDate.mkClock 1762105500000 (fun _ _ => 0%Z).

(** 2025-11-03T02:00:00Z, which is 18:00 on 2 November on a host eight
    hours behind UTC. *)
Definition pacificEvening : JsDate.Clock :=
  JsDate.mkClock 1762135200000 (fun _ _ => (-28800000)%Z).

Definition session : Filler.Session :=
  Filler.mkSession true "https://dentist.example/" None None utcClock.

Definition request : Filler.AppointmentData :=
  Filler.mkData "Ada Lovelace" "ada@example.org" "555-0100" ""
                "10:00 AM" "cleaning" (Some "First visit").

(** The same request with a date. *)
Definition datedRequest : Filler.AppointmentData :=
  Filler.mkData "Ada Lovelace" "ada@example.org" "555-0100" "2025-12-01"
                "10:00 AM" "cleaning" (Some "First visit").

(** The same request with the time in lower case. *)
Definition lowerCaseTime : Filler.AppointmentData :=
  Filler.mkData "Ada Lovelace" "ada@example.org" "555-0100" ""
                "10:00 am" "cleaning" (Some "First visit").

(** Recorder: [sox] starts, and later reports an error. *)
Definition soxStarts : Recorder.StartEnv :=
  Recorder.mkStartEnv None "/app/temp" 1700000000000 (inr 4242).

Definition fileWritten : Recorder.StopEnv :=
  Recorder.mkStopEnv None true (inr 32768%Z).

Definition recording : Recorder.State :=
  snd (Recorder.startRecording soxStarts Recorder.initial).

Definition afterSoxError : Recorder.State := Recorder.onProcessError recording.

(** Intent service: stubs of the collaborators. *)
Definition noFile (path : string) : bool := false.
Definition noTranscript (path : string) : Exn + string := inl (Error "network").
Definition noCompletion (text : string) : Exn + option string := inr None.
Definition noJson (content : string) : option OpenAI.JsValue := None.

End Examples.
From Stdlib Require DecimalPos DecimalZ.

(* ===================================================================== *)
(** ** Regular expressions *)
(* ===================================================================== *)

Module Regex.

(** The patterns of the source use character classes, sequence,
    alternatives and repetition. *)
Inductive Re : Type :=
| Never
| Eps
| Class (accepts : ascii -> bool)
| Cat (r1 r2 : Re)
| Alt (r1 r2 : Re)
| Star (r : Re).

(** [r+], [r?] and [r{0,n}]. *)
Definition Plus (r : Re) : Re := Cat r (Star r).
Definition Opt (r : Re) : Re := Alt r Eps.

Fixpoint UpTo (n : nat) (r : Re) : Re :=
  match n with
  | O => Eps
  | S n' => Opt (Cat r (UpTo n' r))
  end.

(** A literal character. *)
Definition Chr (c : ascii) : Re := Class (Ascii.eqb c).

(** The strings a pattern matches as a whole. *)
Inductive Matches : Re -> string -> Prop :=
| MEps : Matches Eps ""
| MClass : forall f c, f c = true -> Matches (Class f) (String c "")
| MCat : forall r1 r2 s1 s2,
    Matches r1 s1 -> Matches r2 s2 -> Matches (Cat r1 r2) (s1 ++ s2)
| MAltL : forall r1 r2 s, Matches r1 s -> Matches (Alt r1 r2) s
| MAltR : forall r1 r2 s, Matches r2 s -> Matches (Alt r1 r2) s
| MStarNil : forall r, Matches (Star r) ""
| MStarApp : forall r s1 s2,
    Matches r s1 -> Matches (Star r) s2 -> Matches (Star r) (s1 ++ s2).

(** Matching by derivatives: [nullable r] says whether [r] matches the
    empty string, [deriv c r] matches what [r] matches after a [c]. *)
Fixpoint nullable (r : Re) : bool :=
  match r with
  | Never => false
  | Eps => true
  | Class _ => false
  | Cat r1 r2 => nullable r1 && nullable r2
  | Alt r1 r2 => nullable r1 || nullable r2
  | Star _ => true
  end.

Fixpoint deriv (c : ascii) (r : Re) : Re :=
  match r with
  | Never => Never
  | Eps => Never
  | Class f => if f c then Eps else Never
  | Cat r1 r2 =>
      if nullable r1
      then Alt (Cat (deriv c r1) r2) (deriv c r2)
      else Cat (deriv c r1) r2
  | Alt r1 r2 => Alt (deriv c r1) (deriv c r2)
  | Star r1 => Cat (deriv c r1) (Star r1)
  end.

(** [/^r$/.test(s)] *)
Fixpoint test (r : Re) (s : string) : bool :=
  match s with
  | EmptyString => nullable r
  | String c rest => test (deriv c r) rest
  end.

(** Every character of the string is in the class. *)
Fixpoint allIn (f : ascii -> bool) (s : string) : bool :=
  match s with
  | EmptyString => true
  | String c rest => f c && allIn f rest
  end.

End Regex.

(* ===================================================================== *)
(** ** Configuration and validation ([config.ts]) *)
(* ===================================================================== *)

Module Config.
Import Regex.

(** [[^\s@]] *)
Definition notSpaceOrAt (c : ascii) : bool :=
  negb (Js.isWhiteSpace c || Ascii.eqb c "@").

(** [/^[^\s@]+@[^\s@]+\.[^\s@]+$/] *)
Definition emailRegex : Re :=
  Cat (Plus (Class notSpaceOrAt))
      (Cat (Chr "@")
           (Cat (Plus (Class notSpaceOrAt))
                (Cat (Chr ".") (Plus (Class notSpaceOrAt))))).

Definition isValidEmail (email : string) : bool := test emailRegex email.

(** [[1-9]] *)
Definition isNonZeroDigit (c : ascii) : bool :=
  let n := nat_of_ascii c in Nat.leb 49 n && Nat.leb n 57.

(** [/^[\+]?[1-9][\d]{0,15}$/] *)
Definition phoneRegex : Re :=
  Cat (Opt (Chr "+")) (Cat (Class isNonZeroDigit) (UpTo 15 (Class Js.isDigit))).

(** [[\s\-\(\)\.]] *)
Definition isPhoneSeparator (c : ascii) : bool :=
  Js.isWhiteSpace c || Ascii.eqb c "-" || Ascii.eqb c "("
  || Ascii.eqb c ")" || Ascii.eqb c ".".

(** [phone.replace(/[\s\-\(\)\.]/g, '')] *)
Fixpoint cleanPhone (phone : string) : string :=
  match phone with
  | EmptyString => EmptyString
  | String c rest =>
      if isPhoneSeparator c then cleanPhone rest else String c (cleanPhone rest)
  end.

Definition isValidPhone (phone : string) : bool :=
  test phoneRegex (cleanPhone phone).

(** [Partial<AppointmentData>], as far as validation reads it: a missing
    property is [None]. *)
Record PartialData : Type := mkPartial {
  name : option string;
  email : option string;
  phone : option string
}.

(** [!s || s.trim().length === 0] *)
Definition blank (s : option string) : bool :=
  match s with
  | None => true
  | Some v => Js.isEmpty v || Js.isEmpty (Js.trim v)
  end.

Definition validateAppointmentData (data : PartialData) : list string :=
  let errors : list string := [] in
  let errors :=
    if blank (name data) then (errors ++ ["Name is required"])%list else errors in
  let errors :=
    if blank (email data) then (errors ++ ["Email is required"])%list
    else if negb (isValidEmail (match email data with Some e => e | None => "" end))
         then (errors ++ ["Email format is invalid"])%list
         else errors in
  let errors :=
    match phone data with
    | Some p =>
        if Js.truthy p && negb (isValidPhone p)
        then (errors ++ ["Phone number format is invalid"])%list
        else errors
    | None => errors
    end in
  errors.

End Config.

(* ===================================================================== *)
(** ** What a trace may hold *)
(* ===================================================================== *)

Module Targets.
Import Dom Locator Filler.

(** An event that respects the page: a navigation goes to the
    configured address; a fill, a selection and a click through a
    locator hit an element that exists, is visible and passes the
    action's check, and a selection picks an option the element has; a
    click made by the script inside the page hits a button or an input
    of the first form, visible or not. *)
Definition aimed (s : Session) (p : Page) (ev : Event) : bool :=
  match ev with
  | Navigate url => String.eqb url (dentistUrl s)
  | Fill i _ =>
      match element p i with
      | Some el => visible el && editable el
      | None => false
      end
  | Select i k =>
      match element p i with
      | Some el => visible el && editable el && Nat.ltb k (length (options el))
      | None => false
      end
  | Click i =>
      match element p i with
      | Some el => visible el && clickable el
      | None => false
      end
  | ScriptClick i =>
      match element p i, firstForm p with
      | Some el, Some f =>
          descendsFrom f el && (isTag "button" el || isTag "input" el)
      | _, _ => false
      end
  | Screenshot | Strategy _ | Log _ => true
  end.

End Targets.

(* ===================================================================== *)
(** ** The description of the form ([getFormFields]) *)
(* ===================================================================== *)

Module FormFields.
Import Dom Filler.

(** The states of the [type] attribute of an [<input>]. *)
Definition inputTypes : list string :=
  [ "hidden"; "text"; "search"; "tel"; "url"; "email"; "password"; "date";
    "month"; "week"; "time"; "datetime-local"; "number"; "range"; "color";
    "checkbox"; "radio"; "file"; "submit"; "image"; "reset"; "button" ].

(** The property [element.type] of a control: the state of an input's
    [type] attribute, [text] when it is missing or unknown; [textarea];
    [select-one] or [select-multiple]. *)
Definition typeOf (el : Element) : string :=
  if isTag "select" el then
    match getAttribute "multiple" el with
    | Some _ => "select-multiple"
    | None => "select-one"
    end
  else if isTag "textarea" el then "textarea"
  else
    let t := Js.toLowerCase (Js.orNull (getAttribute "type" el) "") in
    if existsb (String.eqb t) inputTypes then t else "text".

(** ['placeholder' in element ? element.placeholder || '' : ''] *)
Definition placeholderOf (el : Element) : string :=
  if isTag "select" el then ""
  else Js.orNull (getAttribute "placeholder" el) "".

(** [Array.from(selectEl.options).map(opt => opt.text || opt.value)
      .filter(o => o)] *)
Definition optionLabels (el : Element) : list string :=
  filter Js.truthy (map (fun opt => Js.or (text opt) (value opt)) (options el)).

Definition quote : string := String (ascii_of_nat 34) "".

(** The text recorded for a control. *)
Definition describe (el : Element) : string :=
  let type := Js.or (typeOf el) (tagName el) in
  let placeholder := placeholderOf el in
  if isTag "select" el then
    type ++ " - placeholder: " ++ quote ++ placeholder ++ quote
    ++ " | Options: [" ++ Js.join ", " (optionLabels el) ++ "]"
  else
    type ++ " - placeholder: " ++ quote ++ placeholder ++ quote.

(** A plain object whose values are strings: its own properties, in
    the order of their creation. *)
Definition Obj : Type := list (string * string).

(** [o[k]], [None] when [o] has no such property of its own. *)
Definition get (k : string) (o : Obj) : option string := assoc k o.

(** Creates or replaces the own property [k]. *)
Fixpoint set (k v : string) (o : Obj) : Obj :=
  match o with
  | [] => [(k, v)]
  | (k', v') :: rest =>
      if String.eqb k k' then (k, v) :: rest else (k', v') :: set k v rest
  end.

(** [o[k] = v] for a string [v]: the key [__proto__] is the accessor of
    [Object.prototype], whose setter ignores a string and creates no
    property. *)
Definition assign (k v : string) (o : Obj) : Obj :=
  if String.eqb k "__proto__" then o else set k v o.

(** The [forEach] over the controls, from the control of position
    [index] on. *)
Fixpoint record (p : Page) (inputs : list Element) (index : nat) (fieldInfo : Obj)
  : Obj :=
  match inputs with
  | [] => fieldInfo
  | element :: rest =>
      record p rest (S index)
             (assign (FieldNames.inferName p element index) (describe element)
                     fieldInfo)
  end.

(** The function evaluated in the page: [{}] without a form. *)
Definition fieldInfo (p : Page) : Obj := record p (FieldNames.controls p) 0 [].

Definition getFormFields (s : Session) (p : Page) : M Obj :=
  if negb (initialized s) then throw (Error "Browser not initialized")
  else
    tryCatch
      (goto s ;;
       waitForForm p ;;
       ret (fieldInfo p))
      (fun error =>
         emit (Log "Error getting form fields") ;;
         throw (Error ("Failed to get form fields: " ++ messageOf error))).

End FormFields.

(* ===================================================================== *)
(** ** Names taken from labels *)
(* ===================================================================== *)

Module Labels.

(** A character a name taken from a label may hold: no white space, no
    colon, no asterisk, and no letter in upper case. *)
Definition tidy (c : ascii) : bool :=
  negb (Js.isWhiteSpace c)
  && negb (Ascii.eqb c ":" || Ascii.eqb c "*")
  && Ascii.eqb (Js.lowerChar c) c.

End Labels.

(* ===================================================================== *)
(** ** The life of the browser ([initialize], [close]) *)
(* ===================================================================== *)

Module Lifecycle.

(** The fields [browser] and [page] of the filler object; [None] is
    [null], a handle is a number. *)
Record Handles : Type := mkHandles {
  browser : option nat;
  page : option nat
}.

(** The field initialisers of the class. *)
Definition fresh : Handles := {| browser := None; page := None |}.

(** What the automation library answers during one [initialize]. *)
Record LaunchEnv : Type := mkLaunchEnv {
  launch : Exn + nat;
  newPage : Exn + nat;
  setViewportSize : option Exn
}.

(** The [catch] block of [initialize]. *)
Definition initializeFailed (h : Handles) (error : Exn) : Outcome unit * Handles :=
  (Threw (Error ("Failed to initialize browser: " ++ messageOf error)), h).

Definition initialize (env : LaunchEnv) (h : Handles) : Outcome unit * Handles :=
  match launch env with
  | inl error => initializeFailed h error
  | inr b =>
      let h1 := {| browser := Some b; page := page h |} in
      match newPage env with
      | inl error => initializeFailed h1 error
      | inr pg =>
          let h2 := {| browser := Some b; page := Some pg |} in
          match setViewportSize env with
          | Some error => initializeFailed h2 error
          | None => (Returned tt, h2)
          end
      end
  end.

(** What it answers during one [close]. *)
Record CloseEnv : Type := mkCloseEnv {
  pageClose : option Exn;
  browserClose : option Exn
}.

(** The [catch] block of [close]. *)
Definition closeFailed (h : Handles) (error : Exn) : Outcome unit * Handles :=
  (Threw (Error ("Failed to close browser: " ++ messageOf error)), h).

Definition close (env : CloseEnv) (h : Handles) : Outcome unit * Handles :=
  (* if (this.page) { await this.page.close(); this.page = null; } *)
  let afterPage : Exn + Handles :=
    match page h with
    | Some _ =>
        match pageClose env with
        | Some error => inl error
        | None => inr {| browser := browser h; page := None |}
        end
    | None => inr h
    end in
  match afterPage with
  | inl error => closeFailed h error
  | inr h1 =>
      (* if (this.browser) { await this.browser.close(); this.browser = null; } *)
      match browser h1 with
      | Some _ =>
          match browserClose env with
          | Some error => closeFailed h1 error
          | None => (Returned tt, {| browser := None; page := page h1 |})
          end
      | None => (Returned tt, h1)
      end
  end.

(** The guard [if (!this.page)] of the methods that use the page. *)
Definition hasPage (h : Handles) : bool :=
  match page h with Some _ => true | None => false end.

(** The surroundings of a call made on a filler that holds [h]. *)
Definition withHandles (h : Handles) (s : Filler.Session) : Filler.Session :=
  Filler.mkSession (hasPage h) (Filler.dentistUrl s) (Filler.gotoFails s)
                   (Filler.screenshotFails s) (Filler.clock s).

(** The handles a filler object can hold: it is constructed, and then
    [initialize] and [close] are called in any order. *)
Inductive reachable : Handles -> Prop :=
| reach_new : reachable fresh
| reach_initialize : forall env h, reachable h -> reachable (snd (initialize env h))
| reach_close : forall env h, reachable h -> reachable (snd (close env h)).

End Lifecycle.

(* ===================================================================== *)
(** ** The application ([AppointmentBookingApp]) *)
(* ===================================================================== *)

Module App.
Import Filler.

(** The appointment [handleIntent] books, whatever was said; the mock
    data of the command line is the same record. *)
Definition appointmentData : AppointmentData :=
  mkData "Hitesh Jain" "hitesh@gmail.com" "1234567890" "2025-10-10"
         "10:00 AM" "Checkup" (Some "I have a toothache").

Definition getMockData : AppointmentData := appointmentData.

(** [v === s] *)
Definition isString (v : OpenAI.JsValue) (s : string) : bool :=
  match v with
  | OpenAI.JString x => String.eqb x s
  | _ => false
  end.

(** The console lines are left out, those of the [catch] blocks
    apart. *)
Definition handleIntent (s : Session) (p : Dom.Page)
    (intentResult : OpenAI.IntentResult) : M bool :=
  if negb (isString (OpenAI.intent intentResult) "book_appointment") then
    ret false
  else
    match OpenAI.status intentResult with
    | OpenAI.failure => ret false
    | OpenAI.success =>
        tryCatch
          (success <- fillAppointmentForm s p appointmentData ;;
           if success then ret true else ret false)
          (fun error => emit (Log "Error filling form") ;; ret false)
    end.

(** The record as [validateAppointmentData] reads it. *)
Definition asPartial (data : AppointmentData) : Config.PartialData :=
  Config.mkPartial (Some (name data)) (Some (email data)) (Some (phone data)).

Definition testWithManualData (s : Session) (p : Dom.Page)
    (data : AppointmentData) : M bool :=
  tryCatch
    (let validationErrors := Config.validateAppointmentData (asPartial data) in
     if Nat.ltb 0 (length validationErrors) then ret false
     else
       success <- fillAppointmentForm s p data ;;
       ret success)
    (fun error => emit (Log "Error in manual test") ;; ret false).

(** What the surroundings answer during one [processVoiceCommand]: the
    operating system at the start and at the end of the recording,
    whether the recording process reports an error in between, whether
    the recorded file exists after the recording and when the call
    ends, and whether speaking a text fails.  A failure to remove the
    file is caught where it happens and changes nothing. *)
Record VoiceEnv : Type := mkVoiceEnv {
  startEnv : Recorder.StartEnv;
  processError : bool;
  stopEnv : Recorder.StopEnv;
  recorded : string -> bool;
  playTextToSpeech : OpenAI.JsValue -> option Exn;
  present : string -> bool
}.

(** The same surroundings with another speech command. *)
Definition withSpeech (say : OpenAI.JsValue -> option Exn) (env : VoiceEnv)
  : VoiceEnv :=
  {| startEnv := startEnv env; processError := processError env;
     stopEnv := stopEnv env; recorded := recorded env;
     playTextToSpeech := say; present := present env |}.

(** What one call leaves behind: its result, the recorder, what the
    browser was made to do, the text that was given to the speech
    command, and the file whose removal was attempted. *)
Record VoiceRun : Type := mkVoiceRun {
  result : bool;
  recorder : Recorder.State;
  browser : list Event;
  spoken : option OpenAI.JsValue;
  removed : option string
}.

Section Voice.

Variable fs_pathExists : string -> bool.
Variable transcriptions_create : string -> Exn + string.
Variable completions_create : string -> Exn + option string.
Variable JSON_parse : string -> option OpenAI.JsValue.

(** The [finally] block, for the value [audioFilePath] holds when it
    runs: [None] is [null]. *)
Definition cleanup (env : VoiceEnv) (audioFilePath : option string) : option string :=
  match audioFilePath with
  | Some path => if Js.truthy path && present env path then Some path else None
  | None => None
  end.

Definition processVoiceCommand (env : VoiceEnv) (rec : Recorder.State)
    (s : Session) (p : Dom.Page) : VoiceRun :=
  let failed rec tr said audioFilePath :=
    {| result := false; recorder := rec; browser := tr; spoken := said;
       removed := cleanup env audioFilePath |} in
  match Recorder.startRecording (startEnv env) rec with
  | (Threw _, rec1) => failed rec1 [] None None
  | (Returned _, rec1) =>
      let rec2 := if processError env then Recorder.onProcessError rec1 else rec1 in
      match Recorder.stopRecording (stopEnv env) rec2 with
      | (Threw _, rec3) => failed rec3 [] None None
      | (Returned audioFilePath, rec3) =>
          if negb (Js.truthy audioFilePath) || negb (recorded env audioFilePath)
          then failed rec3 [] None (Some audioFilePath)
          else
            match OpenAI.processAudioCommand fs_pathExists transcriptions_create
                    completions_create JSON_parse audioFilePath with
            | Threw _ => failed rec3 [] None (Some audioFilePath)
            | Returned intentResult =>
                match handleIntent s p intentResult with
                | (tr, Threw _) => failed rec3 tr None (Some audioFilePath)
                | (tr, Returned handled) =>
                    let text := OpenAI.response intentResult in
                    match playTextToSpeech env text with
                    | Some _ => failed rec3 tr (Some text) (Some audioFilePath)
                    | None =>
                        {| result := handled; recorder := rec3; browser := tr;
                           spoken := Some text;
                           removed := cleanup env (Some audioFilePath) |}
                    end
                end
            end
      end
  end.

End Voice.

End App.

(* ===================================================================== *)
(** ** Further scenarios *)
(* ===================================================================== *)

Module Scenarios.
Import Dom.

(** Intent service: the file is there, the recording is transcribed,
    and the model's answer parses to a booking intent. *)
Definition anyFile (path : string) : bool := true.
Definition heard (path : string) : Exn + string :=
  inr "I would like to book a cleaning".
Definition answered (text : string) : Exn + option string :=
  inr (Some "{intent: book_appointment, response: Booking your appointment now.}").
Definition booking : OpenAI.JsValue :=
  OpenAI.JObject [ ("intent", OpenAI.JString "book_appointment");
                   ("response", OpenAI.JString "Booking your appointment now.") ].
Definition parsed (content : string) : option OpenAI.JsValue := Some booking.

(** A form that asks for the e-mail address twice, under one name. *)
Definition emailInput : Element :=
  Examples.node "input" [("name", "email"); ("type", "email");
                         ("placeholder", "Email")] "".
Definition confirmInput : Element :=
  Examples.node "input" [("name", "email"); ("placeholder", "Confirm e-mail")] "".
Definition twoEmailsPage : Page :=
  mkPage [ Examples.formNode; emailInput; confirmInput; Examples.submitButton ] [].

(** An input without attributes inside a label. *)
Definition labelledInput : Element :=
  mkElement "input" [] "" true true true (Some 0) false
            (Some "  Preferred Date: *") [].

(** A voice command for which everything works. *)
Definition allGoesWell : App.VoiceEnv :=
  App.mkVoiceEnv Examples.soxStarts false Examples.fileWritten
                 (fun _ => true) (fun _ => None) (fun _ => true).

(** A form whose only submit control is an [<input type="submit">] that
    is not rendered. *)
Definition hiddenSubmitInputPage : Page :=
  mkPage [ Examples.formNode;
           Examples.node "input" [("name", "name")] "";
           Examples.hidden (Examples.node "input" [("type", "submit")] "") ] [].

End Scenarios.

(* ===================================================================== *)
(** * Properties *)
(* ===================================================================== *)

(** ** Field-name inference *)

Section FieldNameInference.
Import Dom FieldNames.

Lemma truthy_isEmpty (s : string) : Js.truthy s = negb (Js.isEmpty s).
Proof. reflexivity. Qed.

Lemma isEmpty_false (s : string) : Js.isEmpty s = false <-> s <> "".
Proof. destruct s; simpl; split; intro H; congruence. Qed.

Lemma or_empty_r (s : string) : Js.or s "" = s.
Proof. destruct s; reflexivity. Qed.

(** The last step of the inference makes every name non-empty. *)
Lemma inferName_truthy (p : Page) (el : Element) (i : nat) :
  Js.truthy (inferName p el i) = true.
Proof.
  unfold inferName; cbv zeta.
  match goal with
  | |- Js.truthy (if Js.isEmpty ?n then _ else _) = true =>
      destruct (Js.isEmpty n) eqn:E
  end.
  - reflexivity.
  - rewrite truthy_isEmpty, E; reflexivity.
Qed.

Lemma inferAll_length (p : Page) (cs : list Element) (i : nat) :
  length (inferAll p cs i) = length cs.
Proof.
  revert i; induction cs as [|c cs IH]; intro i; simpl; [reflexivity|].
  now rewrite IH.
Qed.

Lemma inferAll_nth (p : Page) (cs : list Element) (from k : nat) (el : Element) :
  nth_error cs k = Some el ->
  nth_error (inferAll p cs from) k = Some (inferName p el (from + k)).
Proof.
  revert from k; induction cs as [|c cs IH]; intros from k H.
  - destruct k; discriminate.
  - destruct k as [|k]; simpl in *.
    + injection H as ->. now rewrite Nat.add_0_r.
    + rewrite (IH (S from) k H). f_equal. f_equal. lia.
Qed.

(** [/\d+:\d+/] matches exactly the strings that hold a digit, a colon
    and a digit in a row. *)
Lemma timeShapeHere_sound (r : string) :
  forall c, Js.isDigit c = true ->
    (exists c2 post, Js.skipDigits r = String ":" (String c2 post)
                     /\ Js.isDigit c2 = true) ->
    hasTimeShape (String c r).
Proof.
  induction r as [|x r IH]; intros c Hc (c2 & post & Hskip & Hc2).
  - discriminate.
  - simpl in Hskip. destruct (Js.isDigit x) eqn:Hx.
    + destruct (IH x Hx) as (pre & d1 & d2 & post' & Heq & Hd1 & Hd2).
      { now exists c2, post. }
      exists (String c pre), d1, d2, post'. simpl. now rewrite Heq.
    + injection Hskip as -> ->.
      exists "", c, c2, post. now simpl.
Qed.

Lemma testTimeShape_spec (s : string) :
  Js.testTimeShape s = true <-> hasTimeShape s.
Proof.
  split.
  - induction s as [|c r IH]; simpl; intro H.
    + discriminate.
    + apply orb_true_iff in H as [H|H].
      * apply andb_true_iff in H as [Hc H].
        apply timeShapeHere_sound; [assumption|].
        destruct (Js.skipDigits r) as [|c1 [|c2 post]]; try discriminate.
        apply andb_true_iff in H as [H1 H2].
        apply Ascii.eqb_eq in H1 as ->. now exists c2, post.
      * destruct (IH H) as (pre & d1 & d2 & post & -> & Hd1 & Hd2).
        now exists (String c pre), d1, d2, post.
  - intros (pre & d1 & d2 & post & -> & Hd1 & Hd2).
    induction pre as [|x pre IH].
    + simpl. rewrite Hd1, Hd2. reflexivity.
    + change (Js.testTimeShape (String x (pre ++ String d1 (String ":" (String d2 post)))) = true).
      simpl Js.testTimeShape. rewrite IH. apply orb_true_r.
Qed.

(** Case analysis on the six vocabulary tests of the sniffing stage. *)
Ltac sniff_words :=
  repeat match goal with
         | |- context [Js.includes ?w ?t] =>
             destruct (Js.includes w t); try reflexivity; try discriminate
         end.

(** The source's chain of [if (!name)] steps is the specification's
    "first non-empty signal wins". *)
Lemma inferName_refines (p : Page) (el : Element) (i : nat) :
  inferName p el i = spec_inferFieldName p el i.
Proof.
  unfold inferName, spec_inferFieldName, signals, labelSignal, sniffSignal,
    Dom.name, Dom.id.
  destruct (Js.orNull (getAttribute "name" el) "") as [|c1 r1];
    [|reflexivity].
  destruct (Js.orNull (getAttribute "id" el) "") as [|c2 r2];
    [|reflexivity].
  destruct (Js.orNull (getAttribute "aria-label" el) "") as [|c3 r3];
    [|reflexivity].
  destruct (labelOf p el) as [t|];
    [destruct (Js.underscoreSpaces _) as [|c4 r4]; [|reflexivity]|];
    (destruct (Js.orNull (getAttribute "data-name" el) _) as [|c5 r5];
       [|reflexivity]);
    (destruct (isTag "select" el); [|reflexivity]);
    (destruct (looksLikeTime (allOptionsText el)); [reflexivity|]);
    simpl; sniff_words.
Qed.

(** When the label stage is reached the control has no id, so the
    [label[for=..]] query is never run: only the enclosing label counts. *)
Lemma label_stage_has_no_id (p : Page) (el : Element) :
  Js.or (Dom.name el) (Dom.id el) = "" -> labelOf p el = closestLabel el.
Proof.
  unfold labelOf, Js.or.
  destruct (Dom.name el) as [|c r]; simpl; [|discriminate].
  intros ->. reflexivity.
Qed.

(** A non-empty [name] attribute decides both inferences. *)
Lemma name_attribute_decides (p : Page) (el : Element) (k : nat) (n : string) :
  getAttribute "name" el = Some n -> n <> "" ->
  inferName p el k = n /\ getFieldName p el = n.
Proof.
  intros Hn Hne. unfold inferName, getFieldName, Dom.name.
  rewrite Hn. destruct n as [|c r]; [congruence|]. split; reflexivity.
Qed.

(** C3.  Field-name inference is total and never answers the empty
    string: [getFormFields] gives every control of the form exactly one
    name, the non-empty [inferName] of the control at its position; and a
    control with no signal at all, attribute, label or option text, is
    named [field_<index>]. *)
Theorem field_name_inference_total (p : Page) :
  length (getFormFields_names p) = length (controls p)
  /\ (forall k el, nth_error (controls p) k = Some el ->
        nth_error (getFormFields_names p) k = Some (inferName p el k)
        /\ inferName p el k <> "")
  /\ (forall k el, firstNonEmpty (firstn 6 (signals p el k)) = "" ->
        inferName p el k = "field_" ++ Js.ofNat k).
Proof.
  unfold getFormFields_names. split; [apply inferAll_length|]. split.
  - intros k el H. split.
    + apply (inferAll_nth p _ 0 k el H).
    + apply isEmpty_false. pose proof (inferName_truthy p el k) as T.
      rewrite truthy_isEmpty in T. now destruct (Js.isEmpty _).
  - intros k el H. rewrite inferName_refines. unfold spec_inferFieldName.
    unfold signals in *. simpl firstn in H. simpl in H |- *.
    repeat match type of H with
           | (if Js.truthy ?s then _ else _) = "" =>
               destruct s; simpl in H |- *; [|discriminate]
           end.
    reflexivity.
Qed.

(** C4.  A control with a non-empty [name] attribute is named by that
    attribute, verbatim, whatever else it carries; and in general the
    name is the first non-empty one of the signals in the order [name],
    [id], [aria-label], label text, [data-name] / [data-field], option
    sniffing, position. *)
Theorem name_attribute_first (p : Page) (el : Element) (k : nat) :
  (forall n, getAttribute "name" el = Some n -> n <> "" ->
     inferName p el k = n /\ getFieldName p el = n)
  /\ inferName p el k = firstNonEmpty (signals p el k).
Proof.
  split.
  - intros n. apply name_attribute_decides.
  - apply inferName_refines.
Qed.

(** C8.  A select that reaches the sniffing stage, in [getFormFields]
    (no name, id, aria-label, label text or data attribute) or in
    [getFieldName] (no name, id or label), is named by the joined texts
    of its non-blank options: [appointment_time] when they hold [AM],
    [PM] or a digit, a colon and a digit in a row; otherwise
    [service_type] when they hold one of the six service words. *)
Theorem option_sniffing (p : Page) (el : Element) (k : nat) :
  isTag "select" el = true ->
  let text := allOptionsText el in
  let time := Js.includes "AM" text || Js.includes "PM" text
              || Js.testTimeShape text in
  let service := existsb (fun w => Js.includes w text) serviceWords in
  (Js.testTimeShape text = true <-> hasTimeShape text)
  /\ (firstNonEmpty (firstn 5 (signals p el k)) = "" ->
      (time = true -> inferName p el k = "appointment_time")
      /\ (time = false -> service = true -> inferName p el k = "service_type"))
  /\ (Dom.name el = "" -> Dom.id el = "" -> labelOf p el = None ->
      (time = true -> getFieldName p el = "appointment_time")
      /\ (time = false -> service = true -> getFieldName p el = "service_type")).
Proof.
  intros Hsel text time service. split; [apply testTimeShape_spec|]. split.
  - intro H. rewrite inferName_refines. unfold spec_inferFieldName.
    unfold signals in *. simpl firstn in H. simpl in H |- *.
    repeat match type of H with
           | (if Js.truthy ?s then _ else _) = "" =>
               destruct s; simpl in H |- *; [|discriminate]
           end.
    unfold sniffSignal. rewrite Hsel. fold text.
    unfold looksLikeTime. fold time. split.
    + intros ->. reflexivity.
    + intros -> Hs. subst service. rewrite Hs. reflexivity.
  - intros Hn Hi Hl. unfold getFieldName.
    unfold Dom.name, Dom.id, Js.orNull in Hn, Hi.
    rewrite Hl, Hsel. fold text. unfold looksLikeTime. fold time.
    assert (Hfalsy :
      match match getAttribute "name" el with
            | Some n => if Js.truthy n then Some n else getAttribute "id" el
            | None => getAttribute "id" el
            end with
      | Some s => Js.isEmpty s
      | None => true
      end = true).
    { destruct (getAttribute "name" el) as [n|];
        [rewrite or_empty_r in Hn; subst n; simpl|];
        (destruct (getAttribute "id" el) as [i|];
           [rewrite or_empty_r in Hi; subst i|]); reflexivity. }
    rewrite Hfalsy. split.
    + intros ->. reflexivity.
    + intros -> Hs. unfold service, serviceWords in Hs. simpl in Hs.
      rewrite orb_false_r, !orb_assoc in Hs.
      rewrite Hs. reflexivity.
Qed.

End FieldNameInference.

(** ** The audio recorder *)

Section RecorderState.
Import Recorder.

Lemma startRecording_holdsProcess (env : StartEnv) (s : State) :
  holdsProcess s -> holdsProcess (snd (startRecording env s)).
Proof.
  unfold holdsProcess, startRecording, startFailed, setRecording.
  intro H. destruct (isCurrentlyRecording s) eqn:E; simpl.
  - rewrite E. exact H.
  - destruct (ensureDir env); simpl; [discriminate|].
    destruct (spawn env); simpl; discriminate.
Qed.

Lemma stopRecording_not_recording (env : StopEnv) (s : State) :
  holdsProcess s -> isCurrentlyRecording (snd (stopRecording env s)) = false.
Proof.
  unfold holdsProcess, stopRecording, stopFailed, reset. intro H.
  destruct (isCurrentlyRecording s) eqn:E; simpl; [|exact E].
  destruct (recordingProcess s) eqn:P; [|now elim H].
  destruct (kill env); simpl; [reflexivity|].
  destruct (pathExists env); simpl; [|reflexivity].
  destruct (stat env); reflexivity.
Qed.

Lemma reachable_holdsProcess (s : State) : reachable s -> holdsProcess s.
Proof.
  induction 1 as [|env s _ IH|env s _ IH|s _ IH Hp].
  - intro H; discriminate.
  - now apply startRecording_holdsProcess.
  - intro H. rewrite (stopRecording_not_recording env s IH) in H. discriminate.
  - intro H; discriminate.
Qed.

(** A call that finds a recording in progress resets all three fields,
    whether it returns the path or throws. *)
Lemma stopRecording_resets (env : StopEnv) (s : State) :
  isCurrentlyRecording s = true -> recordingProcess s <> None ->
  snd (stopRecording env s) = reset s
  /\ (fst (stopRecording env s) = Returned (audioFilePath s)
      \/ exists e, fst (stopRecording env s)
                   = Threw (Error ("Failed to stop recording: " ++ messageOf e))).
Proof.
  intros E P. unfold stopRecording, stopFailed. rewrite E.
  destruct (recordingProcess s); [simpl|congruence].
  destruct (kill env) as [e|]; simpl; [split; eauto|].
  destruct (pathExists env); simpl.
  - destruct (stat env) as [e|z]; simpl; split; eauto.
  - split; [reflexivity|]. right. now exists (Error "Recording file was not created").
Qed.

(** A call that finds none throws and leaves the object as it was. *)
Lemma stopRecording_refused (env : StopEnv) (s : State) :
  isCurrentlyRecording s = false ->
  stopRecording env s = (Threw (Error "No recording in progress"), s).
Proof. unfold stopRecording. intros ->. reflexivity. Qed.

(** C10, as the code has it.  After any completed call to
    [stopRecording] on a recorder, [isRecording()] is false, so that a
    following [startRecording] is not refused as already in progress and
    a second [stopRecording] throws [No recording in progress]; and when
    the call found a recording in progress, whether it then returned the
    path or threw, the process handle is null and the stored path is
    empty as well. *)
Theorem stopRecording_leaves_idle (env : StopEnv) (s : State) :
  reachable s ->
  let after := snd (stopRecording env s) in
  isRecording after = false
  /\ (isRecording s = true ->
      recordingProcess after = None /\ audioFilePath after = "")
  /\ (forall env', fst (startRecording env' after)
                   <> Threw (Error "Recording is already in progress"))
  /\ (forall env', stopRecording env' after
                   = (Threw (Error "No recording in progress"), after)).
Proof.
  intros R after.
  pose proof (reachable_holdsProcess s R) as Inv.
  assert (Idle : isCurrentlyRecording after = false)
    by now apply stopRecording_not_recording.
  split; [exact Idle|]. split; [|split].
  - intro E. unfold isRecording in E. unfold after.
    destruct (stopRecording_resets env s E (Inv E)) as [-> _]. now split.
  - intro env'. unfold startRecording, startFailed. rewrite Idle.
    destruct (ensureDir env'); simpl; [discriminate|].
    destruct (spawn env'); simpl; discriminate.
  - intro env'. now apply stopRecording_refused.
Qed.

End RecorderState.

(** ** The intent service *)

Section IntentService.
Import OpenAI.

Variable fs_pathExists : string -> bool.
Variable transcriptions_create : string -> Exn + string.
Variable completions_create : string -> Exn + option string.
Variable JSON_parse : string -> option JsValue.

Let transcribe := transcribeAudio fs_pathExists transcriptions_create.
Let analyze := analyzeIntent completions_create JSON_parse.
Let process :=
  processAudioCommand fs_pathExists transcriptions_create completions_create
                      JSON_parse.

(** What validation leaves is one of the three intents. *)
Lemma validate_known (r : IntentResult) : isKnownIntent (intent (validate r)) = true.
Proof.
  unfold validate.
  destruct (falsy (intent r) || negb (isKnownIntent (intent r))) eqn:E.
  - reflexivity.
  - apply orb_false_iff in E as [_ E]. now apply negb_false_iff in E.
Qed.

(** An intent outside the three is replaced by ['unclear']; one of the
    three is kept. *)
Lemma validate_coerces (r : IntentResult) :
  (isKnownIntent (intent r) = false -> intent (validate r) = JString "unclear")
  /\ (isKnownIntent (intent r) = true -> validate r = r).
Proof.
  unfold validate. split; intro H; rewrite H; simpl.
  - now rewrite orb_true_r.
  - rewrite orb_false_r. destruct (intent r) as [| | | |s| |]; try discriminate.
    simpl. destruct s; [discriminate|reflexivity].
Qed.

(** Output the parser rejects gives the fallback result. *)
Lemma parseResult_unparsable (content : string) :
  JSON_parse content = None ->
  validate (parseResult JSON_parse content)
  = {| intent := JString "unclear";
       response := JString "Could not parse AI response";
       status := failure |}.
Proof. unfold parseResult. intros ->. reflexivity. Qed.

(** Whatever was thrown on the way, the [catch] block answers. *)
Lemma process_after_throw (audioFilePath : string) (e : Exn) :
  (transcribe audioFilePath = Threw e
   \/ exists t, transcribe audioFilePath = Returned t /\ analyze t = Threw e) ->
  process audioFilePath
  = Returned {| intent := JString "unclear";
                response := JString ("Failed to process audio command: "
                                     ++ messageOf e);
                status := failure |}.
Proof.
  unfold process, processAudioCommand. fold transcribe. fold analyze.
  intros [H|(t & H & H')]; rewrite H; [|rewrite H']; reflexivity.
Qed.


End IntentService.

(** ** Dates *)

Section Calendar.
Import JsDate.
Local Open Scope Z_scope.

(** Case analysis on the comparisons of the calendar conversions. *)
Ltac calendar_cases :=
  repeat match goal with
         | |- context [?a <=? ?b] =>
             let E := fresh "E" in
             destruct (Z.leb_spec a b) as [E|E]
         | |- context [?a <? ?b] =>
             let E := fresh "E" in
             destruct (Z.ltb_spec a b) as [E|E]
         end.

Lemma day_in_era (z : Z) : 0 <= z - z / 146097 * 146097 <= 146096.
Proof. Z.div_mod_to_equations. lia. Qed.

Lemma year_of_era (doe : Z) :
  0 <= doe <= 146096 ->
  let yoe := (doe - doe / 1460 + doe / 36524 - doe / 146096) / 365 in
  let doy := doe - (365 * yoe + yoe / 4 - yoe / 100) in
  0 <= yoe <= 399 /\ 0 <= doy <= 365.
Proof. intros H yoe doy. subst doy yoe. Z.div_mod_to_equations. lia. Qed.

Lemma month_of_year (doy : Z) :
  0 <= doy <= 365 ->
  let mp := (5 * doy + 2) / 153 in
  let d := doy - (153 * mp + 2) / 5 + 1 in
  0 <= mp <= 11 /\ 1 <= d <= 31.
Proof. intros H mp d. subst d mp. Z.div_mod_to_equations. lia. Qed.

(** The month and the day of the month are in range. *)
Lemma civilFromDays_range (z : Z) :
  let '(y, m, d) := civilFromDays z in 1 <= m <= 12 /\ 1 <= d <= 31.
Proof.
  unfold civilFromDays.
  set (z' := z + 719468).
  pose proof (day_in_era z') as Hdoe.
  set (doe := z' - z' / 146097 * 146097) in *.
  pose proof (year_of_era doe Hdoe) as [Hyoe Hdoy].
  set (yoe := (doe - doe / 1460 + doe / 36524 - doe / 146096) / 365) in *.
  set (doy := doe - (365 * yoe + yoe / 4 - yoe / 100)) in *.
  pose proof (month_of_year doy Hdoy) as [Hmp Hd].
  set (mp := (5 * doy + 2) / 153) in *.
  cbv zeta. split; [|exact Hd].
  calendar_cases; lia.
Qed.

(** Going to the calendar and back gives the day number again. *)
Lemma daysFromCivil_civilFromDays (z : Z) :
  let '(y, m, d) := civilFromDays z in daysFromCivil y m d = z.
Proof.
  unfold civilFromDays.
  set (z' := z + 719468).
  pose proof (day_in_era z') as Hdoe.
  set (era := z' / 146097).
  set (doe := z' - era * 146097) in *.
  pose proof (year_of_era doe Hdoe) as [Hyoe Hdoy].
  set (yoe := (doe - doe / 1460 + doe / 36524 - doe / 146096) / 365) in *.
  set (doy := doe - (365 * yoe + yoe / 4 - yoe / 100)) in *.
  pose proof (month_of_year doy Hdoy) as [Hmp Hd].
  set (mp := (5 * doy + 2) / 153) in *.
  cbv zeta. unfold daysFromCivil.
  assert (Hera : (yoe + era * 400) / 400 = era).
  { rewrite Z.div_add by lia. rewrite Z.div_small by lia. lia. }
  calendar_cases; try lia.
  - replace (yoe + era * 400 + 1 - 1) with (yoe + era * 400) by lia.
    replace (mp - 9 + 9) with mp by lia.
    rewrite Hera. replace (yoe + era * 400 - era * 400) with yoe by lia.
    subst doy doe z'. lia.
  - replace (mp + 3 - 3) with mp by lia.
    rewrite Hera. replace (yoe + era * 400 - era * 400) with yoe by lia.
    subst doy doe z'. lia.
Qed.

(** The day number is affine in the day of the month. *)
Lemma daysFromCivil_day (y m d : Z) :
  daysFromCivil y m d = daysFromCivil y m 1 + d - 1.
Proof. unfold daysFromCivil. lia. Qed.

(** [MakeDay] of the calendar fields of a time value, with the day of the
    month moved by [k], is the day number moved by [k]. *)
Lemma MakeDay_shift (t k : Z) :
  MakeDay (YearFromTime t) (MonthFromTime t) (DateFromTime t + k) = Day t + k.
Proof.
  unfold MakeDay, YearFromTime, MonthFromTime, DateFromTime.
  pose proof (civilFromDays_range (Day t)) as R.
  pose proof (daysFromCivil_civilFromDays (Day t)) as E.
  destruct (civilFromDays (Day t)) as [[y m] d]. simpl fst; simpl snd.
  destruct R as [Rm Rd].
  rewrite (Z.div_small (m - 1) 12) by lia.
  rewrite (Z.mod_small (m - 1) 12) by lia.
  replace (y + 0) with y by lia. replace (m - 1 + 1) with m by lia.
  rewrite daysFromCivil_day in E. lia.
Qed.

Lemma MakeDate_Day (t k : Z) :
  MakeDate (Day t + k) (TimeWithinDay t) = t + k * msPerDay.
Proof.
  unfold MakeDate, Day, TimeWithinDay, msPerDay.
  pose proof (Z.div_mod t 86400000). lia.
Qed.

Lemma Day_shift (t k : Z) : Day (t + k * msPerDay) = Day t + k.
Proof. unfold Day, msPerDay. now rewrite Z.div_add by lia. Qed.

(** [setDate(getDate() + 7)] moves the local time by seven days and
    converts it back with the offset in force at the new local time. *)
Lemma setDate_week (c : Clock) (t : Z) :
  setDate c t (getDate c t + 7)
  = LocalTime c t + 7 * msPerDay - LocalTZA c (LocalTime c t + 7 * msPerDay) false.
Proof.
  unfold setDate, getDate. cbv zeta.
  rewrite MakeDay_shift, MakeDate_Day. reflexivity.
Qed.

(** Fixed-width digits are digits, and none of them is the letter T. *)
Lemma digitChar_digit (d : Z) :
  0 <= d < 10 ->
  Js.isDigit (digitChar d) = true /\ Ascii.eqb (digitChar d) "T" = false.
Proof.
  intro H. unfold digitChar.
  assert (C : (Z.to_nat d < 10)%nat) by lia.
  destruct (Z.to_nat d) as [|[|[|[|[|[|[|[|[|[|n]]]]]]]]]];
    try (split; reflexivity); lia.
Qed.

Lemma freeOf_app (sep : ascii) (a b : string) :
  freeOf sep (a ++ b) = freeOf sep a && freeOf sep b.
Proof.
  induction a as [|x a IH]; simpl; [reflexivity|].
  now rewrite IH, andb_assoc.
Qed.

Lemma digits_free (w : nat) (n : Z) : freeOf "T" (digits w n) = true.
Proof.
  revert n; induction w as [|w IH]; intro n; simpl; [reflexivity|].
  rewrite freeOf_app, IH. cbn [freeOf andb].
  destruct (digitChar_digit (n mod 10)) as [_ ->]; [|reflexivity].
  apply Z.mod_pos_bound. lia.
Qed.

Lemma isoDate_free (y m d : Z) : freeOf "T" (isoDate y m d) = true.
Proof.
  unfold isoDate, isoYear.
  destruct ((0 <=? y) && (y <=? 9999)); [|destruct (0 <=? y)];
    repeat (rewrite freeOf_app || rewrite digits_free || simpl); reflexivity.
Qed.

Lemma splitHead_app_free (sep : ascii) (a b : string) :
  freeOf sep a = true -> splitHead sep (a ++ String sep b) = a.
Proof.
  induction a as [|x a IH]; simpl; intro H.
  - now rewrite Ascii.eqb_refl.
  - apply andb_true_iff in H as [Hx Ha].
    apply negb_true_iff in Hx. rewrite Hx. f_equal. now apply IH.
Qed.

(** The date part of the ISO string: the UTC calendar date. *)
Lemma toISOString_date (t : Z) :
  splitHead "T" (toISOString t)
  = isoDate (YearFromTime t) (MonthFromTime t + 1) (DateFromTime t).
Proof.
  unfold toISOString. cbv zeta.
  apply (splitHead_app_free "T"). apply isoDate_free.
Qed.

(** Within the years 0..9999 the date part has the shape YYYY-MM-DD. *)
Lemma isoDate_shape (y m d : Z) :
  0 <= y <= 9999 -> isYMD (isoDate y m d) = true.
Proof.
  intro H. unfold isoDate, isoYear.
  replace ((0 <=? y) && (y <=? 9999)) with true
    by (symmetry; apply andb_true_iff; split; apply Z.leb_le; lia).
  cbn [digits append isYMD Ascii.eqb Bool.eqb andb].
  repeat match goal with
         | |- context [Js.isDigit (digitChar (?n mod 10))] =>
             let D := fresh "D" in
             destruct (digitChar_digit (n mod 10)) as [D _];
             [apply Z.mod_pos_bound; lia|rewrite D; clear D]
         end.
  reflexivity.
Qed.

(** The default date: when the offset of local time a week from now is
    the one in force now, it is the UTC calendar date seven days after
    the UTC date of now. *)
Lemma defaultDateString_week (c : Clock) :
  LocalTZA c (LocalTime c (now c) + 7 * msPerDay) false = LocalTZA c (now c) true ->
  defaultDateString c
  = (let '(y, m, d) := civilFromDays (Day (now c) + 7) in isoDate y m d).
Proof.
  intro Htz. unfold defaultDateString. cbv zeta.
  rewrite toISOString_date, setDate_week, Htz.
  unfold LocalTime.
  replace (now c + LocalTZA c (now c) true + 7 * msPerDay - LocalTZA c (now c) true)
    with (now c + 7 * msPerDay) by lia.
  unfold YearFromTime, MonthFromTime, DateFromTime. rewrite Day_shift.
  destruct (civilFromDays (Day (now c) + 7)) as [[y m] d]. simpl.
  now replace (m - 1 + 1) with m by lia.
Qed.

End Calendar.

(** ** The form filler *)

Section FormFiller.
Import Dom Locator Filler.

(** *** Computations *)

Lemma bind_returned {A B : Type} (m : M A) (k : A -> M B) (t : list Event) (a : A) :
  m = (t, Returned a) -> bind m k = ((t ++ fst (k a))%list, snd (k a)).
Proof. intros ->. reflexivity. Qed.

Lemma bind_threw {A B : Type} (m : M A) (k : A -> M B) (t : list Event) (e : Exn) :
  m = (t, Threw e) -> bind m k = (t, Threw e).
Proof. intros ->. reflexivity. Qed.

(** A sequence that returns is made of two parts that return. *)
Lemma bind_inv {A B : Type} (m : M A) (k : A -> M B) (t : list Event) (b : B) :
  bind m k = (t, Returned b) ->
  exists t1 a t2,
    m = (t1, Returned a) /\ k a = (t2, Returned b) /\ t = (t1 ++ t2)%list.
Proof.
  destruct m as [t1 [a|e]]; simpl; intro H; [|discriminate].
  injection H as <- H. exists t1, a, (fst (k a)).
  repeat split. destruct (k a) as [t2 o]. simpl in *. now subst.
Qed.

Lemma tryCatch_threw {A : Type} (m : M A) (h : Exn -> M A) (t : list Event) (e : Exn) :
  m = (t, Threw e) -> tryCatch m h = ((t ++ fst (h e))%list, snd (h e)).
Proof. intros ->. reflexivity. Qed.

(** A [try] whose handler cannot throw cannot throw. *)
Lemma tryCatch_unit (m : M unit) (h : Exn -> M unit) :
  (forall e, snd (h e) = Returned tt) -> snd (tryCatch m h) = Returned tt.
Proof.
  intro H. destruct m as [t [[]|e]]; simpl; [reflexivity|apply H].
Qed.

(** An action either happens, leaving its one event, or times out. *)
Lemma act_cases (p : Page) (action : string) (target : option nat)
    (ready : Element -> bool) (ev : nat -> Element -> option Event) :
  (exists i el e, target = Some i /\ element p i = Some el /\ ready el = true
                  /\ ev i el = Some e
                  /\ act p action target ready ev = ([e], Returned tt))
  \/ act p action target ready ev = ([], Threw (timeout action)).
Proof.
  unfold act. destruct target as [i|]; [|now right].
  destruct (element p i) as [el|] eqn:L; [|now right].
  destruct (ready el) eqn:R; [|now right].
  destruct (ev i el) as [e|] eqn:E; [|now right].
  left. exists i, el, e. repeat split; assumption.
Qed.

(** *** Quiet traces: no click, no strategy *)

Lemma quiet_app (a b : list Event) : quiet a -> quiet b -> quiet (a ++ b)%list.
Proof. unfold quiet. rewrite forallb_app. now intros -> ->. Qed.

Lemma quiet_bind {A B : Type} (m : M A) (k : A -> M B) :
  quiet (fst m) -> (forall a, quiet (fst (k a))) -> quiet (fst (bind m k)).
Proof.
  destruct m as [t [a|e]]; simpl; intros Hm Hk; [|exact Hm].
  apply quiet_app; [exact Hm|apply Hk].
Qed.

Lemma quiet_tryCatch {A : Type} (m : M A) (h : Exn -> M A) :
  quiet (fst m) -> (forall e, quiet (fst (h e))) -> quiet (fst (tryCatch m h)).
Proof.
  destruct m as [t [a|e]]; simpl; intros Hm Hh; [exact Hm|].
  apply quiet_app; [exact Hm|apply Hh].
Qed.

Lemma quiet_act (p : Page) (action : string) (target : option nat)
    (ready : Element -> bool) (ev : nat -> Element -> option Event) :
  (forall i el e, ev i el = Some e -> isQuiet e = true) ->
  quiet (fst (act p action target ready ev)).
Proof.
  intro H.
  destruct (act_cases p action target ready ev)
    as [(i & el & e & _ & _ & _ & E & ->)| ->]; [|reflexivity].
  unfold quiet. simpl. now rewrite (H i el e E).
Qed.

Lemma quiet_if {A : Type} (b : bool) (x y : M A) :
  quiet (fst x) -> quiet (fst y) -> quiet (fst (if b then x else y)).
Proof. now destruct b. Qed.

Lemma quiet_fill (p : Page) (t : option nat) (v : string) : quiet (fst (fill p t v)).
Proof. apply quiet_act. intros i el e [= <-]. reflexivity. Qed.

Lemma quiet_selectOptionIndex (p : Page) (t : option nat) (k : nat) :
  quiet (fst (selectOptionIndex p t k)).
Proof.
  apply quiet_act. intros i el e. destruct (Nat.ltb _ _); [|discriminate].
  intros [= <-]. reflexivity.
Qed.

Lemma quiet_selectOptionLabel (p : Page) (t : option nat) (l : string) :
  quiet (fst (selectOptionLabel p t l)).
Proof.
  apply quiet_act. intros i el e. destruct (findIndex _ _ _); [|discriminate].
  intros [= <-]. reflexivity.
Qed.

Lemma quiet_takeScreenshot (s : Session) : quiet (fst (takeScreenshot s)).
Proof.
  unfold takeScreenshot. destruct (negb (initialized s)); [reflexivity|].
  destruct (screenshotFails s); reflexivity.
Qed.

(** Decomposes a trace that is quiet by construction. *)
Ltac quiet_steps :=
  repeat first
    [ apply quiet_bind; [|intro]
    | apply quiet_tryCatch; [|intro]
    | apply quiet_if
    | apply quiet_fill
    | apply quiet_selectOptionIndex
    | apply quiet_selectOptionLabel
    | apply quiet_takeScreenshot
    | reflexivity ].

Lemma quiet_fillFields (s : Session) (p : Page) (data : AppointmentData) :
  quiet (fst (fillFields s p data)).
Proof.
  unfold fillFields, fillName, fillPhone, fillEmail, fillDate, fillTime,
    fillService, fillComments, fillFirst, selectDefault.
  quiet_steps.
  - destruct (matchingOption _ _); quiet_steps.
  - destruct (comments data) as [c|]; quiet_steps.
Qed.

(** Nothing is clicked and no strategy is announced before the
    submission starts. *)
Lemma quiet_prepare (s : Session) (p : Page) (data : AppointmentData) :
  quiet (fst (prepare s p data)).
Proof.
  unfold prepare.
  apply quiet_bind; [unfold goto; destruct (gotoFails s); reflexivity|intro].
  apply quiet_bind;
    [unfold waitForForm; destruct (isVisible p (firstForm p)); reflexivity|intro].
  apply quiet_bind; [apply quiet_fillFields|intro; apply quiet_takeScreenshot].
Qed.

Lemma quiet_announced (tr rest : list Event) :
  quiet tr -> announced (tr ++ rest) = announced rest.
Proof.
  unfold quiet. induction tr as [|ev tr IH]; simpl; [reflexivity|].
  intro H. apply andb_true_iff in H as [Hev Htr].
  destruct ev; try discriminate; now apply IH.
Qed.

Lemma quiet_clicks (tr rest : list Event) :
  quiet tr -> clicks (tr ++ rest) = clicks rest.
Proof.
  unfold quiet, clicks. induction tr as [|ev tr IH]; simpl; [reflexivity|].
  intro H. apply andb_true_iff in H as [Hev Htr].
  destruct ev; try discriminate; now apply IH.
Qed.

Lemma quiet_afterFirstClick (tr rest : list Event) :
  quiet tr -> afterFirstClick (tr ++ rest) = afterFirstClick rest.
Proof.
  unfold quiet. induction tr as [|ev tr IH]; simpl; [reflexivity|].
  intro H. apply andb_true_iff in H as [Hev Htr].
  destruct ev; try discriminate; now apply IH.
Qed.

(** *** The submission cascade *)

(** The loop of strategies 1 and 2 either clicks once, and that click is
    its only event, or does nothing. *)
Lemma clickFirstVisible_cases (p : Page) (selectors : list Selector) :
  clickFirstVisible p selectors = ([], Returned false)
  \/ exists i, clickFirstVisible p selectors = ([Click i], Returned true).
Proof.
  induction selectors as [|selector rest IH]; [now left|].
  simpl. destruct (isVisible p (first p selector)); simpl.
  - unfold click.
    destruct (act_cases p "locator.click" (first p selector)
                (fun el => visible el && clickable el)
                (fun i _ => Some (Click i)))
      as [(i & el & e & _ & _ & _ & [= <-] & ->)| ->]; simpl.
    + right. now exists i.
    + destruct IH as [-> |(i & ->)]; [now left|right; now exists i].
  - destruct IH as [-> |(i & ->)]; [now left|right; now exists i].
Qed.

(** A selector whose first match is visible and takes the click ends the
    loop at once. *)
Lemma clickFirstVisible_hit (p : Page) (selector : Selector)
    (rest : list Selector) (b : nat) (el : Element) :
  first p selector = Some b -> element p b = Some el ->
  visible el = true -> clickable el = true ->
  clickFirstVisible p (selector :: rest) = ([Click b], Returned true).
Proof.
  intros F E V C. simpl. unfold click, act, isVisible.
  rewrite F, E, V, C. reflexivity.
Qed.

Lemma clickLastFormButton_cases (p : Page) :
  clickLastFormButton p = ([], Returned false)
  \/ (exists i, clickLastFormButton p = ([Click i], Returned true))
  \/ exists e, clickLastFormButton p = ([], Threw e).
Proof.
  unfold clickLastFormButton.
  destruct (all p [formButton false]) as [|b bs]; [now left|].
  unfold click.
  destruct (act_cases p "locator.click" (Some (last (b :: bs) 0))
              (fun el => visible el && clickable el)
              (fun i _ => Some (Click i)))
    as [(i & el & e & _ & _ & _ & [= <-] & ->)| ->]; simpl.
  - right; left. now exists i.
  - right; right. now eexists.
Qed.

Lemma scriptClick_cases (p : Page) :
  scriptClick p = ([], Returned false)
  \/ exists b, scriptClick p = ([ScriptClick b], Returned true).
Proof.
  unfold scriptClick. destruct (firstForm p) as [f|]; [|now left].
  destruct (find (isSubmitAt p) (scriptButtons p f)) as [b|].
  - right. now exists b.
  - destruct (scriptButtons p f) as [|b bs]; [now left|].
    right. now eexists.
Qed.

(** The strategies announced by a run of the cascade are 1, 2, .. up to
    the one that ended it; a click, if there is one, is the last event. *)
Lemma strategies_cases (p : Page) :
  exists n, 1 <= n <= 4 /\
    ((exists c, isClick c = true
                /\ strategies p = ((map Strategy (seq 1 n) ++ [c])%list, Returned true))
     \/ (n = 3 /\ exists e, strategies p = (map Strategy (seq 1 n), Threw e))
     \/ (n = 4 /\ strategies p = (map Strategy (seq 1 n), Returned false))).
Proof.
  unfold strategies.
  destruct (clickFirstVisible_cases p submitSelectors) as [-> |(i & ->)];
    cbn [bind emit ret fst snd negb app].
  2:{ exists 1. split; [lia|]. left. now exists (Click i). }
  destruct (clickFirstVisible_cases p textButtons) as [-> |(i & ->)];
    cbn [bind emit ret fst snd negb app].
  2:{ exists 2. split; [lia|]. left. now exists (Click i). }
  destruct (clickLastFormButton_cases p) as [-> |[(i & ->)|(e & ->)]];
    cbn [bind emit ret fst snd negb app].
  2:{ exists 3. split; [lia|]. left. now exists (Click i). }
  2:{ exists 3. split; [lia|]. right; left. split; [reflexivity|now exists e]. }
  destruct (scriptClick_cases p) as [-> |(b & ->)];
    cbn [bind emit ret fst snd negb app].
  - exists 4. split; [lia|]. right; right. now split.
  - exists 4. split; [lia|]. left. now exists (ScriptClick b).
Qed.

Lemma takeScreenshot_returned (s : Session) (t : list Event) :
  takeScreenshot s = (t, Returned tt) ->
  initialized s = true /\ screenshotFails s = None /\ t = [Screenshot].
Proof.
  unfold takeScreenshot. destruct (initialized s); simpl; [|discriminate].
  destruct (screenshotFails s); [discriminate|]. now intros [= <-].
Qed.

(** If the preparation returns, a later screenshot succeeds as well. *)
Lemma prepare_returned_screenshot (s : Session) (p : Page)
    (data : AppointmentData) (tr0 : list Event) :
  prepare s p data = (tr0, Returned tt) -> takeScreenshot s = ([Screenshot], Returned tt).
Proof.
  unfold prepare. intro H.
  apply bind_inv in H as (t1 & [] & t2 & _ & H & _).
  apply bind_inv in H as (t3 & [] & t4 & _ & H & _).
  apply bind_inv in H as (t5 & [] & t6 & _ & H & _).
  destruct (takeScreenshot_returned s t6 H) as (_ & _ & ->). exact H.
Qed.

Lemma prepare_returned_initialized (s : Session) (p : Page)
    (data : AppointmentData) (tr0 : list Event) :
  prepare s p data = (tr0, Returned tt) -> initialized s = true.
Proof.
  intro P. apply prepare_returned_screenshot in P.
  now apply takeScreenshot_returned in P.
Qed.

(** The submission never throws.  Its trace is the announcements of the
    strategies 1 to [n], then the click if there was one, then the
    screenshot or the console line that reports the failure. *)
Lemma submit_cases (s : Session) (p : Page) :
  exists n tail r,
    1 <= n <= 4
    /\ submit s p = ((map Strategy (seq 1 n) ++ tail)%list, Returned r)
    /\ ((exists c q, isClick c = true /\ isReport q = true /\ tail = [c; q]
                     /\ strategies p = ((map Strategy (seq 1 n) ++ [c])%list,
                                        Returned true))
        \/ (exists q, isReport q = true /\ tail = [q] /\ r = false
                      /\ snd (strategies p) <> Returned true)).
Proof.
  unfold submit.
  destruct (strategies_cases p)
    as (n & Hn & [(c & Hc & E)|[(-> & e & E)|(-> & E)]]); rewrite E.
  - cbn [bind fst snd].
    assert (Shot : exists q r, isReport q = true
              /\ tryCatch
                   ((map Strategy (seq 1 n) ++ [c]) ++ fst (takeScreenshot s;; ret true),
                    snd (takeScreenshot s;; ret true))%list
                   (fun _ => emit (Log "Error clicking submit button");; ret false)
                 = ((map Strategy (seq 1 n) ++ [c; q])%list, Returned r)).
    { unfold takeScreenshot.
      destruct (negb (initialized s)); [|destruct (screenshotFails s)];
        cbn [bind tryCatch throw emit ret fst snd app];
        rewrite <- !app_assoc; eexists _, _; (split; [|reflexivity]);
        reflexivity. }
    destruct Shot as (q & r & Hq & ->).
    exists n, [c; q], r. split; [exact Hn|]. split; [reflexivity|].
    left. exists c, q. repeat split; assumption.
  - cbn [bind tryCatch emit ret fst snd app].
    eexists 3, _, _. split; [lia|]. split; [reflexivity|].
    right. exists (Log "Error clicking submit button").
    repeat split. discriminate.
  - cbn [bind tryCatch emit ret fst snd app].
    eexists 4, _, _. split; [lia|]. split; [reflexivity|].
    right. exists (Log "Could not find or click submit button with any strategy").
    repeat split. discriminate.
Qed.

(** *** The whole operation *)

(** The outer [catch] block always rethrows, after a console line and,
    if it can be taken, a screenshot. *)
Lemma outer_handler_cases (s : Session) (message : string) :
  exists tr1 e',
    quiet tr1
    /\ (emit (Log "Error filling form");; takeScreenshot s;;
        throw (A := bool) (Error message)) = (tr1, Threw e').
Proof.
  unfold takeScreenshot.
  destruct (negb (initialized s)); [|destruct (screenshotFails s)];
    cbn [bind emit throw fst snd app]; eexists _, _;
    (split; [|reflexivity]); reflexivity.
Qed.

(** The three ways a call can go: the browser was never started; the
    preparation threw and the outer handler wrapped the error; or the
    preparation returned and the submission decided the result. *)
Lemma fillAppointmentForm_cases (s : Session) (p : Page) (data : AppointmentData) :
  (initialized s = false
   /\ fillAppointmentForm s p data
      = ([], Threw (Error "Browser not initialized. Call initialize() first.")))
  \/ (exists tr0 e tr1 e',
        initialized s = true
        /\ prepare s p data = (tr0, Threw e) /\ quiet tr1
        /\ fillAppointmentForm s p data = ((tr0 ++ tr1)%list, Threw e'))
  \/ (exists tr0,
        initialized s = true
        /\ prepare s p data = (tr0, Returned tt)
        /\ fillAppointmentForm s p data
           = ((tr0 ++ fst (submit s p))%list, snd (submit s p))).
Proof.
  unfold fillAppointmentForm.
  destruct (initialized s) eqn:I; cbn [negb]; [right|left; now split].
  destruct (prepare s p data) as [tr0 [[]|e]] eqn:P.
  - right. exists tr0. repeat split.
    destruct (submit_cases s p) as (n & tail & r & _ & -> & _). reflexivity.
  - left.
    rewrite (tryCatch_threw _ _ tr0 e (bind_threw _ _ tr0 e eq_refl)).
    destruct (outer_handler_cases s
                ("Failed to fill appointment form: " ++ messageOf e))
      as (tr1 & e' & Q & ->).
    exists tr0, e, tr1, e'. now repeat split.
Qed.

Lemma announced_strategies (l : list nat) (rest : list Event) :
  announced (map Strategy l ++ rest) = (l ++ announced rest)%list.
Proof. induction l as [|n l IH]; simpl; [reflexivity|now rewrite IH]. Qed.

Lemma clicks_strategies (l : list nat) (rest : list Event) :
  clicks (map Strategy l ++ rest) = clicks rest.
Proof. unfold clicks. induction l as [|n l IH]; simpl; [reflexivity|exact IH]. Qed.

Lemma afterFirstClick_strategies (l : list nat) (rest : list Event) :
  afterFirstClick (map Strategy l ++ rest) = afterFirstClick rest.
Proof. induction l as [|n l IH]; simpl; [reflexivity|exact IH]. Qed.

Lemma quiet_nothing (tr : list Event) :
  quiet tr -> announced tr = [] /\ clicks tr = 0 /\ afterFirstClick tr = [].
Proof.
  intro Q. rewrite <- (app_nil_r tr).
  rewrite quiet_announced, quiet_clicks, quiet_afterFirstClick by exact Q.
  now repeat split.
Qed.

(** The first selector of strategy 1 settles the run when the button it
    finds is visible and takes the click. *)
Lemma first_submit_button_wins (s : Session) (p : Page) (data : AppointmentData)
    (tr0 : list Event) (b : nat) (el : Element) :
  prepare s p data = (tr0, Returned tt) ->
  first p [sel "button" [AttrIs "type" "submit"]] = Some b ->
  element p b = Some el -> visible el = true -> clickable el = true ->
  fillAppointmentForm s p data
  = ((tr0 ++ [Strategy 1; Click b; Screenshot])%list, Returned true).
Proof.
  intros P F E V C. unfold fillAppointmentForm.
  rewrite (prepare_returned_initialized s p data tr0 P). cbn [negb].
  rewrite (bind_returned _ _ _ _ P).
  unfold submit, strategies, submitSelectors.
  rewrite (clickFirstVisible_hit p _ _ b el F E V C).
  cbn [bind emit ret fst snd negb app].
  rewrite (prepare_returned_screenshot s p data tr0 P). reflexivity.
Qed.


End FormFiller.

(** *** Filling the fields *)

Section FormFields.
Import Dom Locator Filler.

Lemma findIndex_from {A : Type} (f : A -> bool) (l : list A) (from k : nat) :
  findIndex f l from = Some k ->
  from <= k /\ exists x, nth_error l (k - from) = Some x /\ f x = true.
Proof.
  revert from; induction l as [|x l IH]; intros from H; simpl in H.
  - discriminate.
  - destruct (f x) eqn:F.
    + injection H as <-. split; [lia|]. exists x. now rewrite Nat.sub_diag.
    + destruct (IH (S from) H) as (L & y & N & Fy). split; [lia|].
      exists y. split; [|exact Fy].
      replace (k - from) with (S (k - S from)) by lia. exact N.
Qed.

(** The position a search returns holds an element that passes the test. *)
Lemma findIndex_some {A : Type} (f : A -> bool) (l : list A) (k : nat) :
  findIndex f l 0 = Some k ->
  k < length l /\ exists x, nth_error l k = Some x /\ f x = true.
Proof.
  intro H. destruct (findIndex_from f l 0 k H) as (_ & x & N & F).
  rewrite Nat.sub_0_r in N. split; [|now exists x].
  apply nth_error_Some. congruence.
Qed.

(** An action on an element that is there and ready leaves its event. *)
Lemma act_ready (p : Page) (action : string) (i : nat) (el : Element)
    (ready : Element -> bool) (ev : nat -> Element -> option Event) (e : Event) :
  element p i = Some el -> ready el = true -> ev i el = Some e ->
  act p action (Some i) ready ev = ([e], Returned tt).
Proof. intros L R E. unfold act. now rewrite L, R, E. Qed.

Lemma fill_ready (p : Page) (i : nat) (el : Element) (v : string) :
  element p i = Some el -> visible el = true -> editable el = true ->
  fill p (Some i) v = ([Fill i v], Returned tt).
Proof.
  intros L V E. apply (act_ready p _ i el); [exact L| |reflexivity].
  now rewrite V, E.
Qed.

Lemma selectOptionIndex_ready (p : Page) (i : nat) (el : Element) (k : nat) :
  element p i = Some el -> visible el = true -> editable el = true ->
  k < length (options el) ->
  selectOptionIndex p (Some i) k = ([Select i k], Returned tt).
Proof.
  intros L V E K. apply (act_ready p _ i el); [exact L|now rewrite V, E|].
  apply Nat.ltb_lt in K. now rewrite K.
Qed.

(** A [fill] that returns has written its value. *)
Lemma fill_returned (p : Page) (target : option nat) (v : string) (t : list Event) :
  fill p target v = (t, Returned tt) ->
  exists i, target = Some i /\ t = [Fill i v].
Proof.
  unfold fill. intro H.
  destruct (act_cases p "locator.fill" target
              (fun el => visible el && editable el) (fun i _ => Some (Fill i v)))
    as [(i & el & e & -> & _ & _ & [= <-] & E)|E]; rewrite E in H.
  - injection H as <-. now exists i.
  - discriminate.
Qed.

Lemma fillFirst_returned (p : Page) (selector : Selector) (v : string)
    (t : list Event) (i : nat) :
  fillFirst p selector v = (t, Returned tt) ->
  first p selector = Some i -> isVisible p (Some i) = true ->
  t = [Fill i v].
Proof.
  unfold fillFirst. intros H F V. rewrite F, V in H.
  destruct (fill_returned p (Some i) v t H) as (j & [= <-] & ->). reflexivity.
Qed.

(** The date and the two dropdowns are guarded: whatever happens while
    they are assigned, the fill goes on. *)
Lemma guarded_fields_return (s : Session) (p : Page) (data : AppointmentData) :
  snd (fillDate s p data) = Returned tt
  /\ snd (fillTime p data) = Returned tt
  /\ snd (fillService p data) = Returned tt.
Proof.
  unfold fillDate, fillTime, fillService.
  repeat split;
    repeat match goal with
           | |- snd (if ?b then _ else _) = _ => destruct b
           | |- snd (tryCatch _ _) = _ => apply tryCatch_unit; intro
           | |- _ => reflexivity
           end.
Qed.

(** A preparation that returns is a navigation, the seven field steps,
    each returning, and a screenshot. *)
Lemma prepare_inv (s : Session) (p : Page) (data : AppointmentData)
    (tr0 : list Event) :
  prepare s p data = (tr0, Returned tt) ->
  exists tn tp te td tm tv tc,
    fillName p data = (tn, Returned tt)
    /\ fillPhone p data = (tp, Returned tt)
    /\ fillEmail p data = (te, Returned tt)
    /\ fillDate s p data = (td, Returned tt)
    /\ fillTime p data = (tm, Returned tt)
    /\ fillService p data = (tv, Returned tt)
    /\ fillComments p data = (tc, Returned tt)
    /\ tr0 = (Navigate (dentistUrl s)
              :: tn ++ tp ++ te ++ td ++ tm ++ tv ++ tc ++ [Screenshot])%list.
Proof.
  unfold prepare, fillFields. intro H.
  apply bind_inv in H as (t1 & [] & r1 & G & H & ->).
  apply bind_inv in H as (t2 & [] & r2 & W & H & ->).
  apply bind_inv in H as (t3 & [] & r3 & H & S & ->).
  apply bind_inv in H as (tn & [] & r4 & Hn & H & ->).
  apply bind_inv in H as (tp & [] & r5 & Hp & H & ->).
  apply bind_inv in H as (te & [] & r6 & He & H & ->).
  apply bind_inv in H as (td & [] & r7 & Hd & H & ->).
  apply bind_inv in H as (tm & [] & r8 & Hm & H & ->).
  apply bind_inv in H as (tv & [] & tc & Hv & Hc & ->).
  destruct (takeScreenshot_returned s r3 S) as (_ & _ & ->).
  exists tn, tp, te, td, tm, tv, tc. repeat (split; [assumption|]).
  unfold goto in G. destruct (gotoFails s); [discriminate|].
  injection G as <-.
  unfold waitForForm in W. destruct (isVisible p (firstForm p)); [|discriminate].
  injection W as <-. simpl. now rewrite <- !app_assoc.
Qed.

Lemma valueAfter_unwritten (tr : list Event) (target : nat) (prev : option string) :
  forallb (fun ev => negb (isWrite ev)) tr = true ->
  valueAfter tr target prev = prev.
Proof.
  revert prev; induction tr as [|ev tr IH]; intros prev H; [reflexivity|].
  simpl in H. apply andb_true_iff in H as [Hev Htr].
  destruct ev; try discriminate; simpl; now apply IH.
Qed.

Lemma valueAfter_app (a b : list Event) (target : nat) (prev : option string) :
  valueAfter (a ++ b) target prev = valueAfter b target (valueAfter a target prev).
Proof.
  revert prev; induction a as [|ev a IH]; intros prev; [reflexivity|].
  destruct ev; simpl; apply IH.
Qed.


End FormFields.

Section FormFieldClaims.
Import Dom Locator Filler JsDate.
Local Open Scope Z_scope.

(** A run whose navigation, form and screenshots work, and whose four
    text fields are assigned without an error, gets to the submission. *)
Lemma prepare_returns (s : Session) (p : Page) (data : AppointmentData) :
  initialized s = true -> gotoFails s = None -> screenshotFails s = None ->
  isVisible p (firstForm p) = true ->
  snd (fillName p data) = Returned tt -> snd (fillPhone p data) = Returned tt ->
  snd (fillEmail p data) = Returned tt -> snd (fillComments p data) = Returned tt ->
  snd (prepare s p data) = Returned tt.
Proof.
  intros I G Sh W Hn Hp He Hc.
  destruct (guarded_fields_return s p data) as (Hd & Hm & Hv).
  unfold prepare, goto, waitForForm, fillFields, takeScreenshot.
  rewrite G, W, I, Sh.
  destruct (fillName p data) as [tn on], (fillPhone p data) as [tp op],
    (fillEmail p data) as [te oe], (fillDate s p data) as [td od],
    (fillTime p data) as [tm om], (fillService p data) as [tv ov],
    (fillComments p data) as [tc oc].
  simpl in Hn, Hp, He, Hc, Hd, Hm, Hv. subst. reflexivity.
Qed.



(** The first option that contains the wanted text, compared without
    regard to case, is what the service dropdown looks for. *)
Lemma matchingOption_some (opts : list SelectOption) (wanted : string) (k : nat) :
  matchingOption opts wanted = Some k ->
  (k < length opts)%nat
  /\ exists opt, nth_error opts k = Some opt
                 /\ Js.includes (Js.toLowerCase wanted) (Js.toLowerCase (text opt)) = true.
Proof. unfold matchingOption. apply findIndex_some. Qed.


End FormFieldClaims.

(** ** The properties on concrete inputs *)

Section Instances.
Import Dom Locator Filler Examples.

(** A select with the option texts "-", "9:00 AM", "10:00 AM" is named
    [appointment_time], one with "-", "Checkup", "Cleaning" is named
    [service_type]. *)
Lemma option_sniffing_examples :
  FieldNames.inferName bookingPage timeDropdown 4 = "appointment_time"
  /\ FieldNames.inferName bookingPage serviceDropdown 5 = "service_type".
Proof.
  split.
  - apply (option_sniffing bookingPage timeDropdown 4 eq_refl); reflexivity.
  - apply (option_sniffing bookingPage serviceDropdown 5 eq_refl); reflexivity.
Defined.

(** The name input of the booking form also carries a placeholder; its
    [name] attribute names it. *)
Lemma name_attribute_first_example :
  FieldNames.inferName bookingPage
    (node "input" [("name", "name"); ("placeholder", "First Last")] "") 0 = "name".
Proof.
  refine (proj1 (proj1 (name_attribute_first bookingPage
                          (node "input" [("name", "name");
                                         ("placeholder", "First Last")] "") 0)
                       "name" eq_refl _)).
  discriminate.
Defined.



(** A visible submit button that does not take the click (it is
    disabled) is never clicked: every selector of strategies 1 and 2
    that finds it times out, and the time-out of strategy 3 ends the
    cascade. *)
Example disabled_submit_button :
  fillAppointmentForm session disabledSubmitPage request
  = ((fst (prepare session disabledSubmitPage request)
      ++ [Strategy 1; Strategy 2; Strategy 3; Log "Error clicking submit button"])%list,
     Returned false).
Proof. vm_compute; reflexivity. Qed.




(** The helper [getFieldName] has no positional fallback: for an input
    without attributes or label it answers the empty string, where the
    inference of [getFormFields] answers [field_<index>]. *)
Example getFieldName_may_be_empty :
  FieldNames.getFieldName bookingPage (node "input" [] "") = ""
  /\ FieldNames.inferName bookingPage (node "input" [] "") 3 = "field_3".
Proof. split; reflexivity. Qed.



(** The default date is computed from the local calendar day but printed
    in UTC: at 18:00 on 2 November, eight hours behind UTC, it is
    10 November, eight days after the local date. *)
Example default_date_in_local_evening :
  JsDate.toISOString (JsDate.LocalTime pacificEvening (JsDate.now pacificEvening))
  = "2025-11-02T18:00:00.000Z"
  /\ JsDate.defaultDateString pacificEvening = "2025-11-10".
Proof. split; vm_compute; reflexivity. Qed.



(** A recording in progress is stopped and the recorder reset. *)
Lemma stopRecording_leaves_idle_example :
  Recorder.isRecording (snd (Recorder.stopRecording fileWritten recording)) = false
  /\ Recorder.recordingProcess (snd (Recorder.stopRecording fileWritten recording))
     = None.
Proof.
  destruct (stopRecording_leaves_idle fileWritten recording
              (Recorder.reach_start soxStarts _ Recorder.reach_new))
    as (Idle & Reset & _).
  split; [exact Idle|]. now apply Reset.
Defined.

(** C10 as stated fails.  After [sox] has reported an error the recorder
    no longer says it is recording, so [stopRecording] throws at its
    guard, before the [try]: the call is completed, and the process
    handle and the stored path are still there. *)
Lemma stopRecording_after_process_error :
  Recorder.reachable afterSoxError
  /\ fst (Recorder.stopRecording fileWritten afterSoxError)
     = Threw (Error "No recording in progress")
  /\ Recorder.recordingProcess (snd (Recorder.stopRecording fileWritten afterSoxError))
     = Some 4242
  /\ Recorder.audioFilePath (snd (Recorder.stopRecording fileWritten afterSoxError))
     = "/app/temp/recording_1700000000000.wav".
Proof.
  split; [|repeat split; vm_compute; reflexivity].
  apply Recorder.reach_error.
  - apply (Recorder.reach_start soxStarts _ Recorder.reach_new).
  - discriminate.
Qed.

End Instances.

(** ** Regular expressions *)

Section RegexMatching.
Import Regex.

Lemma append_nil_r (s : string) : s ++ "" = s.
Proof. induction s as [|c s IH]; simpl; [reflexivity|now rewrite IH]. Qed.

Lemma append_assoc (a b c : string) : (a ++ b) ++ c = a ++ b ++ c.
Proof. induction a as [|x a IH]; simpl; [reflexivity|now rewrite IH]. Qed.

Lemma append_empty (a b : string) : a ++ b = "" -> a = "" /\ b = "".
Proof. destruct a; simpl; [now split|discriminate]. Qed.

Lemma Matches_Cat (r1 r2 : Re) (s : string) :
  Matches (Cat r1 r2) s <->
  exists s1 s2, s = s1 ++ s2 /\ Matches r1 s1 /\ Matches r2 s2.
Proof.
  split.
  - intro H. inversion H; subst. eauto.
  - intros (s1 & s2 & -> & H1 & H2). now constructor.
Qed.

(** [nullable] decides whether the empty string is matched. *)
Lemma nullable_spec (r : Re) : nullable r = true <-> Matches r "".
Proof.
  induction r as [| |f|r1 IH1 r2 IH2|r1 IH1 r2 IH2|r IH]; simpl.
  - split; [discriminate|intro H; inversion H].
  - split; [constructor|reflexivity].
  - split; [discriminate|intro H; inversion H].
  - rewrite andb_true_iff, IH1, IH2. split.
    + intros [H1 H2]. exact (MCat _ _ "" "" H1 H2).
    + intro H. apply Matches_Cat in H as (s1 & s2 & E & H1 & H2).
      symmetry in E. apply append_empty in E as [-> ->]. now split.
  - rewrite orb_true_iff, IH1, IH2. split.
    + intros [H|H]; [now apply MAltL|now apply MAltR].
    + intro H. inversion H; subst; auto.
  - split; [constructor|reflexivity].
Qed.

(** A non-empty match of a repetition starts with a non-empty match of
    the body. *)
Lemma star_cons (r : Re) (s : string) :
  Matches (Star r) s ->
  forall c rest, s = String c rest ->
  exists s1 s2, rest = s1 ++ s2 /\ Matches r (String c s1) /\ Matches (Star r) s2.
Proof.
  intro H. remember (Star r) as r' eqn:E.
  induction H as [| | | | | |r0 s1 s2 H1 _ H2 IH2]; try discriminate.
  injection E as ->. intros c rest X.
  destruct s1 as [|c1 s1]; simpl in X.
  - apply (IH2 eq_refl c rest X).
  - injection X as -> <-. now exists s1, s2.
Qed.

(** The derivative by [c] matches the rest of what the pattern matches
    after [c]. *)
Lemma deriv_spec (r : Re) :
  forall c s, Matches (deriv c r) s <-> Matches r (String c s).
Proof.
  induction r as [| |f|r1 IH1 r2 IH2|r1 IH1 r2 IH2|r IH]; intros c s; simpl.
  - split; intro H; inversion H.
  - split; intro H; inversion H.
  - destruct (f c) eqn:F; split; intro H; inversion H; subst.
    + now constructor.
    + constructor.
    + congruence.
  - assert (Left : forall s1 s2, Matches (deriv c r1) s1 -> Matches r2 s2 ->
                                 Matches (Cat r1 r2) (String c (s1 ++ s2))).
    { intros s1 s2 H1 H2. apply IH1 in H1.
      exact (MCat r1 r2 (String c s1) s2 H1 H2). }
    assert (Back : Matches (Cat r1 r2) (String c s) ->
                   (exists s1 s2, s = s1 ++ s2 /\ Matches (deriv c r1) s1
                                  /\ Matches r2 s2)
                   \/ (Matches r1 "" /\ Matches (deriv c r2) s)).
    { intro H. apply Matches_Cat in H as (s1 & s2 & E & H1 & H2).
      destruct s1 as [|c1 s1]; simpl in E.
      - right. subst s2. split; [exact H1|now apply IH2].
      - injection E as <- ->. left. exists s1, s2.
        repeat split; [now apply IH1|exact H2]. }
    destruct (nullable r1) eqn:N.
    + split.
      * intro H. inversion H as [| | |? ? ? H'|? ? ? H'| |]; subst.
        -- inversion H' as [| |? ? s1 s2 H1 H2| | | |]; subst. now apply Left.
        -- apply IH2 in H'. apply nullable_spec in N.
           exact (MCat r1 r2 "" (String c s) N H').
      * intro H. destruct (Back H) as [(s1 & s2 & -> & H1 & H2)|[_ H2]].
        -- apply MAltL. now constructor.
        -- now apply MAltR.
    + split.
      * intro H. inversion H as [| |? ? s1 s2 H1 H2| | | |]; subst. now apply Left.
      * intro H. destruct (Back H) as [(s1 & s2 & -> & H1 & H2)|[H1 _]].
        -- now constructor.
        -- apply nullable_spec in H1. congruence.
  - split; intro H; inversion H; subst.
    + apply MAltL. now apply IH1.
    + apply MAltR. now apply IH2.
    + apply MAltL. now apply IH1.
    + apply MAltR. now apply IH2.
  - split.
    + intro H. inversion H as [| |? ? s1 s2 H1 H2| | | |]; subst.
      apply IH in H1. exact (MStarApp r (String c s1) s2 H1 H2).
    + intro H.
      destruct (star_cons r _ H c s eq_refl) as (s1 & s2 & -> & H1 & H2).
      constructor; [now apply IH|exact H2].
Qed.

(** The matcher decides the language of the pattern. *)
Lemma test_spec (r : Re) (s : string) : test r s = true <-> Matches r s.
Proof.
  revert r; induction s as [|c s IH]; intro r; simpl.
  - apply nullable_spec.
  - rewrite IH. apply deriv_spec.
Qed.

Lemma Matches_Class (f : ascii -> bool) (s : string) :
  Matches (Class f) s <-> exists c, s = String c "" /\ f c = true.
Proof.
  split.
  - intro H. inversion H; subst. eauto.
  - intros (c & -> & H). now constructor.
Qed.

Lemma Matches_Chr (c : ascii) (s : string) :
  Matches (Chr c) s <-> s = String c "".
Proof.
  unfold Chr. rewrite Matches_Class. split.
  - intros (x & -> & H). apply Ascii.eqb_eq in H. now subst.
  - intros ->. exists c. split; [reflexivity|apply Ascii.eqb_refl].
Qed.

Lemma Matches_Opt (r : Re) (s : string) :
  Matches (Opt r) s <-> Matches r s \/ s = "".
Proof.
  unfold Opt. split.
  - intro H. inversion H as [| | |? ? ? H'|? ? ? H'| |]; subst;
      [now left|inversion H'; now right].
  - intros [H| ->]; [now apply MAltL|apply MAltR; constructor].
Qed.

(** A repetition of a class matches the strings made of its characters. *)
Lemma Matches_Star_Class (f : ascii -> bool) (s : string) :
  Matches (Star (Class f)) s <-> allIn f s = true.
Proof.
  split.
  - intro H. remember (Star (Class f)) as r eqn:E.
    induction H as [| | | | | |r0 s1 s2 H1 _ H2 IH2]; try discriminate.
    + reflexivity.
    + injection E as ->. inversion H1; subst. simpl.
      rewrite (IH2 eq_refl). now rewrite H0.
  - induction s as [|c s IH]; simpl; intro H.
    + constructor.
    + apply andb_true_iff in H as [Hc Hs].
      exact (MStarApp (Class f) (String c "") s (MClass f c Hc) (IH Hs)).
Qed.

Lemma Matches_Plus_Class (f : ascii -> bool) (s : string) :
  Matches (Plus (Class f)) s <-> s <> "" /\ allIn f s = true.
Proof.
  unfold Plus. rewrite Matches_Cat. split.
  - intros (s1 & s2 & -> & H1 & H2).
    apply Matches_Class in H1 as (c & -> & Hc).
    apply Matches_Star_Class in H2. simpl. rewrite Hc, H2.
    split; [discriminate|reflexivity].
  - intros [Hne H]. destruct s as [|c s]; [congruence|].
    simpl in H. apply andb_true_iff in H as [Hc Hs].
    exists (String c ""), s. repeat split.
    + now constructor.
    + now apply Matches_Star_Class.
Qed.

(** A bounded repetition of a class matches the strings of its
    characters up to the bound in length. *)
Lemma Matches_UpTo_Class (f : ascii -> bool) (n : nat) (s : string) :
  Matches (UpTo n (Class f)) s <-> allIn f s = true /\ String.length s <= n.
Proof.
  revert s; induction n as [|n IH]; intro s; simpl.
  - split.
    + intro H. inversion H. now split.
    + intros [_ L]. destruct s; [constructor|simpl in L; lia].
  - rewrite Matches_Opt, Matches_Cat. split.
    + intros [(s1 & s2 & -> & H1 & H2)| ->].
      * apply Matches_Class in H1 as (c & -> & Hc). apply IH in H2 as [H2 L].
        simpl. rewrite Hc, H2. split; [reflexivity|lia].
      * split; [reflexivity|simpl; lia].
    + intros [H L]. destruct s as [|c s]; [now right|left].
      simpl in H, L. apply andb_true_iff in H as [Hc Hs].
      exists (String c ""), s. repeat split.
      * now constructor.
      * apply IH. split; [exact Hs|lia].
Qed.

End RegexMatching.

(** ** Validation of the appointment data ([config.ts]) *)

Section Validation.
Import Regex Config.

Lemma allIn_app (f : ascii -> bool) (a b : string) :
  allIn f (a ++ b) = allIn f a && allIn f b.
Proof.
  induction a as [|c a IH]; simpl; [reflexivity|].
  now rewrite IH, andb_assoc.
Qed.

(** X1.  [isValidEmail] accepts exactly the strings [a@b.c] in which
    [a], [b] and [c] are non-empty and hold no white space and no [@];
    [b] and [c] may themselves hold dots. *)
Theorem isValidEmail_shape (email : string) :
  isValidEmail email = true <->
  exists a b c,
    email = a ++ "@" ++ b ++ "." ++ c
    /\ a <> "" /\ b <> "" /\ c <> ""
    /\ allIn notSpaceOrAt (a ++ b ++ c) = true.
Proof.
  unfold isValidEmail, emailRegex. rewrite test_spec.
  rewrite Matches_Cat. split.
  - intros (a & r1 & -> & Ha & H).
    apply Matches_Cat in H as (x & r2 & -> & Hx & H).
    apply Matches_Chr in Hx as ->.
    apply Matches_Cat in H as (b & r3 & -> & Hb & H).
    apply Matches_Cat in H as (y & c & -> & Hy & Hc).
    apply Matches_Chr in Hy as ->.
    apply Matches_Plus_Class in Ha as [Na Ha], Hb as [Nb Hb], Hc as [Nc Hc].
    exists a, b, c. rewrite !allIn_app, Ha, Hb, Hc. now repeat split.
  - intros (a & b & c & -> & Na & Nb & Nc & H).
    rewrite !allIn_app, !andb_true_iff in H. destruct H as (Ha & Hb & Hc).
    exists a, ("@" ++ b ++ "." ++ c). repeat split.
    + now apply Matches_Plus_Class.
    + apply Matches_Cat. exists "@", (b ++ "." ++ c). repeat split.
      * now apply Matches_Chr.
      * apply Matches_Cat. exists b, ("." ++ c). repeat split.
        -- now apply Matches_Plus_Class.
        -- apply Matches_Cat. exists ".", c. repeat split.
           ++ now apply Matches_Chr.
           ++ now apply Matches_Plus_Class.
Qed.

(** X2.  [isValidPhone] accepts exactly the strings that, once the
    separators are removed, are an optional [+], a digit from 1 to 9 and
    at most fifteen further digits. *)
Theorem isValidPhone_shape (phone : string) :
  isValidPhone phone = true <->
  exists d rest,
    (cleanPhone phone = String d rest \/ cleanPhone phone = String "+" (String d rest))
    /\ isNonZeroDigit d = true
    /\ allIn Js.isDigit rest = true
    /\ String.length rest <= 15.
Proof.
  unfold isValidPhone, phoneRegex. rewrite test_spec.
  rewrite Matches_Cat. split.
  - intros (sign & r1 & E & Hs & H).
    apply Matches_Cat in H as (x & rest & -> & Hx & Hr).
    apply Matches_Class in Hx as (d & -> & Hd).
    apply Matches_UpTo_Class in Hr as [Hr L].
    exists d, rest. repeat split; try assumption.
    apply Matches_Opt in Hs as [Hs| ->].
    + apply Matches_Chr in Hs as ->. right. exact E.
    + left. exact E.
  - intros (d & rest & E & Hd & Hr & L).
    assert (Body : Matches (Cat (Class isNonZeroDigit) (UpTo 15 (Class Js.isDigit)))
                           (String d rest)).
    { apply Matches_Cat. exists (String d ""), rest. repeat split.
      - apply Matches_Class. now exists d.
      - now apply Matches_UpTo_Class. }
    destruct E as [E|E].
    + exists "", (String d rest). repeat split; [exact E| |exact Body].
      apply Matches_Opt. now right.
    + exists "+", (String d rest). repeat split; [exact E| |exact Body].
      apply Matches_Opt. left. now apply Matches_Chr.
Qed.

Lemma cleanPhone_app (a b : string) :
  cleanPhone (a ++ b) = cleanPhone a ++ cleanPhone b.
Proof.
  induction a as [|c a IH]; simpl; [reflexivity|].
  destruct (isPhoneSeparator c); simpl; now rewrite IH.
Qed.

(** X3.  Blanks, hyphens, parentheses and dots play no part in the
    validity of a telephone number, wherever they stand. *)
Theorem isValidPhone_ignores_separators (a b : string) (c : ascii) :
  isPhoneSeparator c = true ->
  isValidPhone (a ++ String c b) = isValidPhone (a ++ b).
Proof.
  intro H. unfold isValidPhone. rewrite !cleanPhone_app. simpl. now rewrite H.
Qed.

Lemma isValidPhone_ignores_separators_example :
  isValidPhone "(555) 123-4567" = isValidPhone "(555)123-4567".
Proof.
  apply (isValidPhone_ignores_separators "(555)" "123-4567" " "). reflexivity.
Defined.

Lemma trimEnd_keeps (c : ascii) (s : string) :
  Js.isWhiteSpace c = false -> Js.trimEnd (String c s) <> "".
Proof.
  intro H. simpl. destruct (Js.trimEnd s); [rewrite H|]; discriminate.
Qed.

(** A string that starts with a character that is not white space is
    not blank. *)
Lemma starts_black_not_blank (c : ascii) (s : string) :
  Js.isWhiteSpace c = false -> blank (Some (String c s)) = false.
Proof.
  intro H. unfold blank, Js.trim. simpl Js.isEmpty at 1.
  cbn [Js.trimStart]. rewrite H. cbn [orb].
  pose proof (trimEnd_keeps c s H) as N.
  destruct (Js.trimEnd (String c s)); [congruence|reflexivity].
Qed.

Lemma isValidEmail_not_blank (e : string) :
  isValidEmail e = true -> blank (Some e) = false.
Proof.
  unfold isValidEmail, emailRegex. rewrite test_spec, Matches_Cat.
  intros (a & r & -> & Ha & _).
  apply Matches_Plus_Class in Ha as [Na H].
  destruct a as [|x a]; [congruence|].
  simpl in H. apply andb_true_iff in H as [H _].
  unfold notSpaceOrAt in H. apply negb_true_iff, orb_false_iff in H as [H _].
  now apply starts_black_not_blank.
Qed.

Lemma blank_false (v : string) : blank (Some v) = false <-> Js.trim v <> "".
Proof.
  unfold blank. destruct v as [|c v]; simpl Js.isEmpty at 1; cbn [orb].
  - split; [discriminate|intro H; now contradiction H].
  - destruct (Js.trim (String c v)); simpl; split; congruence.
Qed.

(** Data that passes the validation has a name, a well-formed e-mail
    address and, if any, a well-formed telephone number. *)
Lemma accepted_is_valid (data : PartialData) :
  validateAppointmentData data = [] ->
  (exists n, name data = Some n /\ Js.trim n <> "")
  /\ (exists e, email data = Some e /\ isValidEmail e = true)
  /\ (forall p, phone data = Some p -> p = "" \/ isValidPhone p = true).
Proof.
  unfold validateAppointmentData.
  destruct data as [n e p]; cbn [name email phone app].
  intro H.
  destruct (blank n) eqn:Bn.
  { destruct (blank e); [|destruct (negb _)];
      (destruct p as [p|]; [destruct (Js.truthy p && negb (isValidPhone p))|]);
      discriminate. }
  destruct (blank e) eqn:Be.
  { destruct p as [p|]; [destruct (Js.truthy p && negb (isValidPhone p))|];
      discriminate. }
  destruct n as [n|]; [|discriminate]. destruct e as [e|]; [|discriminate].
  destruct (isValidEmail e) eqn:Ve; cbn [negb] in H.
  2:{ destruct p as [p|]; [destruct (Js.truthy p && negb (isValidPhone p))|];
        discriminate. }
  split; [exists n; split; [reflexivity|now apply blank_false]|].
  split; [now exists e|].
  intros q [= ->]. destruct q as [|c q]; [now left|right].
  cbn [Js.truthy Js.isEmpty negb andb] in H.
  destruct (isValidPhone (String c q)); [reflexivity|discriminate].
Qed.

(** X4.  [validateAppointmentData] reports nothing exactly when the
    name holds something besides white space, the e-mail address is
    well formed, and the telephone number is missing, empty or well
    formed. *)
Theorem validateAppointmentData_accepts (data : PartialData) :
  validateAppointmentData data = [] <->
  (exists n, name data = Some n /\ Js.trim n <> "")
  /\ (exists e, email data = Some e /\ isValidEmail e = true)
  /\ (forall p, phone data = Some p -> p = "" \/ isValidPhone p = true).
Proof.
  split; [apply accepted_is_valid|].
  unfold validateAppointmentData.
  destruct data as [n e p]; cbn [name email phone app].
  intros ((n' & -> & Hn) & (e' & -> & He) & Hp).
  apply blank_false in Hn. rewrite Hn.
  rewrite (isValidEmail_not_blank e' He), He. cbn [negb].
  destruct p as [p|]; [|reflexivity].
  destruct (Hp p eq_refl) as [-> |V]; [reflexivity|].
  rewrite V. cbn [negb]. now rewrite andb_false_r.
Qed.

End Validation.

(** ** The recorder's file *)

Section RecorderPaths.
Import Recorder.

(** While the recorder says it is recording, the stored path is the one
    a [startRecording] composed. *)
Lemma reachable_path (s : State) :
  reachable s -> isCurrentlyRecording s = true ->
  exists dir now, audioFilePath s = dir ++ "/recording_" ++ Js.ofZ now ++ ".wav".
Proof.
  induction 1 as [|env s R IH|env s R IH|s R IH Hp].
  - discriminate.
  - unfold startRecording, startFailed, setRecording.
    destruct (isCurrentlyRecording s) eqn:E; [intros _; now apply IH|].
    destruct (ensureDir env); [discriminate|].
    destruct (spawn env); [discriminate|].
    intros _. cbn [snd audioFilePath]. now exists (audioDir env), (dateNow env).
  - intro H.
    rewrite (stopRecording_not_recording env s (reachable_holdsProcess s R)) in H.
    discriminate.
  - discriminate.
Qed.

(** What [startRecording] does to an idle recorder: it returns, and
    the recorder records and holds a process; or it throws, and the
    recorder stays idle. *)
Lemma reach_start_idle (env : StartEnv) (s : State) :
  isRecording s = false ->
  match fst (startRecording env s) with
  | Returned _ =>
      isRecording (snd (startRecording env s)) = true
      /\ recordingProcess (snd (startRecording env s)) <> None
  | Threw _ => isRecording (snd (startRecording env s)) = false
  end.
Proof.
  unfold isRecording, startRecording, startFailed. intros ->.
  destruct (ensureDir env); [reflexivity|].
  destruct (spawn env); [reflexivity|]. cbn. split; [reflexivity|discriminate].
Qed.

(** A path returned by [stopRecording] is the stored one. *)
Lemma returned_path (env : StopEnv) (s : State) (p : string) :
  reachable s ->
  fst (stopRecording env s) = Returned p ->
  exists dir now, p = dir ++ "/recording_" ++ Js.ofZ now ++ ".wav".
Proof.
  intros R H. unfold stopRecording, stopFailed in H.
  destruct (isCurrentlyRecording s) eqn:E; [|discriminate].
  destruct (recordingProcess s); [|discriminate]. cbn [negb orb] in H.
  destruct (kill env); [discriminate|].
  destruct (pathExists env); [|discriminate].
  destruct (stat env); [discriminate|].
  injection H as <-. now apply reachable_path.
Qed.

Lemma returned_path_truthy (env : StopEnv) (s : State) (p : string) :
  reachable s -> fst (stopRecording env s) = Returned p -> Js.truthy p = true.
Proof.
  intros R H. destruct (returned_path env s p R H) as (dir & now & ->).
  destruct dir; reflexivity.
Qed.

(** X5.  Whatever calls came before, a path returned by
    [stopRecording] is a file name [recording_<time>.wav] in some
    directory, as composed by a [startRecording]; in particular it is
    never the empty string. *)
Theorem stopRecording_returns_recording_path (env : StopEnv) (s : State) (p : string) :
  reachable s ->
  fst (stopRecording env s) = Returned p ->
  (exists dir now, p = dir ++ "/recording_" ++ Js.ofZ now ++ ".wav")
  /\ Js.truthy p = true.
Proof.
  intros R H. split.
  - exact (returned_path env s p R H).
  - exact (returned_path_truthy env s p R H).
Qed.

Lemma stopRecording_returns_recording_path_example :
  exists dir now,
    "/app/temp/recording_1700000000000.wav"
    = dir ++ "/recording_" ++ Js.ofZ now ++ ".wav".
Proof.
  exact (proj1 (stopRecording_returns_recording_path
                  Examples.fileWritten Examples.recording _
                  (reach_start Examples.soxStarts initial reach_new) eq_refl)).
Defined.

(** X6.  A recording that starts and is then stopped yields the file
    named after the time of the start in the directory of the start,
    whatever the size of the file (an empty file too), and leaves the
    recorder idle with its path and process cleared. *)
Theorem start_then_stop (s : State) (env : StartEnv) (senv : StopEnv)
    (pid : nat) (size : Z) :
  isRecording s = false ->
  ensureDir env = None -> spawn env = inr pid ->
  kill senv = None -> pathExists senv = true -> stat senv = inr size ->
  let s1 := snd (startRecording env s) in
  let s2 := snd (stopRecording senv s1) in
  fst (startRecording env s) = Returned tt
  /\ isRecording s1 = true
  /\ fst (stopRecording senv s1)
     = Returned (audioDir env ++ "/recording_" ++ Js.ofZ (dateNow env) ++ ".wav")
  /\ isRecording s2 = false /\ audioFilePath s2 = "" /\ recordingProcess s2 = None.
Proof.
  intros I D S K X T. cbv zeta. unfold isRecording in *.
  unfold startRecording. rewrite I, D, S. cbn [fst snd].
  unfold stopRecording. cbn [isCurrentlyRecording recordingProcess negb orb].
  rewrite K, X, T. cbn. repeat split.
Qed.

Lemma start_then_stop_example :
  fst (stopRecording Examples.fileWritten
         (snd (startRecording Examples.soxStarts initial)))
  = Returned "/app/temp/recording_1700000000000.wav".
Proof.
  exact (proj1 (proj2 (proj2
           (start_then_stop initial Examples.soxStarts Examples.fileWritten
              4242 32768 eq_refl eq_refl eq_refl eq_refl eq_refl eq_refl)))).
Defined.

End RecorderPaths.

(** ** The names of the recordings *)

Section RecorderNames.
Import Recorder.

Lemma ofZ_inj (a b : Z) : Js.ofZ a = Js.ofZ b -> a = b.
Proof.
  unfold Js.ofZ. intro H.
  assert (Ok : forall z, Z.to_int z <> Decimal.Pos Decimal.Nil
                         /\ Z.to_int z <> Decimal.Neg Decimal.Nil).
  { intros [|p|p]; simpl; split; try discriminate;
      intros [= E]; now apply (DecimalPos.Unsigned.to_uint_nonnil p). }
  apply DecimalZ.to_int_inj.
  destruct (Ok a) as [A1 A2], (Ok b) as [B1 B2].
  pose proof (NilZero.isi _ A1 A2) as Ea.
  pose proof (NilZero.isi _ B1 B2) as Eb.
  rewrite H in Ea. congruence.
Qed.

Lemma append_length (a b : string) :
  String.length (a ++ b) = String.length a + String.length b.
Proof. induction a as [|c a IH]; simpl; [reflexivity|now rewrite IH]. Qed.

Lemma append_cancel_l (a b c : string) : a ++ b = a ++ c -> b = c.
Proof. induction a as [|x a IH]; simpl; [auto|]. intros [= H]. auto. Qed.

Lemma append_cancel_r (a b c : string) : a ++ c = b ++ c -> a = b.
Proof.
  revert b; induction a as [|x a IH]; intros [|y b] H; simpl in H.
  - reflexivity.
  - apply (f_equal String.length) in H. simpl in H.
    rewrite append_length in H. lia.
  - apply (f_equal String.length) in H. simpl in H.
    rewrite append_length in H. lia.
  - injection H as -> H. f_equal. now apply IH.
Qed.

(** X7.  Two recordings that start in the same directory at different
    times are written to different files: no recording overwrites
    another one's file. *)
Theorem recordings_do_not_collide (env1 env2 : StartEnv) (s1 s2 : State) :
  fst (startRecording env1 s1) = Returned tt ->
  fst (startRecording env2 s2) = Returned tt ->
  audioDir env1 = audioDir env2 ->
  dateNow env1 <> dateNow env2 ->
  audioFilePath (snd (startRecording env1 s1))
  <> audioFilePath (snd (startRecording env2 s2)).
Proof.
  unfold startRecording, startFailed.
  destruct (isCurrentlyRecording s1); [discriminate|].
  destruct (ensureDir env1); [discriminate|].
  destruct (spawn env1); [discriminate|].
  destruct (isCurrentlyRecording s2); [discriminate|].
  destruct (ensureDir env2); [discriminate|].
  destruct (spawn env2); [discriminate|].
  cbn [fst snd audioFilePath]. intros _ _ D N E. apply N.
  rewrite D in E. apply append_cancel_l in E.
  change ("/recording_" ++ Js.ofZ (dateNow env1) ++ ".wav")
    with ("/recording_" ++ (Js.ofZ (dateNow env1) ++ ".wav")) in E.
  apply append_cancel_l, append_cancel_r in E. now apply ofZ_inj.
Qed.

Lemma recordings_do_not_collide_example :
  audioFilePath (snd (startRecording Examples.soxStarts initial))
  <> audioFilePath
       (snd (startRecording (mkStartEnv None "/app/temp" 1700000005500 (inr 4243))
                            initial)).
Proof.
  apply recordings_do_not_collide; [reflexivity|reflexivity|reflexivity|].
  simpl. lia.
Defined.

End RecorderNames.

(** ** What the intent service answers *)

Section IntentAnswers.
Import OpenAI.

Variable fs_pathExists : string -> bool.
Variable transcriptions_create : string -> Exn + string.
Variable completions_create : string -> Exn + option string.
Variable JSON_parse : string -> option JsValue.

Let process :=
  processAudioCommand fs_pathExists transcriptions_create completions_create
                      JSON_parse.

(** Every step of a call went well: the file was there, the two
    endpoints answered, the answer was not empty and parsed to a value
    with properties, whose [intent] and [response] are [i] and [rsp]. *)
Let wentWell (path : string) (i rsp : JsValue) : Prop :=
  fs_pathExists path = true
  /\ exists t content v,
       transcriptions_create path = inr t
       /\ completions_create t = inr (Some content)
       /\ content <> ""
       /\ JSON_parse content = Some v
       /\ getProp v "intent" = Returned i
       /\ getProp v "response" = Returned rsp.

Lemma process_inv (path : string) (r : IntentResult) :
  process path = Returned r ->
  (status r = failure /\ intent r = JString "unclear")
  \/ exists i rsp,
       wentWell path i rsp
       /\ r = validate {| intent := i; response := rsp; status := success |}.
Proof.
  unfold process, processAudioCommand, transcribeAudio, analyzeIntent, wentWell.
  destruct (fs_pathExists path); simpl;
    [|intros [= <-]; left; now split].
  destruct (transcriptions_create path) as [e|t] eqn:T; simpl;
    [intros [= <-]; left; now split|].
  destruct (completions_create t) as [e|[content|]] eqn:C; simpl;
    [intros [= <-]; left; now split| |intros [= <-]; left; now split].
  destruct content as [|c content]; simpl;
    [intros [= <-]; left; now split|].
  unfold parseResult.
  destruct (JSON_parse (String c content)) as [v|] eqn:J; simpl;
    [|intros [= <-]; left; now split].
  destruct (getProp v "intent") as [i|e] eqn:I; simpl;
    [|intros [= <-]; left; now split].
  destruct (getProp v "response") as [rsp|e] eqn:R; simpl;
    [|intros [= <-]; left; now split].
  intros [= <-]. right. exists i, rsp. split; [|reflexivity].
  split; [reflexivity|]. exists t, (String c content), v.
  repeat split; try reflexivity; try assumption. discriminate.
Qed.

Lemma validate_status (r : IntentResult) : status (validate r) = status r.
Proof.
  unfold validate.
  now destruct (falsy (intent r) || negb (isKnownIntent (intent r))).
Qed.

Lemma validate_response (r : IntentResult) : response (validate r) = response r.
Proof.
  unfold validate.
  now destruct (falsy (intent r) || negb (isKnownIntent (intent r))).
Qed.

(** X8.  The service answers with status [success] only when every
    step went well: the audio file existed, the transcription and the
    completion succeeded, the completion was not empty and parsed as
    JSON to a value with properties; the response is then the parsed
    value's [response] property, untouched. *)
Theorem success_needs_every_step (path : string) (r : IntentResult) :
  process path = Returned r ->
  status r = success ->
  fs_pathExists path = true
  /\ exists t content v,
       transcriptions_create path = inr t
       /\ completions_create t = inr (Some content)
       /\ content <> ""
       /\ JSON_parse content = Some v
       /\ getProp v "response" = Returned (response r).
Proof.
  intros P S. destruct (process_inv path r P) as [[F _]|(i & rsp & W & ->)].
  - congruence.
  - destruct W as (X & t & content & v & T & C & N & J & _ & R).
    split; [exact X|]. exists t, content, v.
    rewrite validate_response. now repeat split.
Qed.

(** X9.  The service never makes up a booking: the intent
    [book_appointment] is answered only when the model's JSON holds
    exactly that string as its [intent], and the status is then
    [success]. *)
Theorem booking_intent_is_the_models (path : string) (r : IntentResult) :
  process path = Returned r ->
  intent r = JString "book_appointment" ->
  status r = success
  /\ exists t content v,
       transcriptions_create path = inr t
       /\ completions_create t = inr (Some content)
       /\ JSON_parse content = Some v
       /\ getProp v "intent" = Returned (JString "book_appointment").
Proof.
  intros P B. destruct (process_inv path r P) as [[_ U]|(i & rsp & W & ->)].
  - congruence.
  - split; [now rewrite validate_status|].
    destruct W as (_ & t & content & v & T & C & _ & J & I & _).
    exists t, content, v. repeat split; try assumption.
    rewrite I. f_equal.
    destruct (isKnownIntent i) eqn:K.
    + destruct (validate_coerces {| intent := i; response := rsp;
                                    status := success |}) as [_ V].
      rewrite (V K) in B. exact B.
    + destruct (validate_coerces {| intent := i; response := rsp;
                                    status := success |}) as [V _].
      rewrite (V K) in B. discriminate.
Qed.

End IntentAnswers.

Section IntentAnswersExamples.
Import OpenAI Scenarios.

Lemma success_needs_every_step_example :
  anyFile "/app/temp/recording_1700000000000.wav" = true
  /\ exists t content v,
       heard "/app/temp/recording_1700000000000.wav" = inr t
       /\ answered t = inr (Some content)
       /\ content <> ""
       /\ parsed content = Some v
       /\ getProp v "response" = Returned (JString "Booking your appointment now.").
Proof.
  exact (success_needs_every_step anyFile heard answered parsed
           "/app/temp/recording_1700000000000.wav" _ eq_refl eq_refl).
Defined.

Lemma booking_intent_is_the_models_example :
  exists t content v,
    heard "/app/temp/recording_1700000000000.wav" = inr t
    /\ answered t = inr (Some content)
    /\ parsed content = Some v
    /\ getProp v "intent" = Returned (JString "book_appointment").
Proof.
  exact (proj2 (booking_intent_is_the_models anyFile heard answered parsed
                  "/app/temp/recording_1700000000000.wav" _ eq_refl eq_refl)).
Defined.

End IntentAnswersExamples.

(** ** What the form filler touches *)

Section FillerTargets.
Import Dom Locator Filler Targets.

Variable s : Session.
Variable p : Page.

Let sound (tr : list Event) : Prop := forallb (aimed s p) tr = true.

Lemma sound_app (a b : list Event) : sound a -> sound b -> sound (a ++ b)%list.
Proof. unfold sound. rewrite forallb_app. now intros -> ->. Qed.

Lemma sound_bind {A B : Type} (m : M A) (k : A -> M B) :
  sound (fst m) -> (forall a, sound (fst (k a))) -> sound (fst (bind m k)).
Proof.
  destruct m as [t [a|e]]; simpl; intros Hm Hk; [|exact Hm].
  apply sound_app; [exact Hm|apply Hk].
Qed.

Lemma sound_tryCatch {A : Type} (m : M A) (h : Exn -> M A) :
  sound (fst m) -> (forall e, sound (fst (h e))) -> sound (fst (tryCatch m h)).
Proof.
  destruct m as [t [a|e]]; simpl; intros Hm Hh; [exact Hm|].
  apply sound_app; [exact Hm|apply Hh].
Qed.

Lemma sound_if {A : Type} (b : bool) (x y : M A) :
  sound (fst x) -> sound (fst y) -> sound (fst (if b then x else y)).
Proof. now destruct b. Qed.

Lemma sound_act (action : string) (target : option nat)
    (ready : Element -> bool) (ev : nat -> Element -> option Event) :
  (forall i el e, element p i = Some el -> ready el = true ->
                  ev i el = Some e -> aimed s p e = true) ->
  sound (fst (act p action target ready ev)).
Proof.
  intro H.
  destruct (act_cases p action target ready ev)
    as [(i & el & e & _ & L & R & E & ->)| ->]; [|reflexivity].
  unfold sound. simpl. now rewrite (H i el e L R E).
Qed.

Lemma sound_fill (t : option nat) (v : string) : sound (fst (fill p t v)).
Proof.
  apply sound_act. intros i el e L R [= <-]. simpl. now rewrite L.
Qed.

Lemma sound_click (t : option nat) : sound (fst (click p t)).
Proof.
  apply sound_act. intros i el e L R [= <-]. simpl. now rewrite L.
Qed.

Lemma sound_selectOptionIndex (t : option nat) (k : nat) :
  sound (fst (selectOptionIndex p t k)).
Proof.
  apply sound_act. intros i el e L R.
  destruct (Nat.ltb k (length (options el))) eqn:K; [|discriminate].
  intros [= <-]. simpl. now rewrite L, R, K.
Qed.

Lemma sound_selectOptionLabel (t : option nat) (l : string) :
  sound (fst (selectOptionLabel p t l)).
Proof.
  apply sound_act. intros i el e L R.
  destruct (findIndex _ (options el) 0) as [k|] eqn:F; [|discriminate].
  intros [= <-]. simpl. rewrite L, R. simpl.
  apply findIndex_from in F as (_ & x & N & _).
  apply Nat.ltb_lt. rewrite Nat.sub_0_r in N.
  apply nth_error_Some. congruence.
Qed.

Lemma sound_takeScreenshot : sound (fst (takeScreenshot s)).
Proof.
  unfold takeScreenshot. destruct (negb (initialized s)); [reflexivity|].
  destruct (screenshotFails s); reflexivity.
Qed.

Ltac sound_steps :=
  repeat first
    [ apply sound_fill
    | apply sound_click
    | apply sound_selectOptionIndex
    | apply sound_selectOptionLabel
    | apply sound_takeScreenshot
    | apply sound_bind; [|intro]
    | apply sound_tryCatch; [|intro]
    | apply sound_if
    | reflexivity ].

Lemma sound_fillFields (data : AppointmentData) :
  sound (fst (fillFields s p data)).
Proof.
  unfold fillFields, fillName, fillPhone, fillEmail, fillDate, fillTime,
    fillService, fillComments, fillFirst, selectDefault.
  sound_steps.
  - destruct (matchingOption _ _); sound_steps.
  - destruct (comments data) as [c|]; sound_steps.
Qed.

Lemma sound_prepare (data : AppointmentData) : sound (fst (prepare s p data)).
Proof.
  unfold prepare.
  apply sound_bind; [|intro].
  { unfold goto. destruct (gotoFails s); [reflexivity|].
    unfold sound. simpl. now rewrite String.eqb_refl. }
  apply sound_bind; [|intro].
  { unfold waitForForm. destruct (isVisible p (firstForm p)); reflexivity. }
  apply sound_bind; [apply sound_fillFields|intro; apply sound_takeScreenshot].
Qed.

Lemma sound_clickFirstVisible (selectors : list Selector) :
  sound (fst (clickFirstVisible p selectors)).
Proof.
  induction selectors as [|selector rest IH]; [reflexivity|].
  simpl. sound_steps. exact IH.
Qed.

Lemma sound_clickLastFormButton : sound (fst (clickLastFormButton p)).
Proof.
  unfold clickLastFormButton.
  destruct (all p [formButton false]); sound_steps.
Qed.

(** The positions a search returns are positions of elements that pass
    the test. *)
Lemma positions_sound (f : Element -> bool) (l : list Element) (from i : nat) :
  In i (positions f l from) ->
  from <= i /\ exists el, nth_error l (i - from) = Some el /\ f el = true.
Proof.
  revert from; induction l as [|x l IH]; intros from H; simpl in H; [easy|].
  assert (Later : In i (positions f l (S from)) ->
                  from <= i /\ exists el, nth_error (x :: l) (i - from) = Some el
                                          /\ f el = true).
  { intro H'. apply IH in H' as (Le & el & N & F). split; [lia|].
    exists el. split; [|exact F].
    replace (i - from) with (S (i - S from)) by lia. exact N. }
  destruct (f x) eqn:Fx; [|now apply Later].
  destruct H as [<- |H]; [|now apply Later].
  split; [lia|]. exists x. rewrite Nat.sub_diag. now split.
Qed.

Lemma last_in {A : Type} (x : A) (l : list A) (d : A) : In (last (x :: l) d) (x :: l).
Proof.
  revert x; induction l as [|y l IH]; intro x; [now left|].
  right. exact (IH y).
Qed.

(** The button the script picks is a button or a submit input of the
    first form. *)
Lemma scriptClick_target (b : nat) :
  scriptClick p = ([ScriptClick b], Returned true) ->
  exists f el,
    firstForm p = Some f /\ element p b = Some el
    /\ descendsFrom f el = true
    /\ (isTag "button" el
        || (isTag "input" el && attrTest el (AttrIs "type" "submit"))) = true.
Proof.
  unfold scriptClick. destruct (firstForm p) as [f|]; [|discriminate].
  assert (Among : In b (scriptButtons p f) ->
                  exists f0 el, Some f = Some f0 /\ element p b = Some el
                    /\ descendsFrom f0 el = true
                    /\ (isTag "button" el
                        || (isTag "input" el
                            && attrTest el (AttrIs "type" "submit"))) = true).
  { intro H. apply positions_sound in H as (_ & el & N & F).
    rewrite Nat.sub_0_r in N. apply andb_true_iff in F as [D T].
    exists f, el. now repeat split. }
  destruct (find (isSubmitAt p) (scriptButtons p f)) as [b'|] eqn:F.
  - intros [= <-]. apply find_some in F as [F _]. now apply Among.
  - destruct (scriptButtons p f) as [|x l] eqn:B; [discriminate|].
    intros [= <-]. apply Among. apply last_in.
Qed.

Lemma sound_scriptClick : sound (fst (scriptClick p)).
Proof.
  destruct (scriptClick_cases p) as [-> |(b & E)]; [reflexivity|].
  rewrite E. destruct (scriptClick_target b E) as (f & el & F & L & D & T).
  unfold sound. simpl. rewrite L, F, D. simpl.
  apply orb_true_iff in T as [T|T]; [now rewrite T|].
  apply andb_true_iff in T as [T _]. rewrite T. now rewrite orb_true_r.
Qed.

Lemma sound_strategies : sound (fst (strategies p)).
Proof.
  unfold strategies.
  sound_steps; try apply sound_clickFirstVisible;
    try apply sound_clickLastFormButton; try apply sound_scriptClick.
Qed.


End FillerTargets.

(** ** How a run of the form filler ends *)

Section FillerOutcomes.
Import Dom Locator Filler Targets.

(** X11.  A call of [fillAppointmentForm] that throws has clicked
    nothing and has not started the submission: the form was not
    submitted.  The error is the refusal of an uninitialised filler,
    the wrapped error of the failed step, or, when the diagnostic
    screenshot of the handler fails as well, the screenshot's error in
    place of the original one. *)
Theorem thrown_before_any_click (s : Session) (p : Page) (data : AppointmentData)
    (e : Exn) :
  snd (fillAppointmentForm s p data) = Threw e ->
  clicks (fst (fillAppointmentForm s p data)) = 0
  /\ announced (fst (fillAppointmentForm s p data)) = []
  /\ (e = Error "Browser not initialized. Call initialize() first."
      \/ (exists cause, screenshotFails s = None
            /\ snd (prepare s p data) = Threw cause
            /\ e = Error ("Failed to fill appointment form: " ++ messageOf cause))
      \/ (exists cause, screenshotFails s = Some cause
            /\ e = Error ("Failed to take screenshot: " ++ messageOf cause))).
Proof.
  unfold fillAppointmentForm.
  destruct (initialized s) eqn:I; cbn [negb].
  2:{ intros [= <-]. repeat split. now left. }
  destruct (prepare s p data) as [tr0 [[]|e0]] eqn:P.
  - cbn [bind tryCatch fst snd].
    destruct (submit_cases s p) as (n & tail & r & _ & -> & _). discriminate.
  - pose proof (quiet_prepare s p data) as Q0. rewrite P in Q0. cbn [fst] in Q0.
    rewrite (tryCatch_threw _ _ tr0 e0 (bind_threw _ _ tr0 e0 eq_refl)).
    unfold takeScreenshot. rewrite I. cbn [negb].
    destruct (screenshotFails s) as [c|] eqn:F;
      cbn [bind emit throw fst snd app]; intros [= <-].
    + destruct (quiet_nothing (tr0 ++ [Log "Error filling form"]))
        as (A & C & _); [apply quiet_app; [exact Q0|reflexivity]|].
      repeat split; [exact C|exact A|]. right; right. now exists c.
    + destruct (quiet_nothing (tr0 ++ [Log "Error filling form"; Screenshot]))
        as (A & C & _); [apply quiet_app; [exact Q0|reflexivity]|].
      repeat split; [exact C|exact A|]. right; left. now exists e0.
Qed.

Lemma thrown_before_any_click_example :
  clicks (fst (fillAppointmentForm Examples.session Examples.readOnlyNamePage
                 Examples.request)) = 0.
Proof.
  exact (proj1 (thrown_before_any_click Examples.session Examples.readOnlyNamePage
                  Examples.request _ eq_refl)).
Defined.

(** X12.  A call of [fillAppointmentForm] that returns [true] has
    prepared the form, announced the strategies up to the one that
    worked, clicked exactly one control, and taken a screenshot after
    the click; nothing follows. *)
Theorem true_means_one_click (s : Session) (p : Page) (data : AppointmentData)
    (tr : list Event) :
  fillAppointmentForm s p data = (tr, Returned true) ->
  exists tr0 n c,
    prepare s p data = (tr0, Returned tt)
    /\ 1 <= n <= 4 /\ isClick c = true
    /\ tr = (tr0 ++ map Strategy (seq 1 n) ++ [c; Screenshot])%list
    /\ clicks tr = 1.
Proof.
  intro H.
  destruct (fillAppointmentForm_cases s p data)
    as [(_ & E)|[(tr0 & e & tr1 & e' & _ & _ & _ & E)|(tr0 & I & P & E)]];
    rewrite E in H; try discriminate.
  injection H as <- R.
  pose proof (prepare_returned_screenshot s p data tr0 P) as Shot.
  pose proof (quiet_prepare s p data) as Q0. rewrite P in Q0. cbn [fst] in Q0.
  unfold submit in *.
  destruct (strategies_cases p)
    as (n & Hn & [(c & Hc & S)|[(-> & e & S)|(-> & S)]]); rewrite S in *.
  - cbn [bind tryCatch fst snd] in *. rewrite Shot in *.
    cbn [bind tryCatch ret fst snd app] in *.
    exists tr0, n, c. repeat split; try assumption; try lia.
    + now rewrite <- !app_assoc.
    + rewrite quiet_clicks by exact Q0.
      rewrite <- app_assoc, clicks_strategies. unfold clicks. simpl.
      now rewrite Hc.
  - cbn [bind tryCatch emit ret fst snd app] in R. discriminate.
  - cbn [bind tryCatch emit ret fst snd app] in R. discriminate.
Qed.

Lemma true_means_one_click_example :
  exists tr0 n c,
    prepare Examples.session Examples.bookingPage Examples.request
    = (tr0, Returned tt)
    /\ 1 <= n <= 4 /\ isClick c = true
    /\ fst (fillAppointmentForm Examples.session Examples.bookingPage
              Examples.request)
       = (tr0 ++ map Strategy (seq 1 n) ++ [c; Screenshot])%list
    /\ clicks (fst (fillAppointmentForm Examples.session Examples.bookingPage
                      Examples.request)) = 1.
Proof.
  apply (true_means_one_click Examples.session Examples.bookingPage
           Examples.request).
  vm_compute. reflexivity.
Defined.

(** Every element that passes the test is among the positions found. *)
Lemma positions_complete (f : Element -> bool) (l : list Element) (from k : nat)
    (el : Element) :
  nth_error l k = Some el -> f el = true -> In (from + k) (positions f l from).
Proof.
  revert from k; induction l as [|x l IH]; intros from k N F.
  - destruct k; discriminate.
  - destruct k as [|k]; simpl in N.
    + injection N as ->. simpl. rewrite F, Nat.add_0_r. now left.
    + simpl. replace (from + S k) with (S from + k) by lia.
      destruct (f x); [right|]; now apply IH.
Qed.

Lemma clickLastFormButton_nothing (p : Page) (t : list Event) :
  clickLastFormButton p = (t, Returned false) -> all p [formButton false] = [].
Proof.
  unfold clickLastFormButton.
  destruct (all p [formButton false]) as [|b bs]; [reflexivity|].
  unfold click.
  destruct (act_cases p "locator.click" (Some (last (b :: bs) 0))
              (fun el => visible el && clickable el)
              (fun i _ => Some (Click i)))
    as [(i & el & e & _ & _ & _ & _ & ->)| ->]; discriminate.
Qed.

Lemma quiet_no_script (tr : list Event) (b : nat) :
  quiet tr -> ~ In (ScriptClick b) tr.
Proof.
  unfold quiet. rewrite forallb_forall. intros Q H.
  specialize (Q _ H). discriminate.
Qed.

(** The script click is in the trace of the cascade only when the
    fourth strategy made it. *)
Lemma strategies_script (p : Page) (b : nat) :
  In (ScriptClick b) (fst (strategies p)) ->
  all p [formButton false] = []
  /\ scriptClick p = ([ScriptClick b], Returned true).
Proof.
  unfold strategies.
  destruct (clickFirstVisible_cases p submitSelectors) as [-> |(i & ->)];
    cbn [bind emit ret fst snd negb app].
  2:{ intros [H|[H|[]]]; discriminate. }
  destruct (clickFirstVisible_cases p textButtons) as [-> |(i & ->)];
    cbn [bind emit ret fst snd negb app].
  2:{ intros [H|[H|[H|[]]]]; discriminate. }
  destruct (clickLastFormButton_cases p) as [E |[(i & E)|(e & E)]];
    pose proof E as E'; rewrite E; cbn [bind emit ret fst snd negb app].
  2:{ intros [H|[H|[H|[H|[]]]]]; discriminate. }
  2:{ intros [H|[H|[H|[]]]]; discriminate. }
  apply clickLastFormButton_nothing in E'.
  destruct (scriptClick_cases p) as [-> |(b' & ->)];
    cbn [bind emit ret fst snd negb app].
  - intros [H|[H|[H|[H|[]]]]]; discriminate.
  - intros [H|[H|[H|[H|[H|[]]]]]]; try discriminate.
    injection H as ->. now split.
Qed.

(** X13.  The click made by the script inside the page is a last
    resort: when a run makes it, no form of the page holds a [button],
    and the element clicked is an [input] of type [submit] of the first
    form. *)
Theorem script_click_is_last_resort (s : Session) (p : Page)
    (data : AppointmentData) (b : nat) :
  In (ScriptClick b) (fst (fillAppointmentForm s p data)) ->
  all p [formButton false] = []
  /\ exists f el,
       firstForm p = Some f /\ element p b = Some el
       /\ descendsFrom f el = true
       /\ isTag "input" el = true
       /\ attrTest el (AttrIs "type" "submit") = true.
Proof.
  intro H.
  assert (S : In (ScriptClick b) (fst (strategies p))).
  { destruct (fillAppointmentForm_cases s p data)
      as [(_ & E)|[(tr0 & e & tr1 & e' & _ & P & Q1 & E)|(tr0 & I & P & E)]];
      rewrite E in H; cbn [fst] in H.
    - destruct H.
    - pose proof (quiet_prepare s p data) as Q0. rewrite P in Q0.
      apply in_app_or in H as [H|H]; [|now apply quiet_no_script in H].
      now apply quiet_no_script in H.
    - pose proof (quiet_prepare s p data) as Q0. rewrite P in Q0.
      apply in_app_or in H as [H|H]; [now apply quiet_no_script in H|].
      destruct (submit_cases s p)
        as (n & tail & r & _ & Sub & [(c & q & _ & Rq & -> & St)|(q & Rq & -> & _)]);
        rewrite Sub in H; cbn [fst] in H; apply in_app_or in H as [H|H];
        try (apply in_map_iff in H as (k & K & _); discriminate).
      * rewrite St. cbn [fst]. apply in_or_app. right.
        destruct H as [<- |[H|[]]]; [now left|].
        rewrite H in Rq. discriminate.
      * destruct H as [H|[]]. rewrite H in Rq. discriminate. }
  apply strategies_script in S as [None E]. split; [exact None|].
  destruct (scriptClick_target p b E) as (f & el & F & L & D & T).
  assert (B : isTag "button" el = false).
  { destruct (isTag "button" el) eqn:B; [exfalso|reflexivity].
    assert (M : matches [formButton false] el = true).
    { unfold matches, matchesCompound, formButton. cbn.
      unfold descendsFrom in D. destruct (inForm el); [|discriminate].
      now rewrite B. }
    pose proof (positions_complete (matches [formButton false]) (elements p)
                  0 b el L M) as In0.
    unfold all in None. simpl in In0. rewrite None in In0. destruct In0. }
  rewrite B in T. simpl in T. apply andb_true_iff in T as [Ti Ts].
  exists f, el. now repeat split.
Qed.

Lemma script_click_is_last_resort_example :
  all Scenarios.hiddenSubmitInputPage [formButton false] = []
  /\ exists f el,
       firstForm Scenarios.hiddenSubmitInputPage = Some f
       /\ element Scenarios.hiddenSubmitInputPage 2 = Some el
       /\ descendsFrom f el = true
       /\ isTag "input" el = true
       /\ attrTest el (AttrIs "type" "submit") = true.
Proof.
  apply (script_click_is_last_resort Examples.session
           Scenarios.hiddenSubmitInputPage Examples.request 2).
  vm_compute. tauto.
Defined.

End FillerOutcomes.

(** ** The application *)

Section Application.
Import Filler App.

Lemma isString_spec (v : OpenAI.JsValue) (s : string) :
  isString v s = true <-> v = OpenAI.JString s.
Proof.
  destruct v; simpl; try (split; [discriminate|intro H; discriminate H]).
  rewrite String.eqb_eq. split; [now intros ->|now intros [= ->]].
Qed.

(** [handleIntent] declines without touching the browser, or runs the
    form filler once and answers what it answered, [false] if it
    threw. *)
Lemma handleIntent_cases (s : Session) (p : Dom.Page) (r : OpenAI.IntentResult) :
  ((OpenAI.intent r <> OpenAI.JString "book_appointment"
    \/ OpenAI.status r = OpenAI.failure)
   /\ handleIntent s p r = ([], Returned false))
  \/ (OpenAI.intent r = OpenAI.JString "book_appointment"
      /\ OpenAI.status r = OpenAI.success
      /\ ((exists b, fillAppointmentForm s p appointmentData
                     = (fst (handleIntent s p r), Returned b)
                     /\ snd (handleIntent s p r) = Returned b)
          \/ (exists tr e, fillAppointmentForm s p appointmentData = (tr, Threw e)
                /\ handleIntent s p r
                   = ((tr ++ [Log "Error filling form"])%list, Returned false)))).
Proof.
  unfold handleIntent.
  destruct (isString (OpenAI.intent r) "book_appointment") eqn:I; cbn [negb].
  2:{ left. split; [|reflexivity]. left. intro H.
      apply isString_spec in H. congruence. }
  apply isString_spec in I.
  destruct (OpenAI.status r) eqn:St; [|left; split; [now right|reflexivity]].
  right. split; [exact I|]. split; [reflexivity|].
  destruct (fillAppointmentForm s p appointmentData) as [tr [[|]|e]];
    cbn [bind tryCatch emit ret fst snd app].
  - left. exists true. now rewrite app_nil_r.
  - left. exists false. now rewrite app_nil_r.
  - right. now exists tr, e.
Qed.

(** X14.  [handleIntent] never throws; it makes the browser act only
    for the intent [book_appointment] with status [success]; and it
    answers [true] exactly when, for such an intent, the form filler
    returned [true] on the appointment the application carries. *)
Theorem handleIntent_books_only_on_request (s : Session) (p : Dom.Page)
    (r : OpenAI.IntentResult) :
  (exists b, snd (handleIntent s p r) = Returned b)
  /\ (fst (handleIntent s p r) <> [] ->
      OpenAI.intent r = OpenAI.JString "book_appointment"
      /\ OpenAI.status r = OpenAI.success)
  /\ (snd (handleIntent s p r) = Returned true <->
      OpenAI.intent r = OpenAI.JString "book_appointment"
      /\ OpenAI.status r = OpenAI.success
      /\ snd (fillAppointmentForm s p appointmentData) = Returned true).
Proof.
  destruct (handleIntent_cases s p r)
    as [(D & E)|(I & St & [(b & F & R)|(tr & e & F & E)])].
  - rewrite E. cbn [fst snd]. split; [now exists false|].
    split; [congruence|]. split; [discriminate|].
    intros (I & St & _). destruct D; congruence.
  - rewrite R, F. cbn [snd]. split; [now exists b|]. split; [now split|].
    split; [now intros [= ->]|now intros (_ & _ & H)].
  - rewrite E, F. cbn [snd]. split; [now exists false|]. split; [now split|].
    split; [discriminate|]. intros (_ & _ & H). discriminate.
Qed.

Lemma length_positive {A : Type} (l : list A) : Nat.ltb 0 (length l) = false <-> l = [].
Proof. destruct l; cbn; split; intro H; try reflexivity; discriminate H. Qed.

(** X15.  [testWithManualData] never throws; data that fails the
    validation never reaches the browser: whenever the browser is made
    to act, the name holds more than white space, the e-mail address
    is well formed and the telephone number is empty or well formed;
    and the answer is [true] only when the form filler returned
    [true]. *)
Theorem testWithManualData_guards_the_browser (s : Session) (p : Dom.Page)
    (data : AppointmentData) :
  (exists b, snd (testWithManualData s p data) = Returned b)
  /\ (fst (testWithManualData s p data) <> [] ->
      Js.trim (name data) <> ""
      /\ Config.isValidEmail (email data) = true
      /\ (phone data = "" \/ Config.isValidPhone (phone data) = true))
  /\ (snd (testWithManualData s p data) = Returned true ->
      Config.validateAppointmentData (asPartial data) = []
      /\ snd (fillAppointmentForm s p data) = Returned true).
Proof.
  unfold testWithManualData.
  destruct (Nat.ltb 0 (length (Config.validateAppointmentData (asPartial data))))
    eqn:V; cbn [tryCatch ret fst snd].
  - split; [now exists false|]. split; [congruence|discriminate].
  - apply length_positive in V.
    assert (Ok : Js.trim (name data) <> ""
                 /\ Config.isValidEmail (email data) = true
                 /\ (phone data = "" \/ Config.isValidPhone (phone data) = true)).
    { apply accepted_is_valid in V as ((n & [= <-] & N) & (e & [= <-] & E) & P).
      repeat split; [exact N|exact E|]. now apply P. }
    destruct (fillAppointmentForm s p data) as [tr [b|e]];
      cbn [bind tryCatch emit ret fst snd app].
    + split; [now exists b|]. split; [intros _; exact Ok|].
      intros [= ->]. now split.
    + split; [now exists false|]. split; [intros _; exact Ok|discriminate].
Qed.

End Application.

Section VoiceCommand.
Import Filler App.

Variable fs_pathExists : string -> bool.
Variable transcriptions_create : string -> Exn + string.
Variable completions_create : string -> Exn + option string.
Variable JSON_parse : string -> option OpenAI.JsValue.

Let command :=
  processVoiceCommand fs_pathExists transcriptions_create completions_create
                      JSON_parse.
Let understand :=
  OpenAI.processAudioCommand fs_pathExists transcriptions_create
                             completions_create JSON_parse.

(** The recorder as the wait leaves it. *)
Let waited (env : VoiceEnv) (rec1 : Recorder.State) : Recorder.State :=
  if processError env then Recorder.onProcessError rec1 else rec1.

(** X16.  A voice command answers [true] only when every stage
    worked: the recording started, no process error was reported
    during the wait, the recording stopped and left a file, the intent
    service answered [book_appointment] with status [success], the
    form filler returned [true] on the appointment the application
    carries, and the reply was spoken. *)
Theorem voice_command_succeeds_end_to_end (env : VoiceEnv) (rec : Recorder.State)
    (s : Session) (p : Dom.Page) :
  result (command env rec s p) = true ->
  processError env = false
  /\ exists rec1 rec3 path r,
       Recorder.startRecording (startEnv env) rec = (Returned tt, rec1)
       /\ Recorder.stopRecording (stopEnv env) rec1 = (Returned path, rec3)
       /\ recorded env path = true
       /\ understand path = Returned r
       /\ OpenAI.intent r = OpenAI.JString "book_appointment"
       /\ OpenAI.status r = OpenAI.success
       /\ snd (fillAppointmentForm s p appointmentData) = Returned true
       /\ playTextToSpeech env (OpenAI.response r) = None.
Proof.
  unfold command, processVoiceCommand. fold understand.
  destruct (Recorder.startRecording (startEnv env) rec) as [[[]|e] rec1] eqn:Start;
    [|discriminate].
  destruct (processError env) eqn:PE.
  { rewrite (stopRecording_refused (stopEnv env) (Recorder.onProcessError rec1)
               eq_refl). discriminate. }
  destruct (Recorder.stopRecording (stopEnv env) rec1) as [[path|e] rec3] eqn:Stop;
    [|discriminate].
  destruct (Js.truthy path); cbn [negb orb]; [|discriminate].
  destruct (recorded env path) eqn:Rec; cbn [negb]; [|discriminate].
  destruct (understand path) as [r|e] eqn:U; [|discriminate].
  destruct (handleIntent s p r) as [tr [handled|e]] eqn:H; [|discriminate].
  destruct (playTextToSpeech env (OpenAI.response r)) eqn:Say; [discriminate|].
  cbn [result]. intros ->. split; [reflexivity|].
  exists rec1, rec3, path, r. repeat split; try reflexivity; try assumption;
    destruct (handleIntent_cases s p r)
      as [(_ & E)|(I & St & [(b & F & R)|(tr' & e & _ & E)])];
    try (rewrite E in H; discriminate); try assumption.
  rewrite H in R. cbn [snd] in R. rewrite F. cbn [snd]. congruence.
Qed.

(** X17.  When the reply cannot be spoken the command answers
    [false], whatever the browser has done by then: what the browser
    was made to do, the recorder and the removal of the file are the
    same as with a speech command that works. *)
Theorem speech_failure_fails_the_command (env : VoiceEnv) (rec : Recorder.State)
    (s : Session) (p : Dom.Page) :
  (forall text, playTextToSpeech env text <> None) ->
  let run := command env rec s p in
  let spoken := command (withSpeech (fun _ => None) env) rec s p in
  result run = false
  /\ browser run = browser spoken
  /\ recorder run = recorder spoken
  /\ removed run = removed spoken.
Proof.
  intro Fails. unfold command, processVoiceCommand.
  cbn [withSpeech startEnv processError stopEnv recorded playTextToSpeech present
       cleanup].
  destruct (Recorder.startRecording (startEnv env) rec) as [[[]|e] rec1];
    [|now repeat split].
  destruct (Recorder.stopRecording (stopEnv env) _) as [[path|e] rec3];
    [|now repeat split].
  destruct (negb (Js.truthy path) || negb (recorded env path));
    [now repeat split|].
  destruct (OpenAI.processAudioCommand _ _ _ _ path) as [r|e]; [|now repeat split].
  destruct (handleIntent s p r) as [tr [handled|e]]; [|now repeat split].
  destruct (playTextToSpeech env (OpenAI.response r)) eqn:Say;
    [now repeat split|].
  now apply Fails in Say.
Qed.

(** X18.  A voice command on an idle recorder never leaves the
    recorder recording, and it asks for the removal of the audio file
    exactly when the recording returned a file and that file is still
    there at the end, whether the command succeeded or not. *)
Theorem voice_command_cleans_up (env : VoiceEnv) (rec : Recorder.State)
    (s : Session) (p : Dom.Page) :
  Recorder.reachable rec ->
  Recorder.isRecording rec = false ->
  Recorder.isRecording (recorder (command env rec s p)) = false
  /\ forall path,
       removed (command env rec s p) = Some path <->
       fst (Recorder.stopRecording (stopEnv env)
              (waited env (snd (Recorder.startRecording (startEnv env) rec))))
       = Returned path
       /\ fst (Recorder.startRecording (startEnv env) rec) = Returned tt
       /\ present env path = true.
Proof.
  intros R Idle. unfold command, processVoiceCommand, waited.
  pose proof (reach_start_idle (startEnv env) rec Idle) as Started.
  destruct (Recorder.startRecording (startEnv env) rec) as [[[]|e] rec1] eqn:Start;
    cbn [fst snd] in *.
  2:{ cbn [recorder removed cleanup]. split; [apply Started|].
      intro path. split; [discriminate|]. intros (_ & H & _). discriminate. }
  destruct Started as [Rec1 Proc].
  assert (R1 : Recorder.reachable rec1).
  { change rec1 with (snd (Returned tt, rec1)). rewrite <- Start.
    now apply Recorder.reach_start. }
  set (rec2 := if processError env then Recorder.onProcessError rec1 else rec1).
  assert (R2 : Recorder.reachable rec2).
  { unfold rec2. destruct (processError env); [|exact R1].
    apply Recorder.reach_error; [exact R1|exact Proc]. }
  pose proof (stopRecording_not_recording (stopEnv env) rec2
                (reachable_holdsProcess rec2 R2)) as Idle3.
  pose proof (returned_path_truthy (stopEnv env) rec2) as Truthy.
  destruct (Recorder.stopRecording (stopEnv env) rec2) as [[path|e] rec3] eqn:Stop;
    cbn [fst snd] in *.
  2:{ cbn [recorder removed cleanup]. split; [exact Idle3|].
      intro path. split; [discriminate|]. intros (H & _). discriminate. }
  specialize (Truthy path R2 eq_refl).
  assert (Clean : forall (b : bool) tr said,
            Recorder.isRecording
              (recorder {| result := b; recorder := rec3; browser := tr;
                           spoken := said;
                           removed := cleanup env (Some path) |}) = false
            /\ (forall path',
                  removed {| result := b; recorder := rec3; browser := tr;
                             spoken := said;
                             removed := cleanup env (Some path) |} = Some path'
                  <-> Returned path = Returned path'
                      /\ Returned tt = Returned tt /\ present env path' = true)).
  { intros b tr said. cbn [recorder removed cleanup]. split; [exact Idle3|].
    intro path'. rewrite Truthy. cbn [andb].
    destruct (present env path) eqn:Pr; split.
    - intros [= <-]. now repeat split.
    - now intros ([= <-] & _).
    - discriminate.
    - intros ([= <-] & _ & H). congruence. }
  rewrite Truthy. cbn [negb orb].
  destruct (recorded env path); cbn [negb]; [|apply Clean].
  destruct (OpenAI.processAudioCommand _ _ _ _ path) as [r|e]; [|apply Clean].
  destruct (handleIntent s p r) as [tr [handled|e]]; [|apply Clean].
  destruct (playTextToSpeech env (OpenAI.response r)); apply Clean.
Qed.

(** X26.  A voice command makes the browser act only on the model's
    word: whenever the browser does anything, a recording was made and
    found on disk, it was transcribed, and the model's answer parsed
    to a value whose [intent] is exactly [book_appointment]. *)
Theorem browser_acts_only_on_booking_intent (env : VoiceEnv) (rec : Recorder.State)
    (s : Session) (p : Dom.Page) :
  browser (command env rec s p) <> [] ->
  exists path t content v,
    recorded env path = true
    /\ transcriptions_create path = inr t
    /\ completions_create t = inr (Some content)
    /\ JSON_parse content = Some v
    /\ OpenAI.getProp v "intent" = Returned (OpenAI.JString "book_appointment").
Proof.
  unfold command, processVoiceCommand.
  destruct (Recorder.startRecording (startEnv env) rec) as [[[]|e] rec1];
    [|intro H; now contradiction H].
  destruct (Recorder.stopRecording (stopEnv env) _) as [[path|e] rec3];
    [|intro H; now contradiction H].
  destruct (Js.truthy path); cbn [negb orb]; [|intro H; now contradiction H].
  destruct (recorded env path) eqn:Rec; cbn [negb]; [|intro H; now contradiction H].
  destruct (OpenAI.processAudioCommand _ _ _ _ path) as [r|e] eqn:U;
    [|intro H; now contradiction H].
  intro H.
  assert (Acted : fst (handleIntent s p r) <> []).
  { destruct (handleIntent s p r) as [tr [handled|e]]; [|exact H].
    destruct (playTextToSpeech env (OpenAI.response r)); exact H. }
  destruct (handleIntent_cases s p r) as [(_ & E)|(I & _)];
    [rewrite E in Acted; now contradiction Acted|].
  destruct (process_inv _ _ _ _ path r U) as [[_ Un]|(i & rsp & W & V)];
    [congruence|].
  destruct W as (_ & t & content & v & T & C & _ & J & Gi & _).
  exists path, t, content, v. repeat split; try assumption.
  rewrite Gi. f_equal. rewrite V in I.
  destruct (OpenAI.isKnownIntent i) eqn:K.
  - destruct (validate_coerces {| OpenAI.intent := i; OpenAI.response := rsp;
                                  OpenAI.status := OpenAI.success |}) as [_ Keep].
    rewrite (Keep K) in I. exact I.
  - destruct (validate_coerces {| OpenAI.intent := i; OpenAI.response := rsp;
                                  OpenAI.status := OpenAI.success |}) as [Coerce _].
    rewrite (Coerce K) in I. discriminate.
Qed.

End VoiceCommand.

Section VoiceCommandExamples.
Import Filler App Scenarios.

Let command :=
  processVoiceCommand anyFile heard answered parsed.

(** On the booking form, with a recorder, a model and a speech command
    that work, the voice command books. *)
Lemma voice_command_succeeds_end_to_end_example :
  processError allGoesWell = false
  /\ exists rec1 rec3 path r,
       Recorder.startRecording (startEnv allGoesWell) Recorder.initial
       = (Returned tt, rec1)
       /\ Recorder.stopRecording (stopEnv allGoesWell) rec1 = (Returned path, rec3)
       /\ recorded allGoesWell path = true
       /\ OpenAI.processAudioCommand anyFile heard answered parsed path = Returned r
       /\ OpenAI.intent r = OpenAI.JString "book_appointment"
       /\ OpenAI.status r = OpenAI.success
       /\ snd (fillAppointmentForm Examples.session Examples.bookingPage
                 appointmentData) = Returned true
       /\ playTextToSpeech allGoesWell (OpenAI.response r) = None.
Proof.
  apply (voice_command_succeeds_end_to_end anyFile heard answered parsed
           allGoesWell Recorder.initial Examples.session Examples.bookingPage).
  vm_compute. reflexivity.
Defined.

(** The same command without a working speech command answers [false],
    although the form was submitted. *)
Lemma speech_failure_fails_the_command_example :
  result (command (withSpeech (fun _ => Some (Error "spawn say ENOENT")) allGoesWell)
            Recorder.initial Examples.session Examples.bookingPage) = false
  /\ clicks (browser (command
                        (withSpeech (fun _ => Some (Error "spawn say ENOENT"))
                                    allGoesWell)
                        Recorder.initial Examples.session Examples.bookingPage)) = 1.
Proof.
  split.
  - apply (speech_failure_fails_the_command anyFile heard answered parsed
             (withSpeech (fun _ => Some (Error "spawn say ENOENT")) allGoesWell)
             Recorder.initial Examples.session Examples.bookingPage).
    intros text H. discriminate H.
  - vm_compute. reflexivity.
Defined.

Lemma voice_command_cleans_up_example :
  Recorder.isRecording
    (recorder (command allGoesWell Recorder.initial Examples.session
                 Examples.bookingPage)) = false
  /\ removed (command allGoesWell Recorder.initial Examples.session
                Examples.bookingPage)
     = Some "/app/temp/recording_1700000000000.wav".
Proof.
  destruct (voice_command_cleans_up anyFile heard answered parsed allGoesWell
              Recorder.initial Examples.session Examples.bookingPage
              Recorder.reach_new eq_refl) as [Idle Removed].
  split; [exact Idle|]. apply Removed. vm_compute. now repeat split.
Defined.

Lemma browser_acts_only_on_booking_intent_example :
  exists path t content v,
    recorded allGoesWell path = true
    /\ heard path = inr t
    /\ answered t = inr (Some content)
    /\ parsed content = Some v
    /\ OpenAI.getProp v "intent" = Returned (OpenAI.JString "book_appointment").
Proof.
  apply (browser_acts_only_on_booking_intent anyFile heard answered parsed
           allGoesWell Recorder.initial Examples.session Examples.bookingPage).
  vm_compute. discriminate.
Defined.

End VoiceCommandExamples.

(** ** The description of the form *)

Section FormDescription.
Import Dom Filler FormFields.

Lemma get_set_same (k v : string) (o : Obj) : get k (set k v o) = Some v.
Proof.
  unfold get. induction o as [|[k' v'] o IH]; simpl.
  - now rewrite String.eqb_refl.
  - destruct (String.eqb k k') eqn:E; simpl; [now rewrite String.eqb_refl|].
    now rewrite E.
Qed.

Lemma get_set_other (k k' v : string) (o : Obj) :
  k <> k' -> get k (set k' v o) = get k o.
Proof.
  intro N. apply String.eqb_neq in N.
  unfold get. induction o as [|[k0 v0] o IH]; simpl.
  - now rewrite N.
  - destruct (String.eqb k' k0) eqn:E; simpl.
    + apply String.eqb_eq in E. subst k0. now rewrite N.
    + now rewrite IH.
Qed.

Lemma get_assign_other (k k' v : string) (o : Obj) :
  k <> k' -> get k (assign k' v o) = get k o.
Proof.
  intro N. unfold assign. destruct (String.eqb k' "__proto__"); [reflexivity|].
  now apply get_set_other.
Qed.

Lemma get_assign_same (k v : string) (o : Obj) :
  k <> "__proto__" -> get k (assign k v o) = Some v.
Proof.
  intro N. unfold assign. apply String.eqb_neq in N. rewrite N.
  apply get_set_same.
Qed.

(** A key that names none of the controls is left as it was. *)
Lemma record_untouched (p : Page) (k : string) (cs : list Element) :
  forall index o,
    (forall i c, nth_error cs i = Some c ->
                 FieldNames.inferName p c (index + i) <> k) ->
    get k (record p cs index o) = get k o.
Proof.
  induction cs as [|c cs IH]; intros index o H; [reflexivity|].
  simpl. rewrite IH.
  - apply get_assign_other. intro E. apply (H 0 c eq_refl).
    now rewrite Nat.add_0_r.
  - intros i c' N. replace (S index + i) with (index + S i) by lia.
    now apply H.
Qed.

Lemma record_last (p : Page) (k : string) (cs : list Element) :
  forall index o i c,
    nth_error cs i = Some c ->
    FieldNames.inferName p c (index + i) = k ->
    k <> "__proto__" ->
    (forall j c', i < j -> nth_error cs j = Some c' ->
                  FieldNames.inferName p c' (index + j) <> k) ->
    get k (record p cs index o) = Some (describe c).
Proof.
  induction cs as [|c0 cs IH]; intros index o i c N E P Last.
  - destruct i; discriminate.
  - destruct i as [|i]; simpl in N |- *.
    + injection N as ->. rewrite Nat.add_0_r in E. rewrite record_untouched.
      * rewrite E. now apply get_assign_same.
      * intros j c' Nj. replace (S index + j) with (index + S j) by lia.
        apply (Last (S j) c'); [lia|exact Nj].
    + apply (IH (S index) _ i c N).
      * now replace (S index + i) with (index + S i) by lia.
      * exact P.
      * intros j c' Lt Nj. replace (S index + j) with (index + S j) by lia.
        apply (Last (S j) c'); [lia|exact Nj].
Qed.

Lemma record_keys (p : Page) (k v : string) (cs : list Element) :
  forall index o,
    get k (record p cs index o) = Some v ->
    get k o = Some v
    \/ exists i c, nth_error cs i = Some c
                   /\ FieldNames.inferName p c (index + i) = k
                   /\ k <> "__proto__"
                   /\ v = describe c.
Proof.
  induction cs as [|c cs IH]; intros index o H; [now left|].
  simpl in H. apply IH in H as [H|(i & c' & N & E & P & D)].
  - destruct (String.eqb k (FieldNames.inferName p c index)) eqn:K.
    + apply String.eqb_eq in K. subst k.
      unfold assign in H.
      destruct (String.eqb (FieldNames.inferName p c index) "__proto__") eqn:Pr;
        [now left|].
      rewrite get_set_same in H. injection H as <-.
      right. exists 0, c. rewrite Nat.add_0_r.
      repeat split. now apply String.eqb_neq.
    + apply String.eqb_neq in K. rewrite get_assign_other in H by exact K.
      now left.
  - right. exists (S i), c'. repeat split; try assumption.
    now replace (index + S i) with (S index + i) by lia.
Qed.


(** X20.  The object [getFormFields] builds holds nothing but the
    controls of the first form: every key is the name inferred for one
    of them, is not empty, and its value is the description of that
    control. *)
Theorem described_fields_are_controls (p : Page) (k v : string) :
  get k (fieldInfo p) = Some v ->
  Js.truthy k = true
  /\ exists i c,
       nth_error (FieldNames.controls p) i = Some c
       /\ FieldNames.inferName p c i = k
       /\ v = describe c.
Proof.
  unfold fieldInfo. intro H.
  apply record_keys in H as [H|(i & c & N & E & _ & D)]; [discriminate|].
  simpl in E. split.
  - rewrite <- E. apply inferName_truthy.
  - now exists i, c.
Qed.


End FormDescription.

Section FormDescriptionExamples.
Import Dom FormFields Scenarios.


Lemma described_fields_are_controls_example :
  exists i c,
    nth_error (FieldNames.controls twoEmailsPage) i = Some c
    /\ FieldNames.inferName twoEmailsPage c i = "email"
    /\ describe confirmInput = describe c.
Proof.
  apply (described_fields_are_controls twoEmailsPage "email"
           (describe confirmInput)).
  vm_compute. reflexivity.
Defined.

End FormDescriptionExamples.

(** ** The life of the browser *)

Section BrowserLifecycle.
Import Filler Lifecycle.

(** X22.  After a [close] that returned the filler holds neither page
    nor browser, and every method that needs the page refuses before
    it does anything: [fillAppointmentForm], [getFormFields] and
    [takeScreenshot] throw their [Browser not initialized] error and
    leave no trace. *)
Theorem closed_filler_refuses (env : CloseEnv) (h : Handles) (s : Session)
    (p : Dom.Page) (data : AppointmentData) :
  fst (close env h) = Returned tt ->
  let after := withHandles (snd (close env h)) s in
  snd (close env h) = fresh
  /\ fillAppointmentForm after p data
     = ([], Threw (Error "Browser not initialized. Call initialize() first."))
  /\ FormFields.getFormFields after p
     = ([], Threw (Error "Browser not initialized"))
  /\ takeScreenshot after = ([], Threw (Error "Browser not initialized")).
Proof.
  intro H.
  assert (F : snd (close env h) = fresh).
  { unfold close, closeFailed in *. destruct h as [[b|] [pg|]]; cbn in *.
    - destruct (pageClose env); [discriminate|]. cbn in *.
      destruct (browserClose env); [discriminate|reflexivity].
    - destruct (browserClose env); [discriminate|reflexivity].
    - destruct (pageClose env); [discriminate|reflexivity].
    - reflexivity. }
  cbv zeta. rewrite F. repeat split.
Qed.

Lemma closed_filler_refuses_example :
  snd (close (mkCloseEnv None None) (mkHandles (Some 1) (Some 2))) = fresh.
Proof.
  exact (proj1 (closed_filler_refuses (mkCloseEnv None None)
                  (mkHandles (Some 1) (Some 2)) Examples.session
                  Examples.bookingPage Examples.request eq_refl)).
Defined.

(** X23.  A filler never holds a page without a browser; after an
    [initialize] that returned it holds both, so that the guard of the
    methods passes; and a [close] that throws leaves the handles it
    could not close and always the browser's, so that closing can be
    tried again. *)
Theorem page_needs_browser (h : Handles) :
  reachable h ->
  (page h <> None -> browser h <> None)
  /\ (forall env, fst (initialize env h) = Returned tt ->
        hasPage (snd (initialize env h)) = true
        /\ browser (snd (initialize env h)) <> None)
  /\ (forall env e, fst (close env h) = Threw e ->
        browser (snd (close env h)) <> None
        /\ exists cause, e = Error ("Failed to close browser: " ++ messageOf cause)).
Proof.
  intro R.
  assert (Inv : page h <> None -> browser h <> None).
  { induction R as [|env h R IH|env h R IH].
    - intro H. now contradiction H.
    - unfold initialize, initializeFailed.
      destruct (launch env); [exact IH|].
      destruct (newPage env); [cbn; discriminate|].
      destruct (setViewportSize env); cbn; discriminate.
    - unfold close, closeFailed. destruct h as [[b|] [pg|]]; cbn in *.
      + destruct (pageClose env); cbn; [discriminate|].
        destruct (browserClose env); cbn; [intro H; now contradiction H|].
        intro H; now contradiction H.
      + destruct (browserClose env); cbn; intro H; now contradiction H.
      + now elim IH.
      + intro H; now contradiction H. }
  split; [exact Inv|]. split.
  - intros env. unfold initialize, initializeFailed, hasPage.
    destruct (launch env); [discriminate|].
    destruct (newPage env); [discriminate|].
    destruct (setViewportSize env); [discriminate|].
    cbn. split; [reflexivity|discriminate].
  - intros env e. unfold close, closeFailed.
    destruct h as [[b|] [pg|]]; cbn in *.
    + destruct (pageClose env) as [c|]; cbn.
      * intros [= <-]. split; [discriminate|now exists c].
      * destruct (browserClose env) as [c|]; cbn; [|discriminate].
        intros [= <-]. split; [discriminate|now exists c].
    + destruct (browserClose env) as [c|]; cbn; [|discriminate].
      intros [= <-]. split; [discriminate|now exists c].
    + now elim Inv.
    + discriminate.
Qed.

Lemma page_needs_browser_example :
  hasPage (snd (initialize (mkLaunchEnv (inr 1) (inr 2) None) fresh)) = true
  /\ browser (snd (initialize (mkLaunchEnv (inr 1) (inr 2) None) fresh)) <> None.
Proof.
  exact (proj1 (proj2 (page_needs_browser fresh reach_new))
           (mkLaunchEnv (inr 1) (inr 2) None) eq_refl).
Defined.

End BrowserLifecycle.

(** ** What the form filler writes *)

Section TraceProperties.
Import Dom Locator Filler.

Variable P : Event -> Prop.

Lemma all_bind {A B : Type} (m : M A) (k : A -> M B) :
  Forall P (fst m) -> (forall a, Forall P (fst (k a))) -> Forall P (fst (bind m k)).
Proof.
  destruct m as [t [a|e]]; simpl; intros Hm Hk; [|exact Hm].
  apply Forall_app. split; [exact Hm|apply Hk].
Qed.

Lemma all_tryCatch {A : Type} (m : M A) (h : Exn -> M A) :
  Forall P (fst m) -> (forall e, Forall P (fst (h e))) ->
  Forall P (fst (tryCatch m h)).
Proof.
  destruct m as [t [a|e]]; simpl; intros Hm Hh; [exact Hm|].
  apply Forall_app. split; [exact Hm|apply Hh].
Qed.

Lemma all_act (p : Page) (action : string) (target : option nat)
    (ready : Element -> bool) (ev : nat -> Element -> option Event) :
  (forall i el e, target = Some i -> element p i = Some el ->
                  ev i el = Some e -> P e) ->
  Forall P (fst (act p action target ready ev)).
Proof.
  intro H.
  destruct (act_cases p action target ready ev)
    as [(i & el & e & T & L & _ & E & ->)| ->]; [|constructor].
  constructor; [exact (H i el e T L E)|constructor].
Qed.

(** From here on, [P] constrains only what is written: fills and
    selections. *)
Hypothesis others : forall ev, isWrite ev = false -> P ev.

Lemma all_log (message : string) : Forall P (fst (emit (Log message))).
Proof. constructor; [now apply others|constructor]. Qed.

Lemma all_takeScreenshot (s : Session) : Forall P (fst (takeScreenshot s)).
Proof.
  unfold takeScreenshot. destruct (negb (initialized s)); [constructor|].
  destruct (screenshotFails s); [constructor|].
  constructor; [now apply others|constructor].
Qed.

Lemma all_submit (s : Session) (p : Page) : Forall P (fst (submit s p)).
Proof.
  assert (Announced : forall l, Forall P (map Strategy l)).
  { intro l. apply Forall_forall. intros ev H.
    apply in_map_iff in H as (k & <- & _). now apply others. }
  assert (Click : forall c, isClick c = true -> P c).
  { intros c H. apply others. destruct c; try discriminate; reflexivity. }
  assert (Report : forall q, isReport q = true -> P q).
  { intros q H. apply others. destruct q; try discriminate; reflexivity. }
  destruct (submit_cases s p)
    as (n & tail & r & _ & -> & [(c & q & Hc & Hq & -> & _)|(q & Hq & -> & _)]);
    cbn [fst]; apply Forall_app; (split; [apply Announced|]).
  - constructor; [now apply Click|]. constructor; [now apply Report|constructor].
  - constructor; [now apply Report|constructor].
Qed.

(** What holds of everything the fields' part writes holds of the
    whole run. *)
Lemma all_fillAppointmentForm (s : Session) (p : Page) (data : AppointmentData) :
  Forall P (fst (fillFields s p data)) ->
  Forall P (fst (fillAppointmentForm s p data)).
Proof.
  intro Fields. unfold fillAppointmentForm.
  destruct (negb (initialized s)); [constructor|].
  apply all_tryCatch.
  - apply all_bind; [|intros _; apply all_submit].
    unfold prepare.
    apply all_bind; [|intros _].
    { unfold goto. destruct (gotoFails s); [constructor|].
      constructor; [now apply others|constructor]. }
    apply all_bind; [|intros _].
    { unfold waitForForm. destruct (isVisible p _); constructor. }
    apply all_bind; [exact Fields|intros _; apply all_takeScreenshot].
  - intro e. apply all_bind; [apply all_log|intros _].
    apply all_bind; [apply all_takeScreenshot|intros _; constructor].
Qed.

End TraceProperties.

Section FillerValues.
Import Dom Locator Filler.

Variable s : Session.
Variable p : Page.
Variable data : AppointmentData.

(** Where a value of the request may be typed: into the first element
    that the selector of its field matches. *)
Let placed (ev : Event) : Prop :=
  forall i v, ev = Fill i v ->
    (v = name data /\ first p nameSelector = Some i)
    \/ (v = phone data /\ first p phoneSelector = Some i)
    \/ (v = email data /\ first p emailSelector = Some i)
    \/ (v = appointmentDate data /\ v <> "" /\ first p dateSelector = Some i)
    \/ (v = JsDate.defaultDateString (clock s) /\ appointmentDate data = ""
        /\ first p dateInputSelector = Some i)
    \/ (comments data = Some v /\ first p commentsSelector = Some i).

Lemma isEmpty_true (v : string) : Js.isEmpty v = true -> v = "".
Proof. destruct v; [reflexivity|discriminate]. Qed.

Lemma placed_other (ev : Event) : (forall i v, ev <> Fill i v) -> placed ev.
Proof. intros H i v E. now elim (H i v). Qed.

Lemma placed_others (ev : Event) : isWrite ev = false -> placed ev.
Proof. intro H. apply placed_other. intros i v ->. discriminate. Qed.

Lemma placed_selectOptionIndex (t : option nat) (k : nat) :
  Forall placed (fst (selectOptionIndex p t k)).
Proof.
  apply all_act. intros i el e _ _.
  destruct (Nat.ltb _ _); [|discriminate].
  intros [= <-]. now apply placed_other.
Qed.

Lemma placed_selectOptionLabel (t : option nat) (l : string) :
  Forall placed (fst (selectOptionLabel p t l)).
Proof.
  apply all_act. intros i el e _ _.
  destruct (findIndex _ _ _); [|discriminate].
  intros [= <-]. now apply placed_other.
Qed.

Lemma placed_selectDefault (k : nat) : Forall placed (fst (selectDefault p k)).
Proof.
  unfold selectDefault. destruct (isVisible p _); [|constructor].
  apply placed_selectOptionIndex.
Qed.

(** [fillFirst] types the value into the first match of the selector,
    or nowhere. *)
Lemma placed_fillFirst (selector : Selector) (v : string) :
  (forall i, first p selector = Some i -> placed (Fill i v)) ->
  Forall placed (fst (fillFirst p selector v)).
Proof.
  intro H. unfold fillFirst. destruct (isVisible p _); [|constructor].
  apply all_act. intros i el e T _ [= <-]. now apply H.
Qed.

Lemma placed_fillFields : Forall placed (fst (fillFields s p data)).
Proof.
  pose proof (all_log placed placed_others) as Logged.
  unfold fillFields.
  apply all_bind; [|intros _].
  { unfold fillName. destruct (Js.truthy (name data)); [|constructor].
    apply placed_fillFirst. intros i F j v [= <- <-]. left. now split. }
  apply all_bind; [|intros _].
  { unfold fillPhone. destruct (Js.truthy (phone data)); [|constructor].
    apply placed_fillFirst. intros i F j v [= <- <-]. right; left. now split. }
  apply all_bind; [|intros _].
  { unfold fillEmail. destruct (Js.truthy (email data)); [|constructor].
    apply placed_fillFirst. intros i F j v [= <- <-]. right; right; left.
    now split. }
  apply all_bind; [|intros _].
  { unfold fillDate. case_eq (Js.truthy (appointmentDate data)); intro D.
    - apply all_tryCatch; [|intro; apply Logged].
      apply placed_fillFirst. intros i F j v [= <- <-].
      do 3 right. left. repeat split; [|exact F].
      intro E. rewrite E in D. discriminate.
    - apply all_tryCatch; [|intro; apply Logged].
      destruct (isVisible p (first p dateInputSelector)); [|constructor].
      apply all_act. intros i el e T _ [= <-] j v [= <- <-].
      do 4 right. left. repeat split; [|exact T].
      unfold Js.truthy in D. apply negb_false_iff in D.
      now apply isEmpty_true in D. }
  apply all_bind; [|intros _].
  { unfold fillTime. destruct (Js.truthy (appointmentTime data)).
    - apply all_tryCatch.
      + destruct (isVisible p _); [|constructor]. apply placed_selectOptionLabel.
      + intro. apply all_tryCatch; [apply placed_selectDefault|].
        intro. apply Logged.
    - apply all_tryCatch; [apply placed_selectDefault|intro; apply Logged]. }
  apply all_bind; [|intros _].
  { unfold fillService. destruct (Js.truthy (serviceType data)).
    - apply all_tryCatch; [|intro; apply Logged].
      destruct (isVisible p _); [|constructor].
      cbv zeta. destruct (matchingOption _ _); apply placed_selectOptionIndex.
    - apply all_tryCatch; [apply placed_selectDefault|intro; apply Logged]. }
  unfold fillComments. case_eq (comments data); [intros c C|constructor].
  destruct (Js.truthy c); [|constructor].
  apply placed_fillFirst. intros i F j v [= <- <-]. do 5 right. now split.
Qed.

(** X24.  [fillAppointmentForm] types nothing but the request: every
    text it fills in is the name, the telephone number, the e-mail
    address, the date or the comment of the request, or the default
    date when the request has none, and it goes into the first element
    matched by the selector of that very field. *)
Theorem fills_only_the_request (i : nat) (v : string) :
  In (Fill i v) (fst (fillAppointmentForm s p data)) ->
  (v = name data /\ first p nameSelector = Some i)
  \/ (v = phone data /\ first p phoneSelector = Some i)
  \/ (v = email data /\ first p emailSelector = Some i)
  \/ (v = appointmentDate data /\ v <> "" /\ first p dateSelector = Some i)
  \/ (v = JsDate.defaultDateString (clock s) /\ appointmentDate data = ""
      /\ first p dateInputSelector = Some i)
  \/ (comments data = Some v /\ first p commentsSelector = Some i).
Proof.
  intro H.
  pose proof (all_fillAppointmentForm placed placed_others s p data
                placed_fillFields) as All.
  rewrite Forall_forall in All. exact (All _ H i v eq_refl).
Qed.

(** Which option a selection may pick, and in which dropdown. *)
Let chosen (ev : Event) : Prop :=
  forall i k, ev = Select i k ->
    (nth p selectSelector 0 = Some i /\ k = 1)
    \/ (first p timeSelector = Some i
        /\ exists el opt, element p i = Some el
             /\ nth_error (options el) k = Some opt
             /\ text opt = appointmentTime data)
    \/ (nth p selectSelector 1 = Some i
        /\ (k = 1
            \/ (serviceType data <> ""
                /\ matchingOption (optionsOf p (Some i)) (serviceType data)
                   = Some k))).

Lemma chosen_others (ev : Event) : isWrite ev = false -> chosen ev.
Proof. intros H i k ->. discriminate. Qed.

Lemma chosen_fill (t : option nat) (v : string) : Forall chosen (fst (fill p t v)).
Proof.
  apply all_act. intros i el e _ _ [= <-] j k E. discriminate E.
Qed.

Lemma chosen_fillFirst (selector : Selector) (v : string) :
  Forall chosen (fst (fillFirst p selector v)).
Proof.
  unfold fillFirst. destruct (isVisible p _); [apply chosen_fill|constructor].
Qed.

Lemma chosen_selectDefault (n : nat) :
  (forall i, nth p selectSelector n = Some i -> chosen (Select i 1)) ->
  Forall chosen (fst (selectDefault p n)).
Proof.
  intro H. unfold selectDefault. destruct (isVisible p _); [|constructor].
  apply all_act. intros i el e T _.
  destruct (Nat.ltb _ _); [|discriminate]. intros [= <-]. now apply H.
Qed.

Lemma chosen_fillFields : Forall chosen (fst (fillFields s p data)).
Proof.
  pose proof (all_log chosen chosen_others) as Logged.
  assert (First : forall i, nth p selectSelector 0 = Some i -> chosen (Select i 1)).
  { intros i N j k [= <- <-]. left. now split. }
  assert (Second : forall i, nth p selectSelector 1 = Some i -> chosen (Select i 1)).
  { intros i N j k [= <- <-]. right; right. split; [exact N|now left]. }
  unfold fillFields.
  apply all_bind; [|intros _].
  { unfold fillName. destruct (Js.truthy (name data)); [|constructor].
    apply chosen_fillFirst. }
  apply all_bind; [|intros _].
  { unfold fillPhone. destruct (Js.truthy (phone data)); [|constructor].
    apply chosen_fillFirst. }
  apply all_bind; [|intros _].
  { unfold fillEmail. destruct (Js.truthy (email data)); [|constructor].
    apply chosen_fillFirst. }
  apply all_bind; [|intros _].
  { unfold fillDate. destruct (Js.truthy (appointmentDate data)).
    - apply all_tryCatch; [apply chosen_fillFirst|intro; apply Logged].
    - apply all_tryCatch; [|intro; apply Logged].
      destruct (isVisible p _); [apply chosen_fill|constructor]. }
  apply all_bind; [|intros _].
  { unfold fillTime. destruct (Js.truthy (appointmentTime data)).
    - apply all_tryCatch.
      + destruct (isVisible p _); [|constructor].
        apply all_act. intros i el e T L.
        destruct (findIndex _ (options el) 0) as [k|] eqn:F; [|discriminate].
        intros [= <-] j k' [= <- <-]. right; left. split; [exact T|].
        apply findIndex_from in F as (_ & opt & N & E).
        rewrite Nat.sub_0_r in N. apply String.eqb_eq in E.
        now exists el, opt.
      + intro. apply all_tryCatch; [now apply chosen_selectDefault|].
        intro. apply Logged.
    - apply all_tryCatch; [now apply chosen_selectDefault|intro; apply Logged]. }
  apply all_bind; [|intros _].
  { unfold fillService. case_eq (Js.truthy (serviceType data)); intro V.
    - apply all_tryCatch; [|intro; apply Logged].
      destruct (isVisible p _); [|constructor].
      cbv zeta.
      destruct (matchingOption _ (serviceType data)) as [k|] eqn:Mt.
      + apply all_act. intros i el e T _.
        destruct (Nat.ltb _ _); [|discriminate].
        intros [= <-] j k' [= <- <-]. right; right. split; [exact T|]. right.
        split; [intro E; rewrite E in V; discriminate|].
        now rewrite <- T.
      + apply all_act. intros i el e T _.
        destruct (Nat.ltb _ _); [|discriminate].
        intros [= <-]. now apply Second.
    - apply all_tryCatch; [now apply chosen_selectDefault|intro; apply Logged]. }
  unfold fillComments. destruct (comments data) as [c|]; [|constructor].
  destruct (Js.truthy c); [apply chosen_fillFirst|constructor].
Qed.


End FillerValues.

Section FillerValuesExamples.
Import Dom Locator Filler.

Lemma fills_only_the_request_example :
  first Examples.bookingPage emailSelector = Some 3.
Proof.
  assert (I : In (Fill 3 "ada@example.org")
                 (fst (fillAppointmentForm Examples.session Examples.bookingPage
                         Examples.request))) by (vm_compute; tauto).
  destruct (fills_only_the_request Examples.session Examples.bookingPage
              Examples.request 3 "ada@example.org" I)
    as [[E _]|[[E _]|[[_ F]|[[E _]|[[E _]|[E _]]]]]];
    try (vm_compute in E; discriminate E).
  exact F.
Defined.


End FillerValuesExamples.

(** ** Names taken from labels *)

Section LabelNames.
Import Dom FieldNames Regex Labels.

Lemma stripColonStar_clean (s : string) :
  allIn (fun c => negb (Ascii.eqb c ":" || Ascii.eqb c "*")) (Js.stripColonStar s)
  = true.
Proof.
  induction s as [|c s IH]; simpl; [reflexivity|].
  destruct (Ascii.eqb c ":" || Ascii.eqb c "*") eqn:E; [exact IH|].
  simpl. now rewrite E, IH.
Qed.

(** Lower case is reached in one step, and brings in neither a colon
    nor an asterisk. *)
Lemma lowerChar_clean (c : ascii) :
  negb (Ascii.eqb c ":" || Ascii.eqb c "*") = true ->
  negb (Ascii.eqb (Js.lowerChar c) ":" || Ascii.eqb (Js.lowerChar c) "*")
  && Ascii.eqb (Js.lowerChar (Js.lowerChar c)) (Js.lowerChar c) = true.
Proof.
  destruct c as [[] [] [] [] [] [] [] []]; vm_compute; intro H;
    try reflexivity; discriminate H.
Qed.

Lemma toLowerCase_clean (s : string) :
  allIn (fun c => negb (Ascii.eqb c ":" || Ascii.eqb c "*")) s = true ->
  allIn (fun c => negb (Ascii.eqb c ":" || Ascii.eqb c "*")
                  && Ascii.eqb (Js.lowerChar c) c) (Js.toLowerCase s) = true.
Proof.
  induction s as [|c s IH]; simpl; [reflexivity|].
  intro H. apply andb_true_iff in H as [Hc Hs].
  now rewrite (lowerChar_clean c Hc), IH.
Qed.

Lemma underscoreRuns_tidy (s : string) :
  forall inRun,
    allIn (fun c => negb (Ascii.eqb c ":" || Ascii.eqb c "*")
                    && Ascii.eqb (Js.lowerChar c) c) s = true ->
    allIn tidy (Js.underscoreRuns inRun s) = true.
Proof.
  induction s as [|c s IH]; intros inRun H; simpl; [reflexivity|].
  simpl in H. apply andb_true_iff in H as [Hc Hs].
  destruct (Js.isWhiteSpace c) eqn:W.
  - destruct inRun; [now apply IH|]. simpl. now apply IH.
  - simpl. rewrite (IH false Hs), andb_true_r.
    unfold tidy. rewrite W. cbn [negb andb]. exact Hc.
Qed.

(** X25.  A name that [getFormFields] takes from a label, for a control
    without name, id and aria-label, is the label's text trimmed, freed
    of colons and asterisks, put in lower case, with every run of white
    space replaced by one underscore; so it holds no white space, no
    colon, no asterisk and no upper-case letter. *)
Theorem label_names_are_tidy (p : Page) (el : Element) (index : nat) (t : string) :
  Dom.name el = "" -> Dom.id el = "" ->
  Js.orNull (getAttribute "aria-label" el) "" = "" ->
  labelOf p el = Some t ->
  Js.underscoreSpaces (Js.toLowerCase (Js.stripColonStar (Js.trim t))) <> "" ->
  inferName p el index
  = Js.underscoreSpaces (Js.toLowerCase (Js.stripColonStar (Js.trim t)))
  /\ allIn tidy (inferName p el index) = true.
Proof.
  intros N I A L Ne.
  assert (E : inferName p el index
              = Js.underscoreSpaces
                  (Js.toLowerCase (Js.stripColonStar (Js.trim t)))).
  { unfold inferName. rewrite N, I, A, L. cbn [Js.or Js.truthy Js.isEmpty negb].
    destruct (Js.underscoreSpaces _) as [|c n]; [congruence|reflexivity]. }
  split; [exact E|]. rewrite E. unfold Js.underscoreSpaces.
  apply underscoreRuns_tidy, toLowerCase_clean, stripColonStar_clean.
Qed.

Lemma label_names_are_tidy_example :
  inferName Scenarios.twoEmailsPage Scenarios.labelledInput 0 = "preferred_date_".
Proof.
  exact (proj1 (label_names_are_tidy Scenarios.twoEmailsPage Scenarios.labelledInput
                  0 "  Preferred Date: *" eq_refl eq_refl eq_refl eq_refl
                  ltac:(discriminate))).
Defined.

End LabelNames.
